(** * InvestorX/document: the conversion pipeline and the editor lifecycle queue

    A shallow embedding of
    - [X2TConverter] (engine bootstrap, file-name sanitisation, document
      conversion), and
    - [queueEditorOperation] / [createEditorInstance] (the editor lifecycle
      queue and the session manager),
    together with the properties their specification states about them.

    JavaScript strings are sequences of UTF-16 code units; they are modelled
    as lists of [N].  Promises are modelled by an explicit store of promise
    states, and the event loop by a step function on events. *)

From Stdlib Require Import NArith ZArith Ascii String Lia.
From stdpp Require Import base list gmap.

Local Open Scope N_scope.

(** ** JavaScript strings *)

Module JS.

Abbreviation jsstring := (list N).

(** A string literal of the source (ASCII only in this code base). *)
Definition js (s : string) : jsstring :=
  List.map N_of_ascii (list_ascii_of_string s).

Definition dot : N := 46.

(** [s.split(sep)] for a one-character separator: never the empty array. *)
Fixpoint split (sep : N) (s : jsstring) : list jsstring :=
  match s with
  | [] => [[]]
  | c :: s' =>
      if N.eqb c sep then [] :: split sep s'
      else match split sep s' with
           | [] => [[c]]
           | w :: ws => (c :: w) :: ws
           end
  end.

(** [parts.join(sep)]. *)
Fixpoint join (sep : jsstring) (parts : list jsstring) : jsstring :=
  match parts with
  | [] => []
  | [p] => p
  | p :: ps => p ++ sep ++ join sep ps
  end.

(** [parts.pop()]: the removed last element ([None] is [undefined]) and the
    array that is left. *)
Definition pop {A} (l : list A) : option A * list A :=
  (last l, removelast l).

(** [x || d] where [x] is a string or [undefined]: both [undefined] and the
    empty string are falsy. *)
Definition or_default (x : option jsstring) (d : jsstring) : jsstring :=
  match x with
  | Some (c :: s) => c :: s
  | _ => d
  end.

(** White space and line terminators of ECMAScript, as [trim] strips them. *)
Definition isWhiteSpace (c : N) : bool :=
  (c =? 9) || (c =? 10) || (c =? 11) || (c =? 12) || (c =? 13) || (c =? 32)
  || (c =? 160) || (c =? 5760) || ((8192 <=? c) && (c <=? 8202))
  || (c =? 8232) || (c =? 8233) || (c =? 8239) || (c =? 8287)
  || (c =? 12288) || (c =? 65279).

Fixpoint trimStart (s : jsstring) : jsstring :=
  match s with
  | [] => []
  | c :: s' => if isWhiteSpace c then trimStart s' else s
  end.

Definition trimEnd (s : jsstring) : jsstring := rev (trimStart (rev s)).

Definition trim (s : jsstring) : jsstring := trimEnd (trimStart s).

(** [s.replace(/[class]/g, '')]: every code unit of the class is dropped. *)
Definition replace_class (cls : N -> bool) (s : jsstring) : jsstring :=
  List.filter (fun c => negb (cls c)) s.

(** [s.slice(0, n)]. *)
Definition slice0 (n : nat) (s : jsstring) : jsstring := take n s.

(** [s.toLowerCase()] restricted to ASCII letters; used for the concrete
    environments of the examples only (the pipeline takes the host's
    [toLowerCase] as a parameter). *)
Definition asciiLower (s : jsstring) : jsstring :=
  List.map (fun c => if (65 <=? c) && (c <=? 90) then c + 32 else c) s.

End JS.

Import JS.

(** ** File-name sanitisation: [X2TConverter.sanitizeFileName] *)

Module Sanitize.

(** The class [illegalChars]: slash, question mark, angle brackets,
    backslash, colon, asterisk, vertical bar and double quote. *)
Definition illegalChars (c : N) : bool :=
  (c =? 47) || (c =? 63) || (c =? 60) || (c =? 62) || (c =? 92)
  || (c =? 58) || (c =? 42) || (c =? 124) || (c =? 34).

(** The class [controlChars]: the code units 0x00-0x1f and 0x80-0x9f. *)
Definition controlChars (c : N) : bool :=
  (c <=? 31) || ((128 <=? c) && (c <=? 159)).

(** The class [unsafeChars]: ampersand, single quote, percent, exclamation
    mark, double quote, braces and square brackets. *)
Definition unsafeChars (c : N) : bool :=
  (c =? 38) || (c =? 39) || (c =? 37) || (c =? 33) || (c =? 34)
  || (c =? 123) || (c =? 125) || (c =? 91) || (c =? 93).

(** The pattern [reservedPattern]: the whole string is one or more dots. *)
Definition reservedPattern (s : jsstring) : bool :=
  match s with
  | [] => false
  | _ => forallb (N.eqb dot) s
  end.

(** [s.replace(reservedPattern, '')] *)
Definition replace_reserved (s : jsstring) : jsstring :=
  if reservedPattern s then [] else s.

(** The four replacements applied to the base name, in the source's order. *)
Definition strip (name : jsstring) : jsstring :=
  replace_class unsafeChars
    (replace_reserved
       (replace_class controlChars
          (replace_class illegalChars name))).

Definition sanitizeFileName (input : jsstring) : jsstring :=
  match trim input with
  | [] => js "file.bin"
  | _ =>
      let '(popped, parts) := pop (split dot input) in
      let ext := or_default popped (js "bin") in
      let name := join [dot] parts in
      let sanitized := strip name in
      let sanitized := or_default (Some (trim sanitized)) (js "file") in
      slice0 200 sanitized ++ [dot] ++ ext
  end.

(** The part of a file name before its last dot, as the function splits it. *)
Definition baseName (s : jsstring) : jsstring :=
  join [dot] (snd (pop (split dot s))).

(** The last dot-separated segment of a file name. *)
Definition lastSegment (s : jsstring) : jsstring :=
  default [] (fst (pop (split dot s))).

(** What the function makes of a base name. *)
Definition sanitizedBase (name : jsstring) : jsstring :=
  slice0 200 (or_default (Some (trim (strip name))) (js "file")).

(** A code unit that none of the three character classes matches. *)
Definition clean (c : N) : Prop :=
  illegalChars c = false /\ controlChars c = false /\ unsafeChars c = false.

End Sanitize.

Import Sanitize.

(** ** Engine bootstrap: [X2TConverter.initialize] and [doInitialize] *)

Module Engine.

(** The engine object [window.Module], by identity. *)
Definition Handle := nat.

(** The rejections of the promise of [doInitialize]:
    [ScriptLoadFailed] is 'Failed to load X2T WASM script',
    [ModuleNotFound] is 'X2T module not found after script loading',
    [InitTimeout] is 'X2T initialization timeout after 300000ms'. *)
Inductive InitError :=
| ScriptLoadFailed
| ModuleNotFound
| InitTimeout.

(** The promise returned by one call of [doInitialize].  The promise of the
    async function adopts the promise it returns, so both are one entry:
    suspended at [await this.loadScript()] (fetching the script, or not when
    it was loaded before), pending on the inner promise, or settled. *)
Inductive InitPromise :=
| AwaitingScript (fetching : bool)
| AwaitingRuntime
| Resolved (h : Handle)
| Rejected (e : InitError).

(** What a caller of [initialize] is handed: the cached module, or the promise
    of the bootstrap (the promise of the async wrapper adopts it). *)
Inductive Ret :=
| RHandle (h : Handle)
| RPromise (p : nat).

#[global] Instance InitError_eq_dec : EqDecision InitError.
Proof. solve_decision. Defined.

#[global] Instance InitPromise_eq_dec : EqDecision InitPromise.
Proof. solve_decision. Defined.

#[global] Instance Ret_eq_dec : EqDecision Ret.
Proof. solve_decision. Defined.

(** The engine's virtual file system. *)
Inductive FileData :=
| Bytes (b : list N)
| Text (s : jsstring).

Record FS := mkFS {
  dirs : list jsstring;
  files : gmap jsstring FileData
}.

(** Calls that leave the converter, in the order they are made. *)
Inductive Effect :=
| EScriptOnLoad
| EAwaitRuntime
| EMkdir (d : jsstring)
| EWriteFile (p : jsstring)
| EReadFile (p : jsstring)
| EReaddir (p : jsstring)
| ECcall (paramsPath : jsstring)
| ELoadXlsx
| EXlsxRead
| EXlsxWrite
| ECreateObjectURL.

#[global] Instance Effect_eq_dec : EqDecision Effect.
Proof. solve_decision. Defined.

Record World := mkWorld {
  (* the fields of the X2TConverter instance *)
  x2tModule : option Handle;
  isReady : bool;
  initPromise : option nat;
  hasScriptLoaded : bool;
  (* the host: promises of doInitialize, window.Module, the handler slot
     Module.onRuntimeInitialized (the promise it resolves and the module it
     captured), armed timers, the engine's file system, window.XLSX *)
  promises : list InitPromise;
  windowModule : option Handle;
  onRuntimeInitialized : option (nat * Handle);
  timers : list nat;
  fs : FS;
  windowXLSX : bool;
  effects : list Effect
}.

Definition fresh : World :=
  mkWorld None false None false [] None None [] (mkFS [] ∅) false [].

Definition set_initPromise (v : option nat) (w : World) : World :=
  mkWorld (x2tModule w) (isReady w) v (hasScriptLoaded w) (promises w)
    (windowModule w) (onRuntimeInitialized w) (timers w) (fs w)
    (windowXLSX w) (effects w).

Definition set_ready (h : Handle) (w : World) : World :=
  mkWorld (Some h) true (initPromise w) (hasScriptLoaded w) (promises w)
    (windowModule w) (onRuntimeInitialized w) (timers w) (fs w)
    (windowXLSX w) (effects w).

Definition set_scriptLoaded (m : option Handle) (w : World) : World :=
  mkWorld (x2tModule w) (isReady w) (initPromise w) true (promises w)
    (match m with Some h => Some h | None => windowModule w end)
    (onRuntimeInitialized w) (timers w) (fs w) (windowXLSX w) (effects w).

Definition set_promises (ps : list InitPromise) (w : World) : World :=
  mkWorld (x2tModule w) (isReady w) (initPromise w) (hasScriptLoaded w) ps
    (windowModule w) (onRuntimeInitialized w) (timers w) (fs w)
    (windowXLSX w) (effects w).

Definition set_handler (hd : option (nat * Handle)) (w : World) : World :=
  mkWorld (x2tModule w) (isReady w) (initPromise w) (hasScriptLoaded w)
    (promises w) (windowModule w) hd (timers w) (fs w) (windowXLSX w)
    (effects w).

Definition set_timers (ts : list nat) (w : World) : World :=
  mkWorld (x2tModule w) (isReady w) (initPromise w) (hasScriptLoaded w)
    (promises w) (windowModule w) (onRuntimeInitialized w) ts (fs w)
    (windowXLSX w) (effects w).

Definition set_fs (f : FS) (w : World) : World :=
  mkWorld (x2tModule w) (isReady w) (initPromise w) (hasScriptLoaded w)
    (promises w) (windowModule w) (onRuntimeInitialized w) (timers w) f
    (windowXLSX w) (effects w).

Definition set_windowXLSX (b : bool) (w : World) : World :=
  mkWorld (x2tModule w) (isReady w) (initPromise w) (hasScriptLoaded w)
    (promises w) (windowModule w) (onRuntimeInitialized w) (timers w) (fs w)
    b (effects w).

Definition emit (e : Effect) (w : World) : World :=
  mkWorld (x2tModule w) (isReady w) (initPromise w) (hasScriptLoaded w)
    (promises w) (windowModule w) (onRuntimeInitialized w) (timers w) (fs w)
    (windowXLSX w) (effects w ++ [e]).

(** [resolve]/[reject] of a promise: only a pending promise changes. *)
Definition settle (p : nat) (v : InitPromise) (w : World) : World :=
  match promises w !! p with
  | Some (AwaitingScript _) | Some AwaitingRuntime =>
      set_promises (<[p := v]> (promises w)) w
  | _ => w
  end.

Definition WORKING_DIRS : list jsstring :=
  [js "/working"; js "/working/media"; js "/working/fonts";
   js "/working/themes"].

(** [FS.mkdir]: throws ([None]) when the directory exists. *)
Definition mkdir (d : jsstring) (f : FS) : option FS :=
  if bool_decide (d ∈ dirs f) then None
  else Some (mkFS (dirs f ++ [d]) (files f)).

(** [createWorkingDirectories]: each [mkdir] in its own try/catch. *)
Definition createWorkingDirectories (w : World) : World :=
  foldl (fun w d =>
           let w := emit (EMkdir d) w in
           match mkdir d (fs w) with
           | Some f => set_fs f w
           | None => w
           end) w WORKING_DIRS.

(** [loadScript] up to its first suspension: [true] when [scriptOnLoad] was
    called, [false] when the script had been loaded before. *)
Definition loadScript (w : World) : bool * World :=
  if hasScriptLoaded w then (false, w) else (true, emit EScriptOnLoad w).

(** [doInitialize] up to [await this.loadScript()]: the new promise. *)
Definition doInitialize (w : World) : nat * World :=
  let '(fetching, w) := loadScript w in
  let p := length (promises w) in
  (p, set_promises (promises w ++ [AwaitingScript fetching]) w).

Definition initialize (w : World) : Ret * World :=
  match isReady w, x2tModule w with
  | true, Some h => (RHandle h, w)
  | _, _ =>
      match initPromise w with
      | Some p => (RPromise p, w)
      | None =>
          let '(p, w) := doInitialize w in
          (RPromise p, set_initPromise (Some p) w)
      end
  end.

(** The executor of the inner promise of [doInitialize], run when
    [await this.loadScript()] resumes normally. *)
Definition awaitRuntime (p : nat) (w : World) : World :=
  match windowModule w with
  | None => settle p (Rejected ModuleNotFound) w
  | Some x2t =>
      emit EAwaitRuntime
        (set_handler (Some (p, x2t))
           (set_timers (timers w ++ [p])
              (set_promises (<[p := AwaitingRuntime]> (promises w)) w)))
  end.

(** The catch block of [doInitialize], reached from a failed [loadScript]. *)
Definition loadScriptFailed (p : nat) (w : World) : World :=
  settle p (Rejected ScriptLoadFailed) (set_initPromise None w).

(** The handler installed on [Module.onRuntimeInitialized]. *)
Definition runtimeInitialized (p : nat) (x2t : Handle) (w : World) : World :=
  let w := set_timers (List.filter (fun q => negb (Nat.eqb q p)) (timers w)) w in
  let w := createWorkingDirectories w in
  let w := set_ready x2t w in
  settle p (Resolved x2t) w.

(** The callback of [setTimeout(..., INIT_TIMEOUT)]. *)
Definition initTimeout (p : nat) (w : World) : World :=
  let w := set_timers (List.filter (fun q => negb (Nat.eqb q p)) (timers w)) w in
  if isReady w then w else settle p (Rejected InitTimeout) w.

(** What the callers and the host do, one event at a time. *)
Inductive Event :=
| CallInitialize
| ScriptLoaded (p : nat) (m : option Handle)
| ScriptFailed (p : nat)
| LoadScriptSkipped (p : nat)
| RuntimeInitialized
| InitTimerFired (p : nat).

Definition step (ev : Event) (w : World) : option Ret * World :=
  match ev with
  | CallInitialize => let '(r, w) := initialize w in (Some r, w)
  | ScriptLoaded p m =>
      match promises w !! p with
      | Some (AwaitingScript true) =>
          (None, awaitRuntime p (set_scriptLoaded m w))
      | _ => (None, w)
      end
  | ScriptFailed p =>
      match promises w !! p with
      | Some (AwaitingScript true) => (None, loadScriptFailed p w)
      | _ => (None, w)
      end
  | LoadScriptSkipped p =>
      match promises w !! p with
      | Some (AwaitingScript false) => (None, awaitRuntime p w)
      | _ => (None, w)
      end
  | RuntimeInitialized =>
      match onRuntimeInitialized w with
      | Some (p, x2t) => (None, runtimeInitialized p x2t w)
      | None => (None, w)
      end
  | InitTimerFired p =>
      if bool_decide (p ∈ timers w) then (None, initTimeout p w)
      else (None, w)
  end.

(** A run: the final world and what each [initialize] call returned. *)
Fixpoint run (evs : list Event) (w : World) : World * list Ret :=
  match evs with
  | [] => (w, [])
  | ev :: evs =>
      let '(r, w) := step ev w in
      let '(w', rs) := run evs w in
      (w', match r with Some r => r :: rs | None => rs end)
  end.

(** Events that leave a bootstrap in flight: further callers, and the script
    arriving with the engine object. *)
Definition in_flight (ev : Event) : bool :=
  match ev with
  | CallInitialize => true
  | ScriptLoaded _ (Some _) => true
  | LoadScriptSkipped _ => true
  | _ => false
  end.

Definition count (e : Effect) (w : World) : nat :=
  length (List.filter (fun e' => bool_decide (e' = e)) (effects w)).


(** The world after the first call of [initialize] on a fresh converter: the
    script is being fetched. *)
Definition fetching : World := snd (initialize fresh).

(** The world once the script has arrived with the engine object [h]: the
    runtime is awaited. *)
Definition awaiting (h : Handle) : World :=
  snd (step (ScriptLoaded 0 (Some h)) fetching).

(** The world once the engine [h] has signalled that it is ready. *)
Definition ready (h : Handle) : World :=
  snd (step RuntimeInitialized (awaiting h)).

(** The outcome a caller observes in a later world. *)
Definition outcome (w : World) (r : Ret) : option (InitError + Handle) :=
  match r with
  | RHandle h => Some (inr h)
  | RPromise p =>
      match promises w !! p with
      | Some (Resolved h) => Some (inr h)
      | Some (Rejected e) => Some (inl e)
      | _ => None
      end
  end.

Definition calls_in (tr : list Event) : nat :=
  length (List.filter (fun ev => match ev with CallInitialize => true | _ => false end) tr).

(** The world in which the timer of the bootstrap has fired before the
    engine [h] signalled that it is ready. *)
Definition timedOut (h : Handle) : World :=
  snd (step (InitTimerFired 0) (awaiting h)).

(** What an event hands back while the bootstrap is in flight. *)
Definition handed (ev : Event) : option Ret :=
  match ev with
  | CallInitialize => Some (RPromise 0)
  | _ => None
  end.

(** One round of the loop of [createWorkingDirectories]. *)
Definition mkdirStep (w : World) (d : jsstring) : World :=
  let w := emit (EMkdir d) w in
  match mkdir d (fs w) with
  | Some f => set_fs f w
  | None => w
  end.

(** [destroy()] *)
Definition destroy (w : World) : World :=
  mkWorld None false None (hasScriptLoaded w) (promises w) (windowModule w)
    (onRuntimeInitialized w) (timers w) (fs w) (windowXLSX w) (effects w).

(** What happens to a converter: an event of the bootstrap, or a call of
    [destroy]. *)
Inductive Act :=
| Happens (ev : Event)
| Destroys.

Definition act (a : Act) (w : World) : World :=
  match a with
  | Happens ev => snd (step ev w)
  | Destroys => destroy w
  end.

Definition acts (l : list Act) (w : World) : World :=
  foldl (fun w a => act a w) w l.

(** A promise of [doInitialize] that has not settled. *)
Definition isPending (s : InitPromise) : bool :=
  match s with
  | AwaitingScript _ | AwaitingRuntime => true
  | _ => false
  end.

(** The worlds that a fresh converter comes to by the events of its
    bootstraps alone, calls of [initialize] included. *)
Definition reachable (w : World) : Prop :=
  exists evs, w = fst (run evs fresh).

(** What holds between the fields of the converter and the promises of its
    bootstraps as long as the converter is not destroyed. *)
Record coherent (w : World) : Prop := mkCoherent {
  coh_bound : forall p, initPromise w = Some p -> (p < length (promises w))%nat;
  coh_pending : forall q s,
    promises w !! q = Some s -> isPending s = true -> initPromise w = Some q;
  coh_handler : forall q h,
    onRuntimeInitialized w = Some (q, h) ->
    initPromise w = Some q
    /\ exists s, promises w !! q = Some s
                 /\ (forall f, s <> AwaitingScript f)
                 /\ (forall h', s = Resolved h' -> h' = h);
  coh_resolved : forall q h,
    promises w !! q = Some (Resolved h) ->
    onRuntimeInitialized w = Some (q, h) /\ isReady w = true;
  coh_ready :
    isReady w = true ->
    exists q h, onRuntimeInitialized w = Some (q, h) /\ x2tModule w = Some h;
  coh_module : forall h, x2tModule w = Some h -> isReady w = true
}.

(** The working directories are there once the converter is ready. *)
Definition equipped (w : World) : Prop :=
  isReady w = true -> Forall (fun d => d ∈ dirs (fs w)) WORKING_DIRS.

(** What changes the world of a converter that is never destroyed: an event
    of a bootstrap, or one of the three things that the requests made of it
    do to the world, in any number and order: a call is recorded, the files
    of the engine change, the spreadsheet library arrives. *)
Inductive Change :=
| Occurs (ev : Event)
| Records (e : Effect)
| Stores (f : FS)
| Defines (b : bool).

Definition change (c : Change) (w : World) : World :=
  match c with
  | Occurs ev => snd (step ev w)
  | Records e => emit e w
  | Stores f => set_fs f w
  | Defines b => set_windowXLSX b w
  end.

Definition changes (l : list Change) (w : World) : World :=
  foldl (fun w c => change c w) w l.

(** The worlds of a converter in service: those that a fresh converter can
    come to by such changes. *)
Definition inService (w : World) : Prop :=
  exists l, w = changes l fresh.

End Engine.

Import Engine.

(** ** The conversion pipeline: [X2TConverter.convertDocument] *)

Module Pipeline.

Inductive DocumentType := word | cell | slide.

#[global] Instance DocumentType_eq_dec : EqDecision DocumentType.
Proof. solve_decision. Defined.

(** How the promise of [file.arrayBuffer()] ends: resolved with the bytes of
    the file, rejected (the file cannot be read), or not settled. *)
Inductive Read :=
| ReadResolves (bytes : list N)
| ReadRejects
| ReadPending.

(** A [File]: its [name], its [type] property (a media type) and what
    [arrayBuffer()] does. *)
Record File := mkFile {
  name : jsstring;
  mime : jsstring;
  arrayBuffer : Read
}.

(** What the property read [DOCUMENT_TYPE_MAP[key]] evaluates to when it is
    truthy: an entry of the table, or a property that the table, a plain
    object, inherits from [Object.prototype], named by its key. *)
Inductive TypeValue :=
| Entry (t : DocumentType)
| Inherited (key : jsstring).

#[global] Instance TypeValue_eq_dec : EqDecision TypeValue.
Proof. solve_decision. Defined.

Record ConversionResult := mkResult {
  fileName : jsstring;
  type : TypeValue;
  bin : FileData;
  media : gmap jsstring jsstring
}.

(** What the pipeline throws.  The three wrappers stand for the messages
    'Failed to convert CSV to XLSX: ...', 'Failed to convert CSV file: ...' and
    'Document conversion failed: ...', each around the message of its cause. *)
Inductive Error :=
| InitFailed (e : InitError)
| UnsupportedFormat (ext : jsstring)
| ReadFailed
| CsvEmpty
| XlsxLoadFailed
| XlsxThrew
| DecodeThrew
| FsReadFailed (p : jsstring)
| NullModule
| NotInitialized
| ObjectURLFailed
| ConversionFailed (code : Z)
| CsvToXlsxFailed (cause : Error)
| CsvConvertFailed (cause : Error)
| DocumentConversionFailed (cause : Error).

(** The result of running asynchronous code to its end: a value, an
    exception, or a suspension on a promise that has not settled. *)
Inductive Outcome (A : Type) :=
| Returned (a : A)
| Thrown (e : Error)
| Suspended.

Arguments Returned {A} a.
Arguments Thrown {A} e.
Arguments Suspended {A}.

Definition M (A : Type) : Type := World -> Outcome A * World.

Definition ret {A} (a : A) : M A := fun w => (Returned a, w).

Definition throw {A} (e : Error) : M A := fun w => (Thrown e, w).

Definition bind {A B} (m : M A) (k : A -> M B) : M B := fun w =>
  match m w with
  | (Returned a, w') => k a w'
  | (Thrown e, w') => (Thrown e, w')
  | (Suspended, w') => (Suspended, w')
  end.

(** [try { m } catch (e) { h e }] *)
Definition catch {A} (m : M A) (h : Error -> M A) : M A := fun w =>
  match m w with
  | (Thrown e, w') => h e w'
  | r => r
  end.

Notation "'let*' x := m 'in' k" := (bind m (fun x => k))
  (at level 10, x name, m at level 100, k at level 200).

Notation "'run*' m 'in' k" := (bind m (fun _ => k))
  (at level 10, m at level 100, k at level 200).

Fixpoint mapM {A B} (f : A -> M B) (l : list A) : M (list B) :=
  match l with
  | [] => ret []
  | a :: l => let* b := f a in let* bs := mapM f l in ret (b :: bs)
  end.

(** How the script of the fallback spreadsheet library ends: loaded and
    [window.XLSX] defined, loaded without it, failed, or still loading. *)
Inductive ScriptResult :=
| ScriptDefinesXLSX
| ScriptWithoutXLSX
| ScriptError
| ScriptPending.

(** What the pipeline calls and does not define: [getExtensions] of ranuts,
    the host's [toLowerCase], the table [DOCUMENT_TYPE_MAP] of
    document-utils, the engine's entry point [main1] (the status it returns
    and what it does to the file system), the script of the spreadsheet
    library and its [XLSX.read] and [XLSX.write], the text decoders, and
    [createObjectURL] of ranuts.  [None] stands for an exception.  The table
    gives the own properties of the object [DOCUMENT_TYPE_MAP]. *)
Record Env := mkEnv {
  getExtensions : jsstring -> list jsstring;
  toLowerCase : jsstring -> jsstring;
  DOCUMENT_TYPE_MAP : gmap jsstring DocumentType;
  main1 : FS -> jsstring -> Z * FS;
  xlsxScript : ScriptResult;
  decodeUtf8 : list N -> option jsstring;
  decodeLatin1 : list N -> jsstring;
  XLSX_read : jsstring -> option (list N);
  XLSX_write : list N -> option (list N);
  createObjectURL : FileData -> option jsstring
}.

(** The names of the properties of [Object.prototype], which every plain
    object inherits; the value of each of them is truthy. *)
Definition objectPrototype : list jsstring :=
  [js "constructor"; js "__defineGetter__"; js "__defineSetter__";
   js "hasOwnProperty"; js "__lookupGetter__"; js "__lookupSetter__";
   js "isPrototypeOf"; js "propertyIsEnumerable"; js "toString";
   js "valueOf"; js "__proto__"; js "toLocaleString"].

Section Converter.

Variable env : Env.

(** [await this.initialize()]: the call, then what the host does while the
    caller is suspended, then the outcome the caller resumes with. *)
Definition await_initialize (evs : list Event) : M Handle := fun w =>
  let '(r, w) := initialize w in
  let w := fst (run evs w) in
  match r with
  | RHandle h => (Returned h, w)
  | RPromise p =>
      match promises w !! p with
      | Some (Resolved h) => (Returned h, w)
      | Some (Rejected e) => (Thrown (InitFailed e), w)
      | _ => (Suspended, w)
      end
  end.

(** [DOCUMENT_TYPE_MAP[key]] when it is truthy: an own property of the
    table, or else a property found on its prototype. *)
Definition tableLookup (key : jsstring) : option TypeValue :=
  match DOCUMENT_TYPE_MAP env !! key with
  | Some t => Some (Entry t)
  | None =>
      if bool_decide (key ∈ objectPrototype) then Some (Inherited key)
      else None
  end.

Definition getDocumentType (extension : jsstring) : M TypeValue :=
  match tableLookup (toLowerCase env extension) with
  | Some docType => ret docType
  | None => throw (UnsupportedFormat extension)
  end.

(** [await file.arrayBuffer()] *)
Definition readBytes (file : File) : M (list N) := fun w =>
  match arrayBuffer file with
  | ReadResolves bytes => (Returned bytes, w)
  | ReadRejects => (Thrown ReadFailed, w)
  | ReadPending => (Suspended, w)
  end.

(** [this.x2tModule!.FS.writeFile(p, d)] *)
Definition fsWriteFile (p : jsstring) (d : FileData) : M unit := fun w =>
  match x2tModule w with
  | None => (Thrown NullModule, w)
  | Some _ =>
      let w := emit (EWriteFile p) w in
      (Returned tt, set_fs (mkFS (dirs (fs w)) (<[p := d]> (files (fs w)))) w)
  end.

(** [this.x2tModule!.FS.readFile(p)] *)
Definition fsReadFile (p : jsstring) : M FileData := fun w =>
  match x2tModule w with
  | None => (Thrown NullModule, w)
  | Some _ =>
      let w := emit (EReadFile p) w in
      match files (fs w) !! p with
      | Some d => (Returned d, w)
      | None => (Thrown (FsReadFailed p), w)
      end
  end.

Fixpoint strip_prefix (pre s : jsstring) : option jsstring :=
  match pre, s with
  | [], _ => Some s
  | a :: pre, b :: s => if N.eqb a b then strip_prefix pre s else None
  | _ :: _, [] => None
  end.

(** [FS.readdir(p)] for a path [p] that ends in a slash: the two
    pseudo-entries, then the files directly inside. *)
Definition fsReaddir (p : jsstring) : M (list jsstring) := fun w =>
  let w := emit (EReaddir p) w in
  if bool_decide (removelast p ∈ dirs (fs w)) then
    let inside :=
      omap (fun kv => strip_prefix p (fst kv)) (map_to_list (files (fs w))) in
    (Returned (js "." :: js ".." ::
               List.filter (fun n => negb (bool_decide (47 ∈ n))) inside), w)
  else (Thrown (FsReadFailed p), w).

Definition executeConversion (paramsPath : jsstring) : M unit := fun w =>
  match x2tModule w with
  | None => (Thrown NotInitialized, w)
  | Some _ =>
      let w := emit (ECcall paramsPath) w in
      let '(result, f) := main1 env (fs w) paramsPath in
      let w := set_fs f w in
      if Z.eqb result 0 then (Returned tt, w)
      else
        (run* catch (run* fsReadFile paramsPath in ret tt) (fun _ => ret tt) in
         throw (ConversionFailed result)) w
  end.

Definition quote : jsstring := [34].
Definition newline : jsstring := [10].

Definition createConversionParams (fromPath toPath additionalParams : jsstring)
  : jsstring :=
  js "<?xml version=" ++ quote ++ js "1.0" ++ quote ++ js " encoding="
  ++ quote ++ js "utf-8" ++ quote ++ js "?>" ++ newline
  ++ js "<TaskQueueDataConvert xmlns:xsi=" ++ quote
  ++ js "http://www.w3.org/2001/XMLSchema-instance" ++ quote
  ++ js " xmlns:xsd=" ++ quote ++ js "http://www.w3.org/2001/XMLSchema"
  ++ quote ++ js ">" ++ newline
  ++ js "  <m_sFileFrom>" ++ fromPath ++ js "</m_sFileFrom>" ++ newline
  ++ js "  <m_sThemeDir>/working/themes</m_sThemeDir>" ++ newline
  ++ js "  <m_sFileTo>" ++ toPath ++ js "</m_sFileTo>" ++ newline
  ++ js "  <m_bIsNoBase64>false</m_bIsNoBase64>" ++ newline
  ++ js "  " ++ additionalParams ++ newline
  ++ js "</TaskQueueDataConvert>".

Definition callCreateObjectURL (d : FileData) : M jsstring := fun w =>
  let w := emit ECreateObjectURL w in
  match createObjectURL env d with
  | Some url => (Returned url, w)
  | None => (Thrown ObjectURLFailed, w)
  end.

Definition readMediaFiles : M (gmap jsstring jsstring) := fun w =>
  match x2tModule w with
  | None => (Returned ∅, w)
  | Some _ =>
      catch
        (let* entries := fsReaddir (js "/working/media/") in
         let* results := mapM (fun file =>
                   catch
                     (let* fileData := fsReadFile (js "/working/media/" ++ file) in
                      let* mediaUrl := callCreateObjectURL fileData in
                      ret (Some (js "media/" ++ file, mediaUrl)))
                     (fun _ => ret None))
             (List.filter
                (fun file => negb (bool_decide (file = js "."))
                             && negb (bool_decide (file = js "..")))
                entries) in
         ret (foldl (fun (m : gmap jsstring jsstring) r =>
                       match r with
                       | Some (k, url) => <[k := url]> m
                       | None => m
                       end) ∅ results))
        (fun _ => ret ∅) w
  end.

Definition loadXlsxLibrary : M unit := fun w =>
  if windowXLSX w then (Returned tt, w)
  else
    let w := emit ELoadXlsx w in
    match xlsxScript env with
    | ScriptDefinesXLSX => (Returned tt, set_windowXLSX true w)
    | ScriptWithoutXLSX => (Thrown XlsxLoadFailed, w)
    | ScriptError => (Thrown XlsxLoadFailed, w)
    | ScriptPending => (Suspended, w)
    end.

Definition callXlsxRead (csvText : jsstring) : M (list N) := fun w =>
  let w := emit EXlsxRead w in
  match XLSX_read env csvText with
  | Some workbook => (Returned workbook, w)
  | None => (Thrown XlsxThrew, w)
  end.

Definition callXlsxWrite (workbook : list N) : M (list N) := fun w =>
  let w := emit EXlsxWrite w in
  match XLSX_write env workbook with
  | Some buffer => (Returned buffer, w)
  | None => (Thrown XlsxThrew, w)
  end.

Definition decode (data : list N) : M jsstring :=
  match decodeUtf8 env data with
  | Some text => ret text
  | None => throw DecodeThrew
  end.

(** [fileName.replace(/\.csv$/i, '.xlsx')] *)
Definition replaceCsvSuffix (fileName : jsstring) : jsstring :=
  let n := (length fileName - 4)%nat in
  match drop n fileName with
  | [d; c; s; v] =>
      if (d =? 46) && ((c =? 99) || (c =? 67)) && ((s =? 115) || (s =? 83))
         && ((v =? 118) || (v =? 86))
      then take n fileName ++ js ".xlsx"
      else fileName
  | _ => fileName
  end.

(** [csvData.length >= 3 && csvData[0] === 0xef && csvData[1] === 0xbb &&
    csvData[2] === 0xbf] *)
Definition hasUtf8Bom (csvData : list N) : bool :=
  match csvData with
  | a :: b :: c :: _ => (a =? 239) && (b =? 187) && (c =? 191)
  | _ => false
  end.

Definition xlsxMime : jsstring :=
  js "application/vnd.openxmlformats-officedocument.spreadsheetml.sheet".

Definition convertCsvToXlsx (csvData : list N) (fileName : jsstring) : M File :=
  catch
    (run* loadXlsxLibrary in
     let* csvText :=
       if hasUtf8Bom csvData then decode (drop 3 csvData)
       else catch (decode csvData) (fun _ => ret (decodeLatin1 env csvData)) in
     let* workbook := callXlsxRead csvText in
     let* xlsxBuffer := callXlsxWrite workbook in
     ret (mkFile (replaceCsvSuffix fileName) xlsxMime (ReadResolves xlsxBuffer)))
    (fun error => throw (CsvToXlsxFailed error)).

(** [getExtensions(file?.type)[0] || fileName.split('.').pop() || ''] *)
Definition detectExtension (file : File) : jsstring :=
  or_default (head (getExtensions env (mime file)))
    (or_default (fst (pop (split dot (name file)))) []).

(** The steps shared by both branches, from the write of the input file to
    the read of the media files; [resultName] is the name put in the result. *)
Definition convertWith (sanitizedName : jsstring) (data : list N)
    (resultName : jsstring) (documentType : TypeValue) : M ConversionResult :=
  let inputPath := js "/working/" ++ sanitizedName in
  let outputPath := inputPath ++ js ".bin" in
  run* fsWriteFile inputPath (Bytes data) in
  let params := createConversionParams inputPath outputPath [] in
  run* fsWriteFile (js "/working/params.xml") (Text params) in
  run* executeConversion (js "/working/params.xml") in
  let* result := fsReadFile outputPath in
  let* media := readMediaFiles in
  ret (mkResult resultName documentType result media).

Definition convertDocument (evs : list Event) (file : File)
  : M ConversionResult :=
  run* await_initialize evs in
  let fileName := name file in
  let fileExt := detectExtension file in
  let* documentType := getDocumentType fileExt in
  catch
    (let* data := readBytes file in
     if bool_decide (toLowerCase env fileExt = js "csv") then
       if Nat.eqb (length data) 0 then throw CsvEmpty
       else
         catch
           (let* xlsxFile := convertCsvToXlsx data fileName in
            let* xlsxData := readBytes xlsxFile in
            convertWith (sanitizeFileName (name xlsxFile)) xlsxData
              (sanitizeFileName fileName) documentType)
           (fun conversionError => throw (CsvConvertFailed conversionError))
     else
       let sanitizedName := sanitizeFileName fileName in
       convertWith sanitizedName data sanitizedName documentType)
    (fun error => throw (DocumentConversionFailed error)).

End Converter.

(** Effects that write a file of the engine or call its entry point. *)
Definition writes_or_invokes (e : Effect) : bool :=
  match e with
  | EWriteFile _ | ECcall _ => true
  | _ => false
  end.

(** Effects that load or call the spreadsheet library, or call the engine's
    entry point. *)
Definition xlsx_or_invokes (e : Effect) : bool :=
  match e with
  | ELoadXlsx | EXlsxRead | EXlsxWrite | ECcall _ => true
  | _ => false
  end.

(** Effects of a bootstrap of the engine. *)
Definition bootstraps (e : Effect) : bool :=
  match e with
  | EScriptOnLoad | EAwaitRuntime | EMkdir _ => true
  | _ => false
  end.

(** Two worlds with the same files in the engine and the same effects of
    the kind [P]. *)
Definition untouched (P : Effect -> bool) (w w' : World) : Prop :=
  files (fs w') = files (fs w)
  /\ List.filter P (effects w') = List.filter P (effects w).

(** A kind of effect that no step of a bootstrap produces. *)
Definition beyond_bootstrap (P : Effect -> bool) : Prop :=
  forall e, bootstraps e = true -> P e = false.

(** Partial correctness of pipeline code: from a world in [P], a value that
    is returned satisfies [Q] together with the world that is left. *)
Definition hoare {A} (P : World -> Prop) (m : M A) (Q : A -> World -> Prop) : Prop :=
  forall w, P w -> forall a w', m w = (Returned a, w') -> Q a w'.

(** Code that keeps [I] whatever its outcome. *)
Definition preserves {A} (I : World -> Prop) (m : M A) : Prop :=
  forall w, I w -> I (snd (m w)).

(** The effect [e] has been recorded. *)
Definition logged (e : Effect) (w : World) : Prop := e ∈ effects w.

(** A concrete environment for the examples: extensions come from the file
    name, the table knows four extensions, and the engine writes an output
    next to every file it finds. *)
Definition exampleMap : gmap jsstring DocumentType :=
  <[js "docx" := word]> (<[js "xlsx" := cell]> (<[js "csv" := cell]>
    (<[js "pptx" := slide]> ∅))).

Definition exampleEngine (f : FS) (paramsPath : jsstring) : Z * FS :=
  (0%Z,
   mkFS (dirs f)
     (foldr (fun kv m => <[fst kv ++ js ".bin" := Bytes [1; 2; 3]]> m)
        (files f) (map_to_list (files f)))).

Definition exampleEnv : Env :=
  mkEnv (fun _ => []) asciiLower exampleMap exampleEngine ScriptDefinesXLSX
    (fun b => Some b) (fun b => b) (fun t => Some t) (fun wb => Some wb)
    (fun _ => Some (js "blob:1")).

Definition bootstrapOk : list Event :=
  [ScriptLoaded 0 (Some 7%nat); RuntimeInitialized].

Definition dataCsvBytes : list N := js "a,b" ++ [10] ++ js "1,2" ++ [10].

Definition dataCsv : File :=
  mkFile (js "data.csv") (js "text/csv") (ReadResolves dataCsvBytes).

(** Code that never ends suspended. *)
Definition settles {A} (m : M A) : Prop := forall w, fst (m w) <> Suspended.

(** Code that always returns. *)
Definition returns {A} (m : M A) : Prop := forall w, exists a, fst (m w) = Returned a.

(** The engine's file system is [f]. *)
Definition fsIs (f : FS) (w : World) : Prop := fs w = f.

(** Effects that call the spreadsheet library, write a file of the engine or
    call its entry point. *)
Definition transcodes_or_converts (e : Effect) : bool :=
  match e with
  | EXlsxRead | EXlsxWrite | EWriteFile _ | ECcall _ => true
  | _ => false
  end.

(** A property of the world that no step of the pipeline can break: it
    survives a recorded effect, a change of the files of the engine and the
    arrival of the spreadsheet library. *)
Definition stable (I : World -> Prop) : Prop :=
  (forall e w, I w -> I (emit e w))
  /\ (forall f w, I w -> I (set_fs f w))
  /\ (forall b w, I w -> I (set_windowXLSX b w)).

(** An engine whose entry point reports the code 1 and writes nothing. *)
Definition failingEngine (f : FS) (paramsPath : jsstring) : Z * FS := (1%Z, f).

Definition failingEnv : Env :=
  mkEnv (fun _ => []) asciiLower exampleMap failingEngine ScriptDefinesXLSX
    (fun b => Some b) (fun b => b) (fun t => Some t) (fun wb => Some wb)
    (fun _ => Some (js "blob:1")).

(** An environment in which the script of the spreadsheet library fails to
    load. *)
Definition noXlsxEnv : Env :=
  mkEnv (fun _ => []) asciiLower exampleMap exampleEngine ScriptError
    (fun b => Some b) (fun b => b) (fun t => Some t) (fun wb => Some wb)
    (fun _ => Some (js "blob:1")).

Definition reportDocx : File :=
  mkFile (js "Report.docx") [] (ReadResolves [80; 75; 3; 4]).

(** A ready converter whose engine has left one image in the media
    directory. *)
Definition mediaWorld : World :=
  set_fs (mkFS WORKING_DIRS (<[js "/working/media/image1.png" := Bytes [1]]> ∅))
    (ready 7%nat).

End Pipeline.

(** ** The editor lifecycle queue: [queueEditorOperation] *)

Module EditorQueue.

(** A thrown value: an [Error] with its message, or anything else. *)
Inductive Exn :=
| JsError (message : jsstring)
| JsValue (tag : nat).

#[global] Instance Exn_eq_dec : EqDecision Exn.
Proof. solve_decision. Defined.

(** The state of an [operationPromise] (and of the initial
    [Promise.resolve()]). *)
Inductive Signal :=
| QPending
| QFulfilled
| QRejected (e : Exn).

(** One call of [queueEditorOperation]: suspended at the race on the promise
    that was the queue when the call was made, running its operation with
    its own [operationPromise] installed, or settled. *)
Inductive Call :=
| Waiting (awaited : nat)
| Running (operationPromise : nat)
| Completed
| Failed (e : Exn).

Inductive Entry :=
| Started (i : nat)
| Finished (i : nat).

#[global] Instance Entry_eq_dec : EqDecision Entry.
Proof. solve_decision. Defined.

Record Queue := mkQueue {
  editorOperationQueue : nat;
  signals : list Signal;
  calls : list Call;
  history : list Entry
}.

(** [let editorOperationQueue = Promise.resolve()] *)
Definition initial : Queue := mkQueue 0 [QFulfilled] [] [].

Definition isQueueTimeout (e : Exn) : bool :=
  match e with
  | JsError m => bool_decide (m = js "Editor operation queue timeout")
  | JsValue _ => false
  end.

(** The code after the try/catch around the race, up to the call of the
    operation: a new [operationPromise] becomes the queue. *)
Definition start (i : nat) (q : Queue) : Queue :=
  let own := length (signals q) in
  mkQueue own (signals q ++ [QPending]) (<[i := Running own]> (calls q))
    (history q ++ [Started i]).

Inductive QEvent :=
| Enqueue
| QueueSettled (i : nat)
| QueueTimeout (i : nat)
| OperationReturns (i : nat)
| OperationThrows (i : nat) (e : Exn).

Definition qstep (ev : QEvent) (q : Queue) : Queue :=
  match ev with
  | Enqueue =>
      mkQueue (editorOperationQueue q) (signals q)
        (calls q ++ [Waiting (editorOperationQueue q)]) (history q)
  | QueueSettled i =>
      match calls q !! i with
      | Some (Waiting p) =>
          match signals q !! p with
          | Some QFulfilled => start i q
          | Some (QRejected e) =>
              if isQueueTimeout e then start i q
              else mkQueue (editorOperationQueue q) (signals q)
                     (<[i := Failed e]> (calls q)) (history q)
          | _ => q
          end
      | _ => q
      end
  | QueueTimeout i =>
      match calls q !! i with
      | Some (Waiting p) =>
          match signals q !! p with
          | Some QPending => start i q
          | _ => q
          end
      | _ => q
      end
  | OperationReturns i =>
      match calls q !! i with
      | Some (Running own) =>
          mkQueue (editorOperationQueue q) (<[own := QFulfilled]> (signals q))
            (<[i := Completed]> (calls q)) (history q ++ [Finished i])
      | _ => q
      end
  | OperationThrows i e =>
      match calls q !! i with
      | Some (Running own) =>
          mkQueue (editorOperationQueue q) (<[own := QRejected e]> (signals q))
            (<[i := Failed e]> (calls q)) (history q ++ [Finished i])
      | _ => q
      end
  end.

Definition qrun (evs : list QEvent) (q : Queue) : Queue :=
  foldl (fun q ev => qstep ev q) q evs.

(** A history is serial when no operation starts while another one has
    started and not finished. *)
Fixpoint serial (running : option nat) (h : list Entry) : bool :=
  match h with
  | [] => true
  | Started i :: h =>
      match running with
      | Some _ => false
      | None => serial (Some i) h
      end
  | Finished i :: h =>
      match running with
      | Some j => Nat.eqb i j && serial None h
      | None => false
      end
  end.

(** Calls made one at a time: each is made, resumes and returns before the
    next one is made. *)
Fixpoint awaitedCalls (first n : nat) : list QEvent :=
  match n with
  | O => []
  | S n =>
      [Enqueue; QueueSettled first; OperationReturns first]
      ++ awaitedCalls (S first) n
  end.

Fixpoint awaitedHistory (first n : nat) : list Entry :=
  match n with
  | O => []
  | S n => [Started first; Finished first] ++ awaitedHistory (S first) n
  end.

(** Events that neither settle an operation nor fire a timer. *)
Definition quiet (ev : QEvent) : bool :=
  match ev with
  | Enqueue | QueueSettled _ => true
  | _ => false
  end.

(** Every suspended call waits on a promise that is still pending. *)
Definition waitsOnPending (q : Queue) : Prop :=
  forall i p, calls q !! i = Some (Waiting p) -> signals q !! p = Some QPending.

(** The queue while the operation of a first call is running. *)
Definition oneRunning : Queue := qrun [Enqueue; QueueSettled 0] initial.

(** An error with the message of the timeout of the queue. *)
Definition timeoutError : Exn := JsError (js "Editor operation queue timeout").

(** The queue after an operation has thrown such an error. *)
Definition afterTimeoutMessage : Queue :=
  qrun [Enqueue; QueueSettled 0; OperationThrows 0 timeoutError] initial.

End EditorQueue.

(** ** The session manager: the operation of [createEditorInstance] *)

Module EditorSession.

Record Config := mkConfig {
  fileName : jsstring;
  fileType : jsstring;
  binData : list N;
  media : option (gmap jsstring jsstring)
}.

(** A [DocEditor], with the configuration it was constructed from. *)
Record DocEditor := mkEditor {
  config : Config
}.

(** [window.editor], and the children of the element with id 'iframe'
    ([None] when there is no such element). *)
Record Window := mkWindow {
  editor : option DocEditor;
  iframe : option (list nat)
}.

Inductive Action :=
| DestroyEditor
| Wait (ms : N)
| ClearContainer
| NewDocEditor (cfg : Config).

(** What the widget does when called: whether [destroyEditor()] throws and
    whether the constructor throws. *)
Record Widget := mkWidget {
  destroyThrows : bool;
  constructorThrows : option EditorQueue.Exn
}.

Definition isPresentation (fileType : jsstring) : bool :=
  bool_decide (fileType = js "pptx") || bool_decide (fileType = js "ppt").

Definition destroyDelay (hasExistingEditor isPresentation : bool) : N :=
  if hasExistingEditor && isPresentation then 400
  else if hasExistingEditor then 250 else 150.

Definition cleanupDelay (hasExistingEditor isPresentation : bool) : N :=
  if hasExistingEditor && isPresentation then 400
  else if hasExistingEditor then 250 else 150.

(** The operation that [createEditorInstance] hands to the queue: the
    actions it performs in order, the window it leaves, and what it throws. *)
Definition operation (widget : Widget) (cfg : Config) (w : Window)
  : list Action * Window * option EditorQueue.Exn :=
  let hasExistingEditor := bool_decide (is_Some (editor w)) in
  let log :=
    match editor w with
    | Some _ =>
        if destroyThrows widget then [DestroyEditor]
        else [DestroyEditor;
              Wait (destroyDelay hasExistingEditor
                      (isPresentation (fileType cfg)))]
    | None => []
    end in
  let '(log, frame) :=
    match iframe w with
    | Some _ => (log ++ [ClearContainer], Some [])
    | None => (log, None)
    end in
  let log :=
    log ++ [Wait (cleanupDelay hasExistingEditor
                    (isPresentation (fileType cfg)))] in
  let log := log ++ [NewDocEditor cfg] in
  match constructorThrows widget with
  | Some error => (log, mkWindow None frame, Some error)
  | None => (log, mkWindow (Some (mkEditor cfg)) frame, None)
  end.

(** The settling delays that precede the construction of the new session. *)
Fixpoint delaysBeforeConstruct (log : list Action) : list N :=
  match log with
  | [] => []
  | NewDocEditor _ :: _ => []
  | Wait ms :: log => ms :: delaysBeforeConstruct log
  | _ :: log => delaysBeforeConstruct log
  end.

Definition settlingDelays (widget : Widget) (cfg : Config) (w : Window)
  : list N :=
  delaysBeforeConstruct (fst (fst (operation widget cfg w))).

Definition docx : Config := mkConfig (js "a.docx") (js "docx") [1] None.
Definition pptx : Config := mkConfig (js "b.pptx") (js "pptx") [2] None.
Definition calm : Widget := mkWidget false None.
Definition showing (cfg : Config) : Window :=
  mkWindow (Some (mkEditor cfg)) (Some [0%nat]).
Definition empty : Window := mkWindow None (Some []).

End EditorSession.

(** * Properties *)

(** ** Strings *)

Module JSFacts.

Lemma split_nonempty sep s : split sep s <> [].
Proof.
  destruct s as [|c s]; simpl; [discriminate|].
  destruct (N.eqb c sep); [discriminate|].
  destruct (split sep s); discriminate.
Qed.

Lemma split_no_sep sep s : sep ∉ s -> split sep s = [s].
Proof.
  induction s as [|c s IH]; intros Hs; simpl; [reflexivity|].
  apply not_elem_of_cons in Hs as [Hc Hs].
  destruct (N.eqb_spec c sep) as [->|_]; [congruence|].
  rewrite (IH Hs). reflexivity.
Qed.

Lemma split_app sep a e :
  sep ∉ e -> split sep (a ++ sep :: e) = split sep a ++ [e].
Proof.
  intros He. induction a as [|c a IH]; simpl.
  - rewrite N.eqb_refl, (split_no_sep _ _ He). reflexivity.
  - rewrite IH. destruct (N.eqb c sep); [reflexivity|].
    pose proof (split_nonempty sep a) as Hne.
    destruct (split sep a); [congruence | reflexivity].
Qed.

Lemma join_split sep s : join [sep] (split sep s) = s.
Proof.
  induction s as [|c s IH]; simpl; [reflexivity|].
  pose proof (split_nonempty sep s) as Hne.
  destruct (N.eqb_spec c sep) as [->|_].
  - destruct (split sep s) as [|w ws]; [congruence|].
    change (join [sep] ([] :: w :: ws))
      with ([] ++ [sep] ++ join [sep] (w :: ws)).
    rewrite IH. reflexivity.
  - destruct (split sep s) as [|w ws]; [congruence|].
    rewrite <- IH. destruct ws as [|w' ws]; reflexivity.
Qed.

Lemma split_segments sep s : Forall (fun p => sep ∉ p) (split sep s).
Proof.
  induction s as [|c s IH]; simpl.
  - constructor; [apply not_elem_of_nil | constructor].
  - destruct (N.eqb_spec c sep) as [->|Hc].
    + constructor; [apply not_elem_of_nil | exact IH].
    + destruct (split sep s) as [|w ws]; simpl.
      * constructor; [|constructor]. intros H.
        apply list_elem_of_singleton in H. congruence.
      * inversion IH as [|? ? Hw Hws]; subst. constructor; [|exact Hws].
        intros H. apply elem_of_cons in H as [H|H]; [congruence | auto].
Qed.

Lemma pop_snoc {A} (l : list A) (x : A) : pop (l ++ [x]) = (Some x, l).
Proof. unfold pop. rewrite last_snoc, removelast_last. reflexivity. Qed.

(** Every string splits into the segments before its last one and the last
    one, which holds no separator. *)
Lemma split_last sep s :
  exists parts e, split sep s = parts ++ [e] /\ sep ∉ e.
Proof.
  pose proof (split_nonempty sep s) as Hne.
  pose proof (split_segments sep s) as Hall.
  destruct (split sep s) as [|w ws] using rev_ind; [congruence|].
  exists ws, w. split; [reflexivity|].
  apply Forall_app in Hall as [_ Hw]. inversion Hw; assumption.
Qed.

Lemma elem_of_rev (c : N) (s : jsstring) : c ∈ rev s <-> c ∈ s.
Proof. rewrite !list_elem_of_In. symmetry. apply in_rev. Qed.

Lemma trimStart_elem c s : c ∈ trimStart s -> c ∈ s.
Proof.
  induction s as [|d s IH]; simpl; [tauto|].
  destruct (isWhiteSpace d); [|tauto].
  intros H. right. auto.
Qed.

Lemma trim_elem c s : c ∈ trim s -> c ∈ s.
Proof.
  unfold trim, trimEnd. intros H.
  apply elem_of_rev, trimStart_elem, elem_of_rev, trimStart_elem in H.
  exact H.
Qed.

Lemma trimStart_nil s : trimStart s = [] -> Forall (fun c => isWhiteSpace c = true) s.
Proof.
  induction s as [|d s IH]; simpl; [constructor|].
  destruct (isWhiteSpace d) eqn:Hd; [|discriminate].
  intros H. constructor; auto.
Qed.

Lemma trim_nil s : trim s = [] -> Forall (fun c => isWhiteSpace c = true) s.
Proof.
  unfold trim, trimEnd. intros H.
  apply (f_equal (@rev N)) in H. rewrite rev_involutive in H. simpl in H.
  apply trimStart_nil in H.
  assert (Hempty : trimStart s = []).
  { destruct (trimStart s) as [|d t] eqn:Ht; [reflexivity|].
    exfalso. assert (Hd : isWhiteSpace d = false).
    { clear H. induction s as [|a s IH]; simpl in Ht; [discriminate|].
      destruct (isWhiteSpace a) eqn:Ha; [auto|]. congruence. }
    rewrite Forall_forall in H.
    rewrite (H d) in Hd; [discriminate|].
    apply elem_of_rev. left. }
  apply trimStart_nil. exact Hempty.
Qed.

Lemma trimStart_length s : (length (trimStart s) <= length s)%nat.
Proof.
  induction s as [|c s IH]; simpl; [lia|].
  destruct (isWhiteSpace c); simpl; lia.
Qed.

Lemma trim_length s : (length (trim s) <= length s)%nat.
Proof.
  unfold trim, trimEnd. rewrite length_rev.
  pose proof (trimStart_length (rev (trimStart s))) as H1.
  rewrite length_rev in H1. pose proof (trimStart_length s). lia.
Qed.

Lemma replace_class_id cls s :
  Forall (fun c => cls c = false) s -> replace_class cls s = s.
Proof.
  unfold replace_class. induction 1 as [|c s Hc _ IH]; simpl; [reflexivity|].
  rewrite Hc. simpl. rewrite IH. reflexivity.
Qed.

Lemma replace_class_elem cls c s :
  c ∈ replace_class cls s -> c ∈ s /\ cls c = false.
Proof.
  unfold replace_class. rewrite list_elem_of_In, filter_In, <- list_elem_of_In.
  intros [H1 H2]. split; [exact H1|]. destruct (cls c); [discriminate | reflexivity].
Qed.

End JSFacts.

(** ** File-name sanitisation *)

Module SanitizeFacts.

Import JSFacts.

Lemma replace_reserved_elem c s : c ∈ replace_reserved s -> c ∈ s.
Proof.
  unfold replace_reserved. destruct (reservedPattern s); [|tauto].
  intros H. apply elem_of_nil in H. contradiction.
Qed.

Lemma strip_clean name : Forall clean (strip name).
Proof.
  apply Forall_forall. intros c Hc. unfold strip in Hc.
  apply replace_class_elem in Hc as [Hc Hunsafe].
  apply replace_reserved_elem, replace_class_elem in Hc as [Hc Hcontrol].
  apply replace_class_elem in Hc as [_ Hillegal].
  repeat split; assumption.
Qed.

Lemma strip_id s : Forall clean s -> reservedPattern s = false -> strip s = s.
Proof.
  intros Hs Hr. unfold strip.
  rewrite (replace_class_id illegalChars), (replace_class_id controlChars).
  - unfold replace_reserved. rewrite Hr. apply replace_class_id.
    eapply Forall_impl; [exact Hs|]. intros c (_ & _ & H). exact H.
  - eapply Forall_impl; [exact Hs|]. intros c (_ & H & _). exact H.
  - eapply Forall_impl; [exact Hs|]. intros c (H & _ & _). exact H.
Qed.

Lemma file_clean : Forall clean (js "file").
Proof. repeat constructor. Qed.

Lemma sanitizedBase_clean name : Forall clean (sanitizedBase name).
Proof.
  unfold sanitizedBase, slice0. apply Forall_forall. intros c Hc.
  apply subseteq_take in Hc.
  pose proof (strip_clean name) as Hs. rewrite Forall_forall in Hs.
  pose proof file_clean as Hf. rewrite Forall_forall in Hf.
  unfold or_default in Hc.
  destruct (trim (strip name)) as [|d t] eqn:Ht; [auto|].
  apply Hs, trim_elem. rewrite Ht. exact Hc.
Qed.

Lemma sanitizedBase_nonempty name : sanitizedBase name <> [].
Proof.
  unfold sanitizedBase, slice0, or_default.
  destruct (trim (strip name)); discriminate.
Qed.

Lemma sanitizedBase_short name : (length (sanitizedBase name) <= 200)%nat.
Proof. unfold sanitizedBase, slice0. rewrite length_take. lia. Qed.

Lemma not_blank_with_dot a e : trim (a ++ dot :: e) <> [].
Proof.
  intros H. apply trim_nil in H. rewrite Forall_forall in H.
  specialize (H dot). rewrite elem_of_app, elem_of_cons in H.
  discriminate H. right. left. reflexivity.
Qed.

(** The function at a name cut at its last dot. *)
Lemma sanitize_at_last_dot name ext :
  dot ∉ ext ->
  sanitizeFileName (name ++ dot :: ext)
  = sanitizedBase name ++ dot :: or_default (Some ext) (js "bin").
Proof.
  intros Hext. pose proof (not_blank_with_dot name ext) as Hblank.
  unfold sanitizeFileName.
  destruct (trim (name ++ dot :: ext)) as [|c t]; [congruence|].
  rewrite (split_app _ _ _ Hext), pop_snoc, join_split. reflexivity.
Qed.

(** The function at a name without any dot. *)
Lemma sanitize_without_dot x :
  dot ∉ x -> trim x <> [] -> sanitizeFileName x = js "file" ++ dot :: x.
Proof.
  intros Hx Hblank. unfold sanitizeFileName.
  destruct (trim x) as [|c t] eqn:Ht; [congruence|].
  rewrite (split_no_sep _ _ Hx).
  destruct x as [|a x]; [discriminate Ht | reflexivity].
Qed.

Lemma extension_of_output e :
  dot ∉ e ->
  (dot ∉ or_default (Some e) (js "bin"))
  /\ or_default (Some e) (js "bin") <> [].
Proof.
  intros He. destruct e as [|a e]; simpl.
  - split; [|discriminate]. intros H.
    repeat (apply elem_of_cons in H as [H|H]; [discriminate H|]).
    apply elem_of_nil in H. exact H.
  - split; [exact He | discriminate].
Qed.

(** The shape of every output on a name that is not blank: a sanitised base,
    a dot, and an extension that is not empty and holds no dot. *)
Lemma sanitize_shape x :
  trim x <> [] ->
  exists name ext,
    sanitizeFileName x = sanitizedBase name ++ dot :: ext
    /\ (dot ∉ ext) /\ ext <> [].
Proof.
  intros Hblank. destruct (split_last dot x) as (parts & e & Hsplit & He).
  exists (join [dot] parts), (or_default (Some e) (js "bin")).
  split; [|apply extension_of_output; exact He].
  unfold sanitizeFileName. destruct (trim x); [congruence|].
  rewrite Hsplit, pop_snoc. reflexivity.
Qed.

Lemma baseName_at_last_dot a e : dot ∉ e -> baseName (a ++ dot :: e) = a.
Proof.
  intros He. unfold baseName.
  rewrite (split_app _ _ _ He), pop_snoc. simpl. apply join_split.
Qed.

(** C8 (as amended): sanitising a second time changes nothing whenever the
    base name of the first result (its part before the last dot) is not made
    of dots only and is left unchanged by [trim], that is, has no white space
    at its end. *)
Theorem sanitize_idempotent_on_normal_base (x : jsstring) :
  reservedPattern (baseName (sanitizeFileName x)) = false ->
  trim (baseName (sanitizeFileName x)) = baseName (sanitizeFileName x) ->
  sanitizeFileName (sanitizeFileName x) = sanitizeFileName x.
Proof.
  destruct (trim x) as [|c t] eqn:Hx.
  - intros _ _. unfold sanitizeFileName at 2 3. rewrite Hx. reflexivity.
  - assert (Hblank : trim x <> []) by (rewrite Hx; discriminate).
    destruct (sanitize_shape x Hblank) as (name & ext & -> & Hdot & Hext).
    rewrite (baseName_at_last_dot _ _ Hdot). intros Hreserved Htrim.
    rewrite (sanitize_at_last_dot _ _ Hdot).
    f_equal.
    + unfold sanitizedBase at 1.
      rewrite (strip_id _ (sanitizedBase_clean name) Hreserved), Htrim.
      pose proof (sanitizedBase_nonempty name) as Hne.
      pose proof (sanitizedBase_short name) as Hlen.
      destruct (sanitizedBase name) as [|d s] eqn:Hs; [congruence|].
      unfold or_default, slice0. apply take_ge. exact Hlen.
    + destruct ext; [congruence | reflexivity].
Qed.

(** The condition is also necessary: a name whose sanitised form is a fixed
    point has a sanitised base name that is not made of dots only and that
    [trim] leaves unchanged. *)
Lemma sanitize_fixed_point_has_normal_base (x : jsstring) :
  sanitizeFileName (sanitizeFileName x) = sanitizeFileName x ->
  reservedPattern (baseName (sanitizeFileName x)) = false
  /\ trim (baseName (sanitizeFileName x)) = baseName (sanitizeFileName x).
Proof.
  destruct (trim x) as [|c t] eqn:Hx.
  - intros _. unfold sanitizeFileName. rewrite Hx. split; reflexivity.
  - assert (Hblank : trim x <> []) by (rewrite Hx; discriminate).
    destruct (sanitize_shape x Hblank) as (name & ext & -> & Hdot & Hext).
    rewrite (baseName_at_last_dot _ _ Hdot), (sanitize_at_last_dot _ _ Hdot).
    replace (or_default (Some ext) (js "bin")) with ext
      by (destruct ext; [congruence | reflexivity]).
    intros Hfix.
    apply (app_inv_tail (dot :: ext)) in Hfix.
    pose proof (sanitizedBase_clean name) as Hclean.
    pose proof (sanitizedBase_short name) as Hlen.
    pose proof (sanitizedBase_nonempty name) as Hne.
    set (s := sanitizedBase name) in *.
    assert (Hres : reservedPattern s = false).
    { destruct (reservedPattern s) eqn:Hr; [|reflexivity]. exfalso.
      unfold sanitizedBase, strip in Hfix.
      rewrite (replace_class_id illegalChars), (replace_class_id controlChars)
        in Hfix.
      - unfold replace_reserved in Hfix. rewrite Hr in Hfix.
        simpl in Hfix. rewrite <- Hfix in Hr. discriminate Hr.
      - eapply Forall_impl; [exact Hclean|]. intros a (_ & H & _). exact H.
      - eapply Forall_impl; [exact Hclean|]. intros a (H & _ & _). exact H. }
    split; [exact Hres|].
    unfold sanitizedBase in Hfix. rewrite (strip_id s Hclean Hres) in Hfix.
    destruct (trim s) as [|d u] eqn:Ht.
    + simpl in Hfix. rewrite <- Hfix in Ht. discriminate Ht.
    + unfold or_default, slice0 in Hfix.
      pose proof (trim_length s) as Htl. rewrite Ht in Htl.
      rewrite take_ge in Hfix by lia. exact Hfix.
Qed.

Lemma sanitize_idempotent_on_normal_base_witness :
  sanitizeFileName (sanitizeFileName (js "data.csv"))
  = sanitizeFileName (js "data.csv").
Proof.
  apply (sanitize_idempotent_on_normal_base (js "data.csv")); reflexivity.
Defined.

(** C8 (as stated) fails: the name [.&..x] is sanitised to [...x], because
    the dots-only pattern is tried before the unsafe ampersand is dropped,
    and [...x] is sanitised to [file.x]. *)
Lemma sanitize_not_idempotent :
  sanitizeFileName (js ".&..x") = js "...x"
  /\ sanitizeFileName (sanitizeFileName (js ".&..x")) = js "file.x"
  /\ sanitizeFileName (sanitizeFileName (js ".&..x"))
     <> sanitizeFileName (js ".&..x").
Proof. repeat split. discriminate. Qed.

(** C10 (as amended): for a name cut at its last dot, the characters of the
    three classes are filtered from the base name only, and the last segment
    is appended as it is, whatever it holds; an empty last segment becomes
    [bin].  A name without any dot is itself appended as the extension, after
    the fallback base name [file]. *)
Theorem sanitize_extension_verbatim (name ext : jsstring) :
  dot ∉ ext ->
  sanitizeFileName (name ++ dot :: ext)
  = sanitizedBase name ++ dot :: match ext with [] => js "bin" | _ => ext end
  /\ Forall clean (sanitizedBase name)
  /\ (trim ext <> [] -> sanitizeFileName ext = js "file" ++ dot :: ext).
Proof.
  intros Hext. split; [|split].
  - rewrite (sanitize_at_last_dot _ _ Hext). destruct ext; reflexivity.
  - apply sanitizedBase_clean.
  - intros Hblank. apply sanitize_without_dot; assumption.
Qed.

Lemma sanitize_extension_verbatim_witness :
  sanitizeFileName (js "a&b.c/d") = js "ab.c/d"
  /\ sanitizeFileName (js "c/d") = js "file.c/d".
Proof.
  assert (Hdot : dot ∉ js "c/d").
  { intros H. repeat (apply elem_of_cons in H as [H|H]; [discriminate H|]).
    apply elem_of_nil in H. exact H. }
  destruct (sanitize_extension_verbatim (js "a&b") (js "c/d") Hdot)
    as (H1 & _ & H2).
  split.
  - exact H1.
  - apply H2. discriminate.
Defined.

(** C10 (as stated) fails on a missing extension: a name without a dot does
    not get the extension [bin]. *)
Lemma missing_extension_not_bin :
  sanitizeFileName (js "README") = js "file.README"
  /\ lastSegment (sanitizeFileName (js "README")) <> js "bin".
Proof. split; [reflexivity | discriminate]. Qed.

End SanitizeFacts.

(** ** Engine bootstrap *)

Module EngineFacts.

Lemma handed_cons ev tr :
  match handed ev with
  | Some r => r :: repeat (RPromise 0) (calls_in tr)
  | None => repeat (RPromise 0) (calls_in tr)
  end = repeat (RPromise 0) (calls_in (ev :: tr)).
Proof. destruct ev; reflexivity. Qed.

Lemma run_cons ev tr w :
  run (ev :: tr) w
  = (fst (run tr (snd (step ev w))),
     match fst (step ev w) with
     | Some r => r :: snd (run tr (snd (step ev w)))
     | None => snd (run tr (snd (step ev w)))
     end).
Proof.
  simpl. destruct (step ev w) as [r w1]. simpl.
  destruct (run tr w1) as [w2 rs]. reflexivity.
Qed.

Lemma step_fetching ev :
  in_flight ev = true ->
  exists w, step ev fetching = (handed ev, w)
            /\ (w = fetching \/ exists h, w = awaiting h).
Proof.
  destruct ev as [|p [h|]|p|p| |p]; simpl; try discriminate; intros _.
  - exists fetching. split; [reflexivity | left; reflexivity].
  - destruct p as [|p].
    + exists (awaiting h). split; [reflexivity | right; exists h; reflexivity].
    + exists fetching. split; [reflexivity | left; reflexivity].
  - exists fetching. split; [destruct p; reflexivity | left; reflexivity].
Qed.

Lemma step_awaiting h ev :
  in_flight ev = true -> step ev (awaiting h) = (handed ev, awaiting h).
Proof.
  destruct ev as [|p [h'|]|p|p| |p]; simpl; try discriminate; intros _;
    try destruct p; reflexivity.
Qed.

Lemma run_awaiting h tr :
  forallb in_flight tr = true ->
  run tr (awaiting h) = (awaiting h, repeat (RPromise 0) (calls_in tr)).
Proof.
  induction tr as [|ev tr IH]; [reflexivity|].
  intros H. apply andb_prop in H as [Hev Htr].
  rewrite run_cons, (step_awaiting h ev Hev). cbn [fst snd].
  rewrite (IH Htr). cbn [fst snd]. rewrite handed_cons. reflexivity.
Qed.

Lemma run_fetching tr :
  forallb in_flight tr = true ->
  exists w, run tr fetching = (w, repeat (RPromise 0) (calls_in tr))
            /\ (w = fetching \/ exists h, w = awaiting h).
Proof.
  induction tr as [|ev tr IH].
  { exists fetching. split; [reflexivity | left; reflexivity]. }
  intros H. apply andb_prop in H as [Hev Htr].
  destruct (step_fetching ev Hev) as (w1 & Hstep & [-> | [h ->]]).
  - destruct (IH Htr) as (w & Hrun & Hw). exists w. split; [|exact Hw].
    rewrite run_cons, Hstep. cbn [fst snd]. rewrite Hrun. cbn [fst snd].
    rewrite handed_cons. reflexivity.
  - exists (awaiting h). split; [|right; exists h; reflexivity].
    rewrite run_cons, Hstep. cbn [fst snd].
    rewrite (run_awaiting h tr Htr). cbn [fst snd].
    rewrite handed_cons. reflexivity.
Qed.

Lemma initialize_ready h : initialize (ready h) = (RHandle h, ready h).
Proof. vm_compute. reflexivity. Qed.

Lemma run_ready h n :
  run (repeat CallInitialize n) (ready h) = (ready h, repeat (RHandle h) n).
Proof.
  induction n as [|n IH]; [reflexivity|].
  cbn [repeat]. rewrite run_cons.
  assert (Hstep : step CallInitialize (ready h) = (Some (RHandle h), ready h)).
  { unfold step. rewrite initialize_ready. reflexivity. }
  rewrite Hstep. cbn [fst snd]. rewrite IH. reflexivity.
Qed.

(** Single flight from any world: while [initPromise] is set and the
    converter is not ready, every call is handed that promise, and neither a
    call nor the arrival of the script starts another [doInitialize] or
    another script load. *)
Lemma in_flight_step (ev : Event) (w : World) (p : nat) :
  initPromise w = Some p -> isReady w = false -> in_flight ev = true ->
  fst (step ev w)
  = match ev with CallInitialize => Some (RPromise p) | _ => None end
  /\ initPromise (snd (step ev w)) = Some p
  /\ isReady (snd (step ev w)) = false
  /\ length (promises (snd (step ev w))) = length (promises w)
  /\ count EScriptOnLoad (snd (step ev w)) = count EScriptOnLoad w.
Proof.
  intros Hp Hr Hev.
  destruct ev as [|q [h|]|q|q| |q]; try discriminate Hev; simpl.
  - unfold initialize. rewrite Hr, Hp. simpl. auto.
  - destruct (promises w !! q) as [[[]| | |]|]; simpl; auto.
    unfold count. simpl. rewrite length_insert, List.filter_app. simpl.
    rewrite app_nil_r. auto.
  - destruct (promises w !! q) as [[[]| | |]|] eqn:Hq; simpl; auto.
    unfold awaitRuntime. destruct (windowModule w).
    + unfold count. simpl. rewrite length_insert, List.filter_app. simpl.
      rewrite app_nil_r. auto.
    + unfold settle. rewrite Hq. simpl. rewrite length_insert. auto.
Qed.

Lemma in_flight_run (tr : list Event) (w : World) (p : nat) :
  initPromise w = Some p -> isReady w = false ->
  forallb in_flight tr = true ->
  snd (run tr w) = repeat (RPromise p) (calls_in tr)
  /\ initPromise (fst (run tr w)) = Some p
  /\ length (promises (fst (run tr w))) = length (promises w)
  /\ count EScriptOnLoad (fst (run tr w)) = count EScriptOnLoad w.
Proof.
  revert w. induction tr as [|ev tr IH]; intros w Hp Hr Htr; [simpl; auto|].
  apply andb_prop in Htr as [Hev Htr].
  destruct (in_flight_step ev w p Hp Hr Hev) as (H1 & H2 & H3 & H4 & H5).
  destruct (IH _ H2 H3 Htr) as (I1 & I2 & I3 & I4).
  rewrite run_cons. cbn [fst snd]. rewrite H1, I1, I2, I3, I4, H4, H5.
  repeat split. destruct ev; reflexivity.
Qed.

Lemma ready_facts h :
  outcome (ready h) (RPromise 0) = Some (inr h)
  /\ x2tModule (ready h) = Some h
  /\ length (promises (ready h)) = 1%nat
  /\ count EScriptOnLoad (ready h) = 1%nat.
Proof. vm_compute. tauto. Qed.

Lemma step_ready h : step RuntimeInitialized (awaiting h) = (None, ready h).
Proof. vm_compute. reflexivity. Qed.

Lemma first_call : step CallInitialize fresh = (Some (RPromise 0), fetching).
Proof. reflexivity. Qed.

Lemma same_promise_same_outcome (rets : list Ret) n :
  rets = repeat (RPromise 0) n ->
  forall w r, r ∈ rets -> outcome w r = outcome w (RPromise 0).
Proof.
  intros -> w r Hr. apply list_elem_of_In, repeat_spec in Hr. rewrite Hr.
  reflexivity.
Qed.

(** C1: from a fresh converter, a first call of [initialize] followed by any
    number of further calls, interleaved in any way with the arrival of the
    script, starts one bootstrap (one promise of [doInitialize], one script
    load, at most one wait for the runtime), hands the promise of that
    bootstrap to every caller, so that all of them observe the same outcome
    in every later world.  When the engine then signals that it is ready, the
    promise is resolved with the engine object, and any number of later calls
    return that same object and leave the world as it is. *)
Theorem initialize_single_flight (tr : list Event) :
  forallb in_flight tr = true ->
  let w := fst (run (CallInitialize :: tr) fresh) in
  let rets := snd (run (CallInitialize :: tr) fresh) in
  rets = repeat (RPromise 0) (S (calls_in tr))
  /\ length (promises w) = 1%nat
  /\ count EScriptOnLoad w = 1%nat
  /\ (count EAwaitRuntime w <= 1)%nat
  /\ outcome w (RPromise 0) = None
  /\ (forall w' r, r ∈ rets -> outcome w' r = outcome w' (RPromise 0))
  /\ (w = fetching \/ exists h, w = awaiting h)
  /\ (forall h, w = awaiting h ->
       step RuntimeInitialized w = (None, ready h))
  /\ (forall h n,
       outcome (ready h) (RPromise 0) = Some (inr h)
       /\ x2tModule (ready h) = Some h
       /\ length (promises (ready h)) = 1%nat
       /\ count EScriptOnLoad (ready h) = 1%nat
       /\ run (repeat CallInitialize n) (ready h)
          = (ready h, repeat (RHandle h) n)).
Proof.
  intros Htr. rewrite run_cons, first_call. cbn [fst snd].
  destruct (run_fetching tr Htr) as (w & -> & Hw). cbn [fst snd].
  split; [reflexivity|].
  split; [destruct Hw as [-> | [h ->]]; vm_compute; reflexivity|].
  split; [destruct Hw as [-> | [h ->]]; vm_compute; reflexivity|].
  split; [destruct Hw as [-> | [h ->]]; vm_compute; repeat constructor|].
  split; [destruct Hw as [-> | [h ->]]; vm_compute; reflexivity|].
  split; [apply (same_promise_same_outcome _ (S (calls_in tr))); reflexivity|].
  split; [exact Hw|].
  split; [intros h ->; apply step_ready|].
  intros h n. pose proof (ready_facts h) as Hready.
  pose proof (run_ready h n) as Hrun. tauto.
Qed.

Lemma initialize_single_flight_witness :
  snd (run [CallInitialize; CallInitialize; ScriptLoaded 0 (Some 7%nat);
            CallInitialize] fresh)
  = [RPromise 0; RPromise 0; RPromise 0].
Proof.
  apply (initialize_single_flight
           [CallInitialize; ScriptLoaded 0 (Some 7%nat); CallInitialize]).
  reflexivity.
Defined.

Lemma initialize_timedOut h : initialize (timedOut h) = (RPromise 0, timedOut h).
Proof. vm_compute. reflexivity. Qed.

Lemma step_script h :
  step (ScriptLoaded 0 (Some h)) fetching = (None, awaiting h).
Proof. vm_compute. reflexivity. Qed.

Lemma step_timer h : step (InitTimerFired 0) (awaiting h) = (None, timedOut h).
Proof. vm_compute. reflexivity. Qed.

Lemma timedOut_facts h :
  outcome (timedOut h) (RPromise 0) = Some (inl InitTimeout)
  /\ initPromise (timedOut h) = Some 0%nat
  /\ length (promises (timedOut h)) = 1%nat
  /\ count EScriptOnLoad (timedOut h) = 1%nat.
Proof. vm_compute. tauto. Qed.

Lemma run_timedOut h n :
  run (repeat CallInitialize n) (timedOut h)
  = (timedOut h, repeat (RPromise 0) n).
Proof.
  induction n as [|n IH]; [reflexivity|].
  cbn [repeat]. rewrite run_cons.
  assert (Hstep : step CallInitialize (timedOut h)
                  = (Some (RPromise 0), timedOut h)).
  { unfold step. rewrite initialize_timedOut. reflexivity. }
  rewrite Hstep. cbn [fst snd]. rewrite IH. reflexivity.
Qed.

Lemma run_silent ev tr w w1 :
  step ev w = (None, w1) -> run (ev :: tr) w = run tr w1.
Proof. intros H. simpl. rewrite H. destruct (run tr w1). reflexivity. Qed.

Lemma run_call ev tr w r w1 w2 rs :
  step ev w = (Some r, w1) -> run tr w1 = (w2, rs) ->
  run (ev :: tr) w = (w2, r :: rs).
Proof. intros H1 H2. simpl. rewrite H1, H2. reflexivity. Qed.

(** C2 (the code departs from it): when the timer fires while the runtime is
    awaited, the promise of the bootstrap is rejected with the timeout error,
    but [initPromise] still holds that promise: every later call of
    [initialize] is handed the rejected promise again and no new bootstrap
    starts.  After a failed script load, by contrast, [initPromise] is reset
    and the next call starts a second bootstrap. *)
Theorem timeout_leaves_initPromise (h : Handle) (n : nat) :
  run ([CallInitialize; ScriptLoaded 0 (Some h); InitTimerFired 0]
       ++ repeat CallInitialize n) fresh
  = (timedOut h, RPromise 0 :: repeat (RPromise 0) n)
  /\ outcome (timedOut h) (RPromise 0) = Some (inl InitTimeout)
  /\ initPromise (timedOut h) = Some 0%nat
  /\ length (promises (timedOut h)) = 1%nat
  /\ count EScriptOnLoad (timedOut h) = 1%nat
  /\ snd (run [CallInitialize; ScriptFailed 0; CallInitialize] fresh)
     = [RPromise 0; RPromise 1].
Proof.
  split.
  - apply (run_call _ _ _ _ _ _ _ first_call).
    rewrite (run_silent _ _ _ _ (step_script h)).
    rewrite (run_silent _ _ _ _ (step_timer h)).
    apply run_timedOut.
  - pose proof (timedOut_facts h) as Hfacts.
    repeat (split; [tauto|]). vm_compute. reflexivity.
Qed.

End EngineFacts.

(** ** The conversion pipeline *)

Module PipelineFacts.

Import Pipeline EngineFacts.

Lemma untouched_refl P w : untouched P w w.
Proof. split; reflexivity. Qed.

Lemma untouched_trans P w1 w2 w3 :
  untouched P w1 w2 -> untouched P w2 w3 -> untouched P w1 w3.
Proof. intros [H1 H2] [H3 H4]. split; congruence. Qed.

Lemma untouched_emit P e w : P e = false -> untouched P w (emit e w).
Proof.
  intros He. split; [reflexivity|]. simpl.
  rewrite List.filter_app. simpl. rewrite He. apply app_nil_r.
Qed.

Lemma untouched_settle P p v w : untouched P w (settle p v w).
Proof.
  unfold settle.
  destruct (promises w !! p) as [[]|]; try apply untouched_refl;
    split; reflexivity.
Qed.

Lemma untouched_mkdirs P ds w :
  beyond_bootstrap P ->
  untouched P w
    (foldl (fun w d =>
              let w := emit (EMkdir d) w in
              match mkdir d (fs w) with
              | Some f => set_fs f w
              | None => w
              end) w ds).
Proof.
  intros HP. revert w. induction ds as [|d ds IH]; intros w; simpl.
  - apply untouched_refl.
  - eapply untouched_trans; [|apply IH].
    eapply untouched_trans; [apply (untouched_emit P (EMkdir d)); apply HP; reflexivity|].
    unfold mkdir. destruct (bool_decide _); [apply untouched_refl|].
    split; reflexivity.
Qed.

Lemma untouched_awaitRuntime P p w :
  beyond_bootstrap P -> untouched P w (awaitRuntime p w).
Proof.
  intros HP. unfold awaitRuntime. destruct (windowModule w).
  - eapply untouched_trans; [|apply untouched_emit; apply HP; reflexivity].
    split; reflexivity.
  - apply untouched_settle.
Qed.

Lemma untouched_initialize P w :
  beyond_bootstrap P -> untouched P w (snd (initialize w)).
Proof.
  intros HP. unfold initialize.
  destruct (isReady w), (x2tModule w), (initPromise w);
    try apply untouched_refl; unfold doInitialize, loadScript;
    destruct (hasScriptLoaded w); simpl; try apply untouched_refl;
    split; simpl; try reflexivity;
    rewrite List.filter_app; simpl; rewrite (HP EScriptOnLoad eq_refl);
    apply app_nil_r.
Qed.

Lemma untouched_step P ev w :
  beyond_bootstrap P -> untouched P w (snd (step ev w)).
Proof.
  intros HP. destruct ev as [|p m|p|p| |p]; simpl.
  - pose proof (untouched_initialize P w HP) as H.
    destruct (initialize w). exact H.
  - destruct (promises w !! p) as [[[]| | |]|]; simpl; try apply untouched_refl.
    eapply untouched_trans; [|apply untouched_awaitRuntime; exact HP].
    split; reflexivity.
  - destruct (promises w !! p) as [[[]| | |]|]; simpl; try apply untouched_refl.
    unfold loadScriptFailed.
    eapply untouched_trans; [|apply untouched_settle]. split; reflexivity.
  - destruct (promises w !! p) as [[[]| | |]|]; simpl; try apply untouched_refl.
    apply untouched_awaitRuntime. exact HP.
  - destruct (onRuntimeInitialized w) as [[p x2t]|]; simpl; [|apply untouched_refl].
    unfold runtimeInitialized.
    eapply untouched_trans; [|apply untouched_settle].
    eapply untouched_trans with (w2 := createWorkingDirectories _);
      [|split; reflexivity].
    eapply untouched_trans; [|apply untouched_mkdirs; exact HP].
    split; reflexivity.
  - destruct (bool_decide _); simpl; [|apply untouched_refl].
    unfold initTimeout. simpl. destruct (isReady w); [split; reflexivity|].
    eapply untouched_trans; [|apply untouched_settle]. split; reflexivity.
Qed.

Lemma untouched_run P evs w :
  beyond_bootstrap P -> untouched P w (fst (run evs w)).
Proof.
  intros HP. revert w. induction evs as [|ev evs IH]; intros w.
  - apply untouched_refl.
  - rewrite run_cons. cbn [fst].
    eapply untouched_trans; [apply untouched_step; exact HP | apply IH].
Qed.

Lemma untouched_await P evs w :
  beyond_bootstrap P -> untouched P w (snd (await_initialize evs w)).
Proof.
  intros HP. unfold await_initialize.
  pose proof (untouched_initialize P w HP) as H1.
  destruct (initialize w) as [r w1]. simpl in H1.
  pose proof (untouched_run P evs w1 HP) as H2.
  assert (H : untouched P w (fst (run evs w1)))
    by (eapply untouched_trans; eassumption).
  destruct r as [h|p]; [exact H|].
  destruct (promises (fst (run evs w1)) !! p) as [[]|]; exact H.
Qed.

Lemma writes_beyond_bootstrap : beyond_bootstrap writes_or_invokes.
Proof. intros [] H; try reflexivity; discriminate H. Qed.

Lemma xlsx_beyond_bootstrap : beyond_bootstrap xlsx_or_invokes.
Proof. intros [] H; try reflexivity; discriminate H. Qed.

(** C5 (as amended): when the detected extension, in lower case, is not in
    the table and is not the name of a property that the table inherits from
    [Object.prototype], [convertDocument] first awaits the initialisation of
    the engine, and what it leaves is the world that the initialisation left.
    It then throws the unsupported-format error (or, when the initialisation
    failed or has not settled, ends as the initialisation did).  No file of
    the engine is written and its entry point is not called. *)
Theorem unsupported_rejected_after_initialize
    (env : Env) (evs : list Event) (file : File) (w : World) :
  DOCUMENT_TYPE_MAP env !! toLowerCase env (detectExtension env file) = None ->
  toLowerCase env (detectExtension env file) ∉ objectPrototype ->
  let r := convertDocument env evs file w in
  let i := await_initialize evs w in
  snd r = snd i
  /\ fst r = match fst i with
             | Returned _ => Thrown (UnsupportedFormat (detectExtension env file))
             | Thrown e => Thrown e
             | Suspended => Suspended
             end
  /\ files (fs (snd r)) = files (fs w)
  /\ List.filter writes_or_invokes (effects (snd r))
     = List.filter writes_or_invokes (effects w).
Proof.
  intros Hmap Hproto. cbn zeta.
  pose proof (untouched_await writes_or_invokes evs w writes_beyond_bootstrap)
    as [Hfiles Heffects].
  unfold convertDocument, bind, getDocumentType, tableLookup. rewrite Hmap.
  rewrite bool_decide_eq_false_2 by exact Hproto.
  destruct (await_initialize evs w) as [[h|e|] w1]; simpl in *; auto.
Qed.

Lemma unsupported_rejected_after_initialize_witness :
  fst (convertDocument exampleEnv bootstrapOk (mkFile (js "a.xyz") [] (ReadResolves [1])) fresh)
  = Thrown (UnsupportedFormat (js "xyz"))
  /\ List.filter writes_or_invokes
       (effects (snd (convertDocument exampleEnv bootstrapOk
                        (mkFile (js "a.xyz") [] (ReadResolves [1])) fresh)))
     = [].
Proof.
  assert (Hmap : DOCUMENT_TYPE_MAP exampleEnv
                   !! toLowerCase exampleEnv
                        (detectExtension exampleEnv (mkFile (js "a.xyz") [] (ReadResolves [1])))
                 = None) by (vm_compute; reflexivity).
  assert (Hproto : toLowerCase exampleEnv
                      (detectExtension exampleEnv
                         (mkFile (js "a.xyz") [] (ReadResolves [1])))
                    ∉ objectPrototype).
  { apply (bool_decide_eq_false_1 (_ ∈ objectPrototype)). vm_compute. reflexivity. }
  destruct (unsupported_rejected_after_initialize exampleEnv bootstrapOk
              (mkFile (js "a.xyz") [] (ReadResolves [1])) fresh Hmap Hproto)
    as (_ & H1 & _ & H2).
  split; [rewrite H1; vm_compute; reflexivity | exact H2].
Defined.

(** C5 (as stated) fails: on a fresh converter a request with an extension
    that the table does not know bootstraps the engine (the script is
    loaded, the runtime awaited and the working directories created) before
    the unsupported-format error is thrown. *)
Lemma unsupported_still_initializes :
  let r := convertDocument exampleEnv bootstrapOk
             (mkFile (js "a.xyz") [] (ReadResolves [1])) fresh in
  DOCUMENT_TYPE_MAP exampleEnv !! asciiLower (js "xyz") = None
  /\ fst r = Thrown (UnsupportedFormat (js "xyz"))
  /\ List.filter bootstraps (effects (snd r))
     = EScriptOnLoad :: EAwaitRuntime :: List.map EMkdir WORKING_DIRS
  /\ isReady (snd r) = true
  /\ dirs (fs (snd r)) = WORKING_DIRS.
Proof. vm_compute. repeat split. Qed.

(** The slip that the amended C5 leaves out.  The table is read as a plain
    object and the value read is only tested for truth, so the name of a
    property of [Object.prototype] passes for a supported extension: for the
    file [a.constructor] the input and the parameters are written, the
    engine is called, and the result carries the inherited property as its
    type. *)
Lemma inherited_name_is_converted :
  let r := convertDocument exampleEnv bootstrapOk
             (mkFile (js "a.constructor") [] (ReadResolves [1])) fresh in
  DOCUMENT_TYPE_MAP exampleEnv !! asciiLower (js "constructor") = None
  /\ (exists x, fst r = Returned x /\ type x = Inherited (js "constructor"))
  /\ List.filter writes_or_invokes (effects (snd r))
     = [EWriteFile (js "/working/a.constructor");
        EWriteFile (js "/working/params.xml");
        ECcall (js "/working/params.xml")].
Proof.
  split; [vm_compute; reflexivity|].
  split; [eexists; split; vm_compute; reflexivity | vm_compute; reflexivity].
Qed.

(** C9: a request whose detected extension is [csv] and whose content, as
    [arrayBuffer()] yields it, is empty never returns a result, leaves the world as the initialisation
    left it, and neither loads nor calls the spreadsheet library nor calls
    the entry point of the engine.  Once the engine is initialised it throws
    at once: 'CSV file is empty' inside the wrapper of the outer catch (or
    the unsupported-format error when the table has no entry for csv). *)
Theorem empty_csv_fails_fast
    (env : Env) (evs : list Event) (file : File) (w : World) :
  toLowerCase env (detectExtension env file) = js "csv" ->
  arrayBuffer file = ReadResolves [] ->
  let r := convertDocument env evs file w in
  let i := await_initialize evs w in
  snd r = snd i
  /\ fst r = match fst i with
             | Returned _ =>
                 match DOCUMENT_TYPE_MAP env !! js "csv" with
                 | Some _ => Thrown (DocumentConversionFailed CsvEmpty)
                 | None => Thrown (UnsupportedFormat (detectExtension env file))
                 end
             | Thrown e => Thrown e
             | Suspended => Suspended
             end
  /\ (forall a, fst r <> Returned a)
  /\ windowXLSX (snd r) = windowXLSX (snd i)
  /\ List.filter xlsx_or_invokes (effects (snd r))
     = List.filter xlsx_or_invokes (effects w).
Proof.
  intros Hcsv Hempty. cbn zeta.
  pose proof (untouched_await xlsx_or_invokes evs w xlsx_beyond_bootstrap)
    as [_ Heffects].
  unfold convertDocument, bind, getDocumentType, tableLookup, catch, readBytes.
  rewrite Hcsv, Hempty.
  destruct (await_initialize evs w) as [[h|e|] w1]; simpl in *.
  - destruct (DOCUMENT_TYPE_MAP env !! js "csv") as [t|]; simpl;
      rewrite ?bool_decide_eq_true_2 by reflexivity; simpl;
      repeat split; auto; discriminate.
  - repeat split; auto; discriminate.
  - repeat split; auto; discriminate.
Qed.

Lemma empty_csv_fails_fast_witness :
  fst (convertDocument exampleEnv bootstrapOk (mkFile (js "empty.csv") [] (ReadResolves [])) fresh)
  = Thrown (DocumentConversionFailed CsvEmpty).
Proof.
  assert (Hcsv : toLowerCase exampleEnv
                   (detectExtension exampleEnv (mkFile (js "empty.csv") [] (ReadResolves [])))
                 = js "csv") by (vm_compute; reflexivity).
  destruct (empty_csv_fails_fast exampleEnv bootstrapOk
              (mkFile (js "empty.csv") [] (ReadResolves [])) fresh Hcsv eq_refl)
    as (_ & H & _).
  rewrite H. vm_compute. reflexivity.
Defined.

Lemma hoare_ret {A} (P : World -> Prop) (a : A) (Q : A -> World -> Prop) :
  (forall w, P w -> Q a w) -> hoare P (ret a) Q.
Proof. intros H w HP b w' E. inversion E; subst. auto. Qed.


Lemma hoare_bind {A B} (P : World -> Prop) (m : M A) (k : A -> M B)
    (R : A -> World -> Prop) (Q : B -> World -> Prop) :
  hoare P m R -> (forall a, hoare (R a) (k a) Q) -> hoare P (bind m k) Q.
Proof.
  intros Hm Hk w HP b w' E. unfold bind in E.
  destruct (m w) as [[a|e|] w1] eqn:Em; try discriminate E.
  exact (Hk a w1 (Hm w HP a w1 Em) b w' E).
Qed.


Lemma hoare_weaken {A} (P P' : World -> Prop) (m : M A) (Q : A -> World -> Prop) :
  (forall w, P' w -> P w) -> hoare P m Q -> hoare P' m Q.
Proof. intros HPP Hm w HP. apply Hm, HPP, HP. Qed.

Lemma hoare_preserved {A} (I : World -> Prop) (m : M A) :
  preserves I m -> hoare I m (fun _ w => I w).
Proof.
  intros Hm w HI a w' E. specialize (Hm w HI). rewrite E in Hm. exact Hm.
Qed.

Lemma preserves_ret {A} I (a : A) : preserves I (ret a).
Proof. intros w H. exact H. Qed.

Lemma preserves_throw {A} I e : preserves I (@throw A e).
Proof. intros w H. exact H. Qed.

Lemma preserves_bind {A B} I (m : M A) (k : A -> M B) :
  preserves I m -> (forall a, preserves I (k a)) -> preserves I (bind m k).
Proof.
  intros Hm Hk w H. unfold bind. specialize (Hm w H).
  destruct (m w) as [[a|e|] w1]; simpl in *; [apply Hk|..]; exact Hm.
Qed.

Lemma preserves_catch {A} I (m : M A) (h : Error -> M A) :
  preserves I m -> (forall e, preserves I (h e)) -> preserves I (catch m h).
Proof.
  intros Hm Hh w H. unfold catch. specialize (Hm w H).
  destruct (m w) as [[a|e|] w1]; simpl in *; [|apply Hh|]; exact Hm.
Qed.

Lemma preserves_mapM {A B} I (f : A -> M B) l :
  (forall a, preserves I (f a)) -> preserves I (mapM f l).
Proof.
  intros Hf. induction l as [|a l IH]; simpl; [apply preserves_ret|].
  apply preserves_bind; [apply Hf|]. intros b.
  apply preserves_bind; [exact IH|]. intros bs. apply preserves_ret.
Qed.

Lemma logged_emit e e' w : logged e w -> logged e (emit e' w).
Proof. unfold logged. simpl. intros H. apply elem_of_app. left. exact H. Qed.

Section Logged.

Variable env : Env.
Variable e : Effect.

Lemma preserves_fsWriteFile p d : preserves (logged e) (fsWriteFile p d).
Proof.
  intros w H. unfold fsWriteFile. destruct (x2tModule w); [|exact H].
  apply (logged_emit e (EWriteFile p) w H).
Qed.

Lemma preserves_fsReadFile p : preserves (logged e) (fsReadFile p).
Proof.
  intros w H. unfold fsReadFile. destruct (x2tModule w); [|exact H].
  destruct (files (fs (emit (EReadFile p) w)) !! p);
    apply (logged_emit e (EReadFile p) w H).
Qed.

Lemma preserves_fsReaddir p : preserves (logged e) (fsReaddir p).
Proof.
  intros w H. unfold fsReaddir.
  destruct (bool_decide _); apply (logged_emit e (EReaddir p) w H).
Qed.

Lemma preserves_callCreateObjectURL d :
  preserves (logged e) (callCreateObjectURL env d).
Proof.
  intros w H. unfold callCreateObjectURL.
  destruct (createObjectURL env d); apply (logged_emit e ECreateObjectURL w H).
Qed.

Lemma preserves_executeConversion p :
  preserves (logged e) (executeConversion env p).
Proof.
  intros w H. unfold executeConversion. destruct (x2tModule w); [|exact H].
  destruct (main1 env (fs (emit (ECcall p) w)) p) as [result f].
  pose proof (logged_emit e (ECcall p) w H) as H1.
  destruct (Z.eqb result 0); [exact H1|].
  apply preserves_bind; [| intros; apply preserves_throw | exact H1].
  apply preserves_catch; [|intros; apply preserves_ret].
  apply preserves_bind; [apply preserves_fsReadFile | intros; apply preserves_ret].
Qed.

Lemma preserves_readMediaFiles : preserves (logged e) (readMediaFiles env).
Proof.
  intros w H. unfold readMediaFiles. destruct (x2tModule w); [|exact H].
  revert w H. apply preserves_catch; [|intros; apply preserves_ret].
  apply preserves_bind; [apply preserves_fsReaddir|]. intros entries.
  apply preserves_bind; [|intros; apply preserves_ret].
  apply preserves_mapM. intros file.
  apply preserves_catch; [|intros; apply preserves_ret].
  apply preserves_bind; [apply preserves_fsReadFile|]. intros fileData.
  apply preserves_bind; [apply preserves_callCreateObjectURL|].
  intros; apply preserves_ret.
Qed.

End Logged.

(** What [convertWith] returns carries the name and the type it was given,
    and the input was written under the sanitised name it was given. *)
Lemma hoare_convertWith env sanitizedName data resultName documentType :
  hoare (fun _ => True)
    (convertWith env sanitizedName data resultName documentType)
    (fun r w =>
       fileName r = resultName /\ type r = documentType
       /\ logged (EWriteFile (js "/working/" ++ sanitizedName)) w).
Proof.
  unfold convertWith.
  set (I := logged (EWriteFile (js "/working/" ++ sanitizedName))).
  apply hoare_bind with (R := fun _ w => I w).
  { intros w _ a w' E. unfold fsWriteFile in E.
    destruct (x2tModule w); inversion E; subst.
    unfold I, logged. simpl. apply elem_of_app. right. left. }
  intros _. apply hoare_bind with (R := fun _ w => I w).
  { apply hoare_preserved, preserves_fsWriteFile. }
  intros _. apply hoare_bind with (R := fun _ w => I w).
  { apply hoare_preserved, preserves_executeConversion. }
  intros _. apply hoare_bind with (R := fun _ w => I w).
  { apply hoare_preserved, preserves_fsReadFile. }
  intros result. apply hoare_bind with (R := fun _ w => I w).
  { apply hoare_preserved, preserves_readMediaFiles. }
  intros media. apply hoare_ret. intros w H. repeat split. exact H.
Qed.






End PipelineFacts.

(** ** The editor lifecycle queue *)

Module EditorQueueFacts.

Import EditorQueue.

(** C3 (the code departs from it): three operations are enqueued one after
    the other and every one of them returns, with no timeout.  Each call read
    the queue before any of them replaced it, so all three wait on the
    initial, fulfilled promise and start one after the other: the second
    starts before the first has finished, and the third before the second
    has.  The same happens to two calls made while one operation runs: both
    wait on its promise and start together when it settles. *)
Theorem queue_starts_operations_together :
  let q := qrun [Enqueue; Enqueue; Enqueue;
                 QueueSettled 0; QueueSettled 1; QueueSettled 2;
                 OperationReturns 0; OperationReturns 1; OperationReturns 2]
             initial in
  let q' := qrun [Enqueue; QueueSettled 0; Enqueue; Enqueue;
                  OperationReturns 0; QueueSettled 1; QueueSettled 2;
                  OperationReturns 1; OperationReturns 2]
              initial in
  history q = [Started 0; Started 1; Started 2;
               Finished 0; Finished 1; Finished 2]
  /\ calls q = [Completed; Completed; Completed]
  /\ serial None (history q) = false
  /\ history q' = [Started 0; Finished 0; Started 1; Started 2;
                   Finished 1; Finished 2]
  /\ calls q' = [Completed; Completed; Completed]
  /\ serial None (history q') = false.
Proof. vm_compute. repeat split. Qed.

(** C4 (the code departs from it): the first operation throws an error other
    than the queue timeout.  Its promise stays the queue, so the race of every
    later call is rejected with that error and the call throws it again
    without replacing the queue: the later operations never start, and their
    callers receive the error of the first. *)
Theorem queue_rethrows_earlier_failure :
  let boom := JsError (js "boom") in
  let q := qrun [Enqueue; QueueSettled 0; OperationThrows 0 boom;
                 Enqueue; QueueSettled 1; Enqueue; QueueSettled 2]
             initial in
  isQueueTimeout boom = false
  /\ calls q = [Failed boom; Failed boom; Failed boom]
  /\ history q = [Started 0; Finished 0]
  /\ editorOperationQueue q = 1%nat
  /\ signals q !! 1%nat = Some (QRejected boom).
Proof. vm_compute. repeat split. Qed.

(** A queue whose promise is rejected with another error than the timeout
    stays so: the next call fails with that error and nothing else changes. *)
Lemma queue_stays_poisoned (q : Queue) (e : Exn) :
  signals q !! editorOperationQueue q = Some (QRejected e) ->
  isQueueTimeout e = false ->
  let q' := qrun [Enqueue; QueueSettled (length (calls q))] q in
  calls q' = calls q ++ [Failed e]
  /\ history q' = history q
  /\ signals q' = signals q
  /\ editorOperationQueue q' = editorOperationQueue q.
Proof.
  intros Hsig Hto. simpl.
  rewrite lookup_app_r, Nat.sub_diag by reflexivity. simpl.
  rewrite Hsig, Hto. simpl. repeat split.
  rewrite insert_app_r_alt, Nat.sub_diag by reflexivity. reflexivity.
Qed.

(** Whenever the promise of the queue is fulfilled, two calls made one after
    the other, before either resumes, both start their operations. *)
Lemma back_to_back_calls_both_start (q : Queue) :
  signals q !! editorOperationQueue q = Some QFulfilled ->
  let i := length (calls q) in
  let q' := qrun [Enqueue; Enqueue; QueueSettled i; QueueSettled (S i)] q in
  history q' = history q ++ [Started i; Started (S i)]
  /\ calls q' = calls q ++ [Running (length (signals q));
                            Running (S (length (signals q)))].
Proof.
  intros Hsig. pose proof (lookup_lt_Some _ _ _ Hsig) as Hlt. simpl.
  rewrite <- app_assoc. simpl.
  rewrite lookup_app_r, Nat.sub_diag by reflexivity. simpl.
  rewrite Hsig. unfold start at 2. simpl.
  rewrite insert_app_r_alt, Nat.sub_diag by reflexivity. simpl.
  rewrite lookup_app_r by lia.
  replace (S (length (calls q)) - length (calls q))%nat with 1%nat by lia.
  simpl. rewrite lookup_app_l, Hsig by exact Hlt.
  unfold start. simpl. rewrite <- app_assoc. split; [reflexivity|].
  rewrite (insert_app_r_alt _ _ (length (calls q))) by lia.
  rewrite (insert_app_r_alt _ _ (S (length (calls q)))) by lia.
  rewrite Nat.sub_diag.
  replace (S (length (calls q)) - length (calls q))%nat with 1%nat by lia.
  rewrite length_app. simpl.
  replace (length (signals q) + 1)%nat with (S (length (signals q))) by lia.
  reflexivity.
Qed.

(** A call made while the operation that owns the queue is running does
    wait: until that operation settles, the settling of the race is no step
    of the call. *)
Lemma call_waits_for_pending_queue (q : Queue) :
  signals q !! editorOperationQueue q = Some QPending ->
  let q1 := qstep Enqueue q in
  qstep (QueueSettled (length (calls q))) q1 = q1.
Proof.
  intros Hsig. simpl.
  rewrite lookup_app_r, Nat.sub_diag by reflexivity. simpl.
  rewrite Hsig. reflexivity.
Qed.

End EditorQueueFacts.

(** ** The session manager *)

Module EditorSessionFacts.

Import EditorSession.

(** C7 (as amended): the settling delays that precede the construction of the
    new session are 150 when no session is live; 400 when a session is live
    and the requested document is a presentation; and 250 when a session of
    a document that is not a presentation is live and the requested document
    is not a presentation either.  With a live session the delay is applied
    twice, or once when [destroyEditor] throws. *)
Theorem settling_delay_tiers
    (widget : Widget) (cfg : Config) (w : Window) (live : DocEditor) :
  (editor w = None -> settlingDelays widget cfg w = [150])
  /\ (editor w = Some live -> isPresentation (fileType cfg) = true ->
      settlingDelays widget cfg w
      = if destroyThrows widget then [400] else [400; 400])
  /\ (editor w = Some live ->
      isPresentation (fileType (config live)) = false ->
      isPresentation (fileType cfg) = false ->
      settlingDelays widget cfg w
      = if destroyThrows widget then [250] else [250; 250]).
Proof.
  unfold settlingDelays, operation. repeat split.
  - intros ->. simpl.
    destruct (iframe w), (constructorThrows widget); reflexivity.
  - intros -> ->. simpl.
    destruct (destroyThrows widget), (iframe w), (constructorThrows widget);
      reflexivity.
  - intros -> _ ->. simpl.
    destruct (destroyThrows widget), (iframe w), (constructorThrows widget);
      reflexivity.
Qed.

Lemma settling_delay_tiers_witness :
  settlingDelays calm pptx empty = [150]
  /\ settlingDelays calm pptx (showing pptx) = [400; 400]
  /\ settlingDelays calm docx (showing docx) = [250; 250].
Proof.
  split; [|split].
  - apply (settling_delay_tiers calm pptx empty (mkEditor docx)). reflexivity.
  - apply (settling_delay_tiers calm pptx (showing pptx) (mkEditor pptx));
      reflexivity.
  - apply (settling_delay_tiers calm docx (showing docx) (mkEditor docx));
      reflexivity.
Defined.

(** C7 (as stated) fails: the tier follows the type of the requested
    document, not the type of the live session.  A live session of a
    document that is not a presentation, replaced by a presentation, gets 400
    and not the intermediate 250; a live presentation replaced by a document
    that is not one gets 250. *)
Lemma tier_follows_requested_type :
  isPresentation (fileType (config (mkEditor docx))) = false
  /\ settlingDelays calm pptx (showing docx) = [400; 400]
  /\ isPresentation (fileType (config (mkEditor pptx))) = true
  /\ settlingDelays calm docx (showing pptx) = [250; 250].
Proof. repeat split. Qed.

End EditorSessionFacts.

(** ** Engine bootstrap: invariants of the converter *)

Module EngineInvariants.

Import JS Sanitize Engine EngineFacts.

Lemma settle_fields p v w :
  x2tModule (settle p v w) = x2tModule w
  /\ isReady (settle p v w) = isReady w
  /\ initPromise (settle p v w) = initPromise w
  /\ hasScriptLoaded (settle p v w) = hasScriptLoaded w
  /\ onRuntimeInitialized (settle p v w) = onRuntimeInitialized w
  /\ fs (settle p v w) = fs w
  /\ effects (settle p v w) = effects w
  /\ length (promises (settle p v w)) = length (promises w).
Proof.
  unfold settle. destruct (promises w !! p) as [[]|]; simpl;
    rewrite ?length_insert; repeat split; reflexivity.
Qed.

Lemma settle_lookup_ne p v w q :
  q <> p -> promises (settle p v w) !! q = promises w !! q.
Proof.
  intros Hne. unfold settle.
  destruct (promises w !! p) as [[]|]; simpl; try reflexivity;
    apply list_lookup_insert_ne; congruence.
Qed.

Lemma settle_lookup_eq p v w s :
  promises w !! p = Some s ->
  promises (settle p v w) !! p = Some (if isPending s then v else s).
Proof.
  intros Hs. pose proof (lookup_lt_Some _ _ _ Hs) as Hlt. unfold settle.
  rewrite Hs. destruct s; simpl; try exact Hs;
    apply list_lookup_insert_eq; exact Hlt.
Qed.

Lemma mkdirStep_spec w d :
  x2tModule (mkdirStep w d) = x2tModule w
  /\ isReady (mkdirStep w d) = isReady w
  /\ initPromise (mkdirStep w d) = initPromise w
  /\ hasScriptLoaded (mkdirStep w d) = hasScriptLoaded w
  /\ promises (mkdirStep w d) = promises w
  /\ onRuntimeInitialized (mkdirStep w d) = onRuntimeInitialized w
  /\ files (fs (mkdirStep w d)) = files (fs w)
  /\ (forall d', d' ∈ dirs (fs w) -> d' ∈ dirs (fs (mkdirStep w d)))
  /\ d ∈ dirs (fs (mkdirStep w d)).
Proof.
  unfold mkdirStep, mkdir. simpl.
  destruct (bool_decide (d ∈ dirs (fs w))) eqn:Hd; simpl.
  - apply bool_decide_eq_true in Hd. repeat split; auto.
  - repeat split; auto.
    + intros d' H. apply elem_of_app. left. exact H.
    + apply elem_of_app. right. left.
Qed.

Lemma mkdirs_spec ds w :
  let w' := foldl mkdirStep w ds in
  x2tModule w' = x2tModule w
  /\ isReady w' = isReady w
  /\ initPromise w' = initPromise w
  /\ hasScriptLoaded w' = hasScriptLoaded w
  /\ promises w' = promises w
  /\ onRuntimeInitialized w' = onRuntimeInitialized w
  /\ files (fs w') = files (fs w)
  /\ (forall d', d' ∈ dirs (fs w) -> d' ∈ dirs (fs w'))
  /\ Forall (fun d => d ∈ dirs (fs w')) ds.
Proof.
  revert w. induction ds as [|d ds IH]; intros w; simpl.
  - repeat split; auto.
  - destruct (mkdirStep_spec w d) as (A1 & A2 & A3 & A4 & A5 & A6 & A7 & A8 & A9).
    destruct (IH (mkdirStep w d)) as (B1 & B2 & B3 & B4 & B5 & B6 & B7 & B8 & B9).
    repeat split; try congruence; auto.
Qed.

Lemma createWorkingDirectories_spec w :
  let w' := createWorkingDirectories w in
  x2tModule w' = x2tModule w
  /\ isReady w' = isReady w
  /\ initPromise w' = initPromise w
  /\ hasScriptLoaded w' = hasScriptLoaded w
  /\ promises w' = promises w
  /\ onRuntimeInitialized w' = onRuntimeInitialized w
  /\ files (fs w') = files (fs w)
  /\ (forall d', d' ∈ dirs (fs w) -> d' ∈ dirs (fs w'))
  /\ Forall (fun d => d ∈ dirs (fs w')) WORKING_DIRS.
Proof. exact (mkdirs_spec WORKING_DIRS w). Qed.

Lemma coherent_fresh : coherent fresh.
Proof.
  split; simpl; discriminate.
Qed.

Lemma coherent_initialize w : coherent w -> coherent (snd (initialize w)).
Proof.
  intros Hc. unfold initialize.
  destruct (isReady w) eqn:Hr, (x2tModule w) as [h|] eqn:Hm; try exact Hc.
  - destruct (coh_ready w Hc Hr) as (q & h' & _ & H). congruence.
  - pose proof (coh_module w Hc h Hm). congruence.
  - destruct (initPromise w) as [p|] eqn:Hp; [exact Hc|].
    destruct Hc as [K1 K2 K3 K4 K5 K6].
    assert (Hnone : onRuntimeInitialized w = None).
    { destruct (onRuntimeInitialized w) as [[q h']|] eqn:Hh; [|reflexivity].
      destruct (K3 q h' eq_refl) as [H _]. congruence. }
    assert (Hold : forall q s, promises w !! q = Some s ->
                     isPending s = false /\ forall h, s <> Resolved h).
    { intros q s Hq. split.
      - destruct (isPending s) eqn:Hs; [|reflexivity].
        specialize (K2 q s Hq Hs). congruence.
      - intros h' ->. destruct (K4 q h' Hq). congruence. }
    assert (Hnew : forall f q s,
               (promises w ++ [AwaitingScript f]) !! q = Some s ->
               (isPending s = true \/ exists h, s = Resolved h) ->
               q = length (promises w) /\ s = AwaitingScript f).
    { intros f q s Hq Hs. apply lookup_app_Some in Hq as [Hq|[Hge Hq]].
      - destruct (Hold q s Hq) as [H1 H2]. destruct Hs as [Hs|[h' ->]];
          [congruence | destruct (H2 h' eq_refl)].
      - destruct (q - length (promises w))%nat eqn:Hd; simpl in Hq;
          [|rewrite lookup_nil in Hq; discriminate Hq].
        inversion Hq; subst. split; [lia | reflexivity]. }
    unfold doInitialize, loadScript.
    destruct (hasScriptLoaded w); simpl; split; simpl;
      rewrite ?length_app; simpl; rewrite ?Hr, ?Hm, ?Hnone; try discriminate.
    all: try (intros p [= <-]; lia).
    all: try (intros q s Hq Hs; f_equal;
              destruct (Hnew _ q s Hq (or_introl Hs)) as [-> _]; reflexivity).
    all: try (intros q h' Hq;
              destruct (Hnew _ q _ Hq (or_intror (ex_intro _ h' eq_refl)))
                as [_ H]; discriminate H).
Qed.

Lemma awaiting_script_facts w p f :
  coherent w -> promises w !! p = Some (AwaitingScript f) ->
  initPromise w = Some p
  /\ onRuntimeInitialized w = None
  /\ isReady w = false
  /\ x2tModule w = None
  /\ (forall q h, promises w !! q <> Some (Resolved h))
  /\ (forall q s, promises w !! q = Some s -> isPending s = true -> q = p).
Proof.
  intros Hc Hp. pose proof (coh_pending w Hc p _ Hp eq_refl) as Hinit.
  assert (Hnone : onRuntimeInitialized w = None).
  { destruct (onRuntimeInitialized w) as [[q h]|] eqn:Hh; [|reflexivity].
    destruct (coh_handler w Hc q h Hh) as (Hq & s & Hs & Hns & _).
    assert (q = p) by congruence. subst q.
    rewrite Hp in Hs. inversion Hs; subst. destruct (Hns f eq_refl). }
  assert (Hready : isReady w = false).
  { destruct (isReady w) eqn:Hr; [|reflexivity].
    destruct (coh_ready w Hc Hr) as (q & h & H & _). congruence. }
  repeat split; auto.
  - destruct (x2tModule w) as [h|] eqn:Hm; [|reflexivity].
    pose proof (coh_module w Hc h Hm). congruence.
  - intros q h Hq. destruct (coh_resolved w Hc q h Hq). congruence.
  - intros q s Hq Hs. pose proof (coh_pending w Hc q s Hq Hs). congruence.
Qed.

Lemma coherent_reject w p e : coherent w -> coherent (settle p (Rejected e) w).
Proof.
  intros Hc. destruct (settle_fields p (Rejected e) w)
    as (F1 & F2 & F3 & F4 & F5 & F6 & F7 & F8).
  assert (Hlook : forall q s,
             promises (settle p (Rejected e) w) !! q = Some s ->
             promises w !! q = Some s
             \/ (q = p /\ s = Rejected e)).
  { intros q s Hq. destruct (decide (q = p)) as [->|Hne].
    - destruct (promises w !! p) as [s0|] eqn:Hp.
      + rewrite (settle_lookup_eq p _ w s0 Hp) in Hq.
        destruct (isPending s0); inversion Hq; subst;
          [right; split; reflexivity | left; reflexivity].
      + unfold settle in Hq. rewrite Hp in Hq. congruence.
    - rewrite settle_lookup_ne in Hq by exact Hne. auto. }
  split; rewrite ?F1, ?F2, ?F3, ?F5, ?F6, ?F8.
  - apply (coh_bound w Hc).
  - intros q s Hq Hs. destruct (Hlook q s Hq) as [H|[_ ->]]; [|discriminate Hs].
    apply (coh_pending w Hc q s H Hs).
  - intros q h Hh. destruct (coh_handler w Hc q h Hh) as (Hi & s & Hs & Hns & Hr).
    split; [exact Hi|].
    destruct (decide (q = p)) as [->|Hne].
    + rewrite (settle_lookup_eq p _ w s Hs).
      destruct (isPending s) eqn:Hpen.
      * eexists. split; [reflexivity|]. split; intros; discriminate.
      * exists s. auto.
    + exists s. rewrite settle_lookup_ne by exact Hne. auto.
  - intros q h Hq. destruct (Hlook q _ Hq) as [H|[_ H]]; [|discriminate H].
    apply (coh_resolved w Hc q h H).
  - apply (coh_ready w Hc).
  - apply (coh_module w Hc).
Qed.

Lemma coherent_same w w' :
  coherent w ->
  initPromise w' = initPromise w -> promises w' = promises w ->
  onRuntimeInitialized w' = onRuntimeInitialized w ->
  isReady w' = isReady w -> x2tModule w' = x2tModule w ->
  coherent w'.
Proof.
  intros [K1 K2 K3 K4 K5 K6] E1 E2 E3 E4 E5.
  split; rewrite ?E1, ?E2, ?E3, ?E4, ?E5; assumption.
Qed.

Lemma coherent_loadScriptFailed w p f :
  coherent w -> promises w !! p = Some (AwaitingScript f) ->
  coherent (loadScriptFailed p w).
Proof.
  intros Hc Hp.
  destruct (awaiting_script_facts w p f Hc Hp) as (_ & Hh & Hr & Hm & Hres & Hone).
  pose proof (lookup_lt_Some _ _ _ Hp) as Hlt.
  unfold loadScriptFailed, settle. simpl. rewrite Hp.
  split; simpl; rewrite ?Hh, ?Hr, ?Hm; try discriminate.
  - intros q s Hq Hs. exfalso. destruct (decide (q = p)) as [->|Hne].
    + rewrite list_lookup_insert_eq in Hq by exact Hlt.
      inversion Hq; subst. discriminate Hs.
    + rewrite list_lookup_insert_ne in Hq by congruence.
      apply Hne. exact (Hone q s Hq Hs).
  - intros q h Hq. exfalso. destruct (decide (q = p)) as [->|Hne].
    + rewrite list_lookup_insert_eq in Hq by exact Hlt. discriminate Hq.
    + rewrite list_lookup_insert_ne in Hq by congruence. exact (Hres q h Hq).
Qed.

Lemma coherent_awaitRuntime w p f :
  coherent w -> promises w !! p = Some (AwaitingScript f) ->
  coherent (awaitRuntime p w).
Proof.
  intros Hc Hp. unfold awaitRuntime.
  destruct (windowModule w) as [x|]; [|apply coherent_reject; exact Hc].
  destruct (awaiting_script_facts w p f Hc Hp) as (Hi & Hh & Hr & Hm & Hres & Hone).
  pose proof (lookup_lt_Some _ _ _ Hp) as Hlt.
  split; simpl; rewrite ?Hr, ?Hm, ?length_insert; try discriminate.
  - apply (coh_bound w Hc).
  - intros q s Hq Hs. destruct (decide (q = p)) as [->|Hne]; [exact Hi|].
    rewrite list_lookup_insert_ne in Hq by congruence.
    destruct (Hne (Hone q s Hq Hs)).
  - intros q h [= <- <-]. split; [exact Hi|].
    exists AwaitingRuntime. rewrite list_lookup_insert_eq by exact Hlt.
    split; [reflexivity|]. split; intros; discriminate.
  - intros q h Hq. exfalso. destruct (decide (q = p)) as [->|Hne].
    + rewrite list_lookup_insert_eq in Hq by exact Hlt. discriminate Hq.
    + rewrite list_lookup_insert_ne in Hq by congruence. exact (Hres q h Hq).
Qed.

Lemma coherent_ready_settle w w0 p x :
  coherent w -> onRuntimeInitialized w = Some (p, x) ->
  initPromise w0 = initPromise w ->
  promises w0 = promises w ->
  onRuntimeInitialized w0 = onRuntimeInitialized w ->
  coherent (settle p (Resolved x) (set_ready x w0)).
Proof.
  intros Hc Hh C3 C5 C6.
  destruct (coh_handler w Hc p x Hh) as (Hi & s & Hs & Hns & Hres).
  set (w1 := set_ready x w0).
  destruct (settle_fields p (Resolved x) w1) as (F1 & F2 & F3 & F4 & F5 & F6 & F7 & F8).
  assert (Hs1 : promises w1 !! p = Some s) by (simpl; rewrite C5; exact Hs).
  pose proof (settle_lookup_eq p (Resolved x) w1 s Hs1) as Hp'.
  split; rewrite ?F1, ?F2, ?F3, ?F5, ?F6, ?F8;
    cbn [w1 set_ready x2tModule isReady initPromise promises onRuntimeInitialized fs];
    rewrite ?C3, ?C5, ?C6.
  - apply (coh_bound w Hc).
  - intros q s' Hq Hpen. destruct (decide (q = p)) as [->|Hne]; [exact Hi|].
    rewrite settle_lookup_ne in Hq by exact Hne. simpl in Hq. rewrite C5 in Hq.
    apply (coh_pending w Hc q s' Hq Hpen).
  - rewrite Hh. intros q h [= <- <-]. split; [exact Hi|].
    eexists. split; [exact Hp'|].
    destruct (isPending s) eqn:Hpen.
    + split; [intros; discriminate | intros h' [= ->]; reflexivity].
    + split; assumption.
  - intros q h Hq. split; [|reflexivity]. destruct (decide (q = p)) as [->|Hne].
    + rewrite Hp' in Hq. rewrite Hh. destruct (isPending s).
      * inversion Hq; subst. reflexivity.
      * inversion Hq; subst. rewrite (Hres h eq_refl). reflexivity.
    + rewrite settle_lookup_ne in Hq by exact Hne. simpl in Hq. rewrite C5 in Hq.
      apply (coh_resolved w Hc q h Hq).
  - intros _. exists p, x. split; [exact Hh | reflexivity].
  - reflexivity.
Qed.

Lemma coherent_runtimeInitialized w p x :
  coherent w -> onRuntimeInitialized w = Some (p, x) ->
  coherent (runtimeInitialized p x w).
Proof.
  intros Hc Hh. unfold runtimeInitialized. cbn zeta.
  destruct (createWorkingDirectories_spec
              (set_timers (List.filter (fun q => negb (Nat.eqb q p)) (timers w)) w))
    as (_ & _ & C3 & _ & C5 & C6 & _).
  apply (coherent_ready_settle w _ p x Hc Hh); assumption.
Qed.

Lemma coherent_step ev w : coherent w -> coherent (snd (step ev w)).
Proof.
  intros Hc. destruct ev as [|p m|p|p| |p]; cbn [step].
  - pose proof (coherent_initialize w Hc) as H. destruct (initialize w). exact H.
  - destruct (promises w !! p) as [[[]| | |]|] eqn:Hp; simpl; try exact Hc.
    apply (coherent_awaitRuntime _ p true); [|exact Hp].
    apply (coherent_same w); auto.
  - destruct (promises w !! p) as [[[]| | |]|] eqn:Hp; simpl; try exact Hc.
    apply (coherent_loadScriptFailed w p true Hc Hp).
  - destruct (promises w !! p) as [[[]| | |]|] eqn:Hp; simpl; try exact Hc.
    apply (coherent_awaitRuntime w p false Hc Hp).
  - destruct (onRuntimeInitialized w) as [[p x]|] eqn:Hh; cbn [snd]; [|exact Hc].
    apply (coherent_runtimeInitialized w p x Hc Hh).
  - destruct (bool_decide _); simpl; [|exact Hc].
    unfold initTimeout. simpl.
    assert (Hc' : coherent (set_timers
                              (List.filter (fun q => negb (Nat.eqb q p)) (timers w)) w))
      by (apply (coherent_same w); auto).
    destruct (isReady w); [exact Hc' | apply coherent_reject; exact Hc'].
Qed.

Lemma coherent_run evs w : coherent w -> coherent (fst (run evs w)).
Proof.
  revert w. induction evs as [|ev evs IH]; intros w Hc; [exact Hc|].
  rewrite run_cons. cbn [fst]. apply IH, coherent_step, Hc.
Qed.

Lemma reachable_coherent w : reachable w -> coherent w.
Proof. intros [evs ->]. apply coherent_run, coherent_fresh. Qed.

Lemma mkdirs_effects ds w :
  effects (foldl mkdirStep w ds) = effects w ++ List.map EMkdir ds.
Proof.
  revert w. induction ds as [|d ds IH]; intros w; simpl.
  - symmetry. apply app_nil_r.
  - rewrite IH. unfold mkdirStep, mkdir. simpl.
    destruct (bool_decide _); simpl; rewrite <- app_assoc; reflexivity.
Qed.

Lemma mkdirs_existing ds w :
  Forall (fun d => d ∈ dirs (fs w)) ds ->
  dirs (fs (foldl mkdirStep w ds)) = dirs (fs w).
Proof.
  revert w. induction ds as [|d ds IH]; intros w H; simpl; [reflexivity|].
  inversion H as [|? ? Hd Hds]; subst.
  assert (Hstep : dirs (fs (mkdirStep w d)) = dirs (fs w)).
  { unfold mkdirStep, mkdir. simpl.
    rewrite bool_decide_eq_true_2 by exact Hd. reflexivity. }
  rewrite IH; [exact Hstep|]. rewrite Hstep. exact Hds.
Qed.

(** X1: after [createWorkingDirectories] the four working directories exist,
    whatever was there before: a [mkdir] that throws because its directory
    exists is swallowed and the loop goes on.  Directories that existed are
    kept, no file is touched, [mkdir] is called once for each of the four
    names in order, and a second run changes no directory. *)
Theorem working_directories_tolerant (w : World) :
  let w' := createWorkingDirectories w in
  Forall (fun d => d ∈ dirs (fs w')) WORKING_DIRS
  /\ (forall d, d ∈ dirs (fs w) -> d ∈ dirs (fs w'))
  /\ files (fs w') = files (fs w)
  /\ effects w' = effects w ++ List.map EMkdir WORKING_DIRS
  /\ dirs (fs (createWorkingDirectories w')) = dirs (fs w').
Proof.
  destruct (createWorkingDirectories_spec w)
    as (_ & _ & _ & _ & _ & _ & C7 & C8 & C9).
  cbn zeta. repeat split; try assumption.
  - exact (mkdirs_effects WORKING_DIRS w).
  - exact (mkdirs_existing WORKING_DIRS _ C9).
Qed.

(** X2: in every state a converter that is never destroyed can reach, at most
    one promise of [doInitialize] is unsettled, and it is the one held in
    [initPromise]. *)
Theorem bootstrap_pending_is_unique (w : World) (q1 q2 : nat) (s1 s2 : InitPromise) :
  reachable w ->
  promises w !! q1 = Some s1 -> isPending s1 = true ->
  promises w !! q2 = Some s2 -> isPending s2 = true ->
  q1 = q2 /\ initPromise w = Some q1.
Proof.
  intros Hr H1 P1 H2 P2. apply reachable_coherent in Hr.
  pose proof (coh_pending w Hr q1 s1 H1 P1) as E1.
  pose proof (coh_pending w Hr q2 s2 H2 P2) as E2.
  split; congruence.
Qed.

Lemma bootstrap_pending_is_unique_witness :
  0%nat = 0%nat /\ initPromise fetching = Some 0%nat.
Proof.
  apply (bootstrap_pending_is_unique fetching 0 0
           (AwaitingScript true) (AwaitingScript true)).
  - exists [CallInitialize]. vm_compute. reflexivity.
  - vm_compute. reflexivity.
  - reflexivity.
  - vm_compute. reflexivity.
  - reflexivity.
Defined.

Lemma runtimeInitialized_dirs p x w :
  Forall (fun d => d ∈ dirs (fs (runtimeInitialized p x w))) WORKING_DIRS.
Proof.
  unfold runtimeInitialized. cbn zeta.
  destruct (createWorkingDirectories_spec
              (set_timers (List.filter (fun q => negb (Nat.eqb q p)) (timers w)) w))
    as (_ & _ & _ & _ & _ & _ & _ & _ & C9).
  revert C9.
  generalize (createWorkingDirectories
                (set_timers (List.filter (fun q => negb (Nat.eqb q p)) (timers w)) w)).
  intros w0 C9.
  destruct (settle_fields p (Resolved x) (set_ready x w0))
    as (_ & _ & _ & _ & _ & F6 & _).
  rewrite F6. exact C9.
Qed.

Lemma settle_keeps p v w :
  isReady (settle p v w) = isReady w /\ fs (settle p v w) = fs w.
Proof.
  destruct (settle_fields p v w) as (_ & F2 & _ & _ & _ & F6 & _). auto.
Qed.

(** Apart from the handler of the runtime, which creates the directories,
    no event of a bootstrap changes the flag or the files. *)
Lemma step_keeps_or_equips ev w :
  (isReady (snd (step ev w)) = isReady w /\ fs (snd (step ev w)) = fs w)
  \/ Forall (fun d => d ∈ dirs (fs (snd (step ev w)))) WORKING_DIRS.
Proof.
  assert (Hsettle : forall p v w0,
            isReady w0 = isReady w -> fs w0 = fs w ->
            isReady (settle p v w0) = isReady w /\ fs (settle p v w0) = fs w).
  { intros p v w0 H1 H2. destruct (settle_keeps p v w0) as [-> ->]. auto. }
  destruct ev as [|p m|p|p| |p]; cbn [step].
  - left. unfold initialize, doInitialize, loadScript.
    destruct (isReady w) eqn:Hr, (x2tModule w), (initPromise w),
      (hasScriptLoaded w);
      cbn [snd isReady fs set_initPromise set_promises emit]; rewrite ?Hr;
      split; reflexivity.
  - left. destruct (promises w !! p) as [[[]| | |]|]; cbn [snd]; auto.
    unfold awaitRuntime.
    destruct (windowModule (set_scriptLoaded m w));
      [split; reflexivity | apply Hsettle; reflexivity].
  - left. destruct (promises w !! p) as [[[]| | |]|]; cbn [snd]; auto.
    apply Hsettle; reflexivity.
  - left. destruct (promises w !! p) as [[[]| | |]|]; cbn [snd]; auto.
    unfold awaitRuntime. destruct (windowModule w);
      [split; reflexivity | apply Hsettle; reflexivity].
  - destruct (onRuntimeInitialized w) as [[p x]|]; cbn [snd]; [|left; auto].
    right. apply runtimeInitialized_dirs.
  - left. destruct (bool_decide _); cbn [snd]; auto.
    unfold initTimeout. cbn [isReady set_timers].
    destruct (isReady w) eqn:Hr; [split; [exact Hr | reflexivity]|].
    apply Hsettle; [exact Hr | reflexivity].
Qed.

Lemma equipped_step ev w : equipped w -> equipped (snd (step ev w)).
Proof.
  intros He. destruct (step_keeps_or_equips ev w) as [[Hr Hf]|Hd].
  - unfold equipped. rewrite Hr, Hf. exact He.
  - intros _. exact Hd.
Qed.

Lemma equipped_run evs w : equipped w -> equipped (fst (run evs w)).
Proof.
  revert w. induction evs as [|ev evs IH]; intros w He; [exact He|].
  rewrite run_cons. cbn [fst]. apply IH, equipped_step, He.
Qed.

Lemma reachable_equipped w : reachable w -> equipped w.
Proof.
  intros [evs ->]. apply equipped_run. intros Hr. discriminate Hr.
Qed.

(** X3: in every such state, a promise of [doInitialize] that has resolved
    with the engine [h] means that the converter is ready, that [h] is the
    cached module, that the working directories exist, and that [initialize]
    returns [h] without changing anything. *)
Theorem resolved_bootstrap_is_cached (w : World) (p : nat) (h : Handle) :
  reachable w ->
  promises w !! p = Some (Resolved h) ->
  isReady w = true
  /\ x2tModule w = Some h
  /\ initPromise w = Some p
  /\ Forall (fun d => d ∈ dirs (fs w)) WORKING_DIRS
  /\ initialize w = (RHandle h, w).
Proof.
  intros Hr Hp. pose proof (reachable_equipped w Hr) as He.
  apply reachable_coherent in Hr.
  destruct (coh_resolved w Hr p h Hp) as [Hh Hready].
  destruct (coh_ready w Hr Hready) as (q & h' & Hh' & Hm).
  pose proof (He Hready) as Hd.
  assert (h' = h) by congruence. subst h'.
  destruct (coh_handler w Hr p h Hh) as [Hi _].
  repeat split; try assumption.
  unfold initialize. rewrite Hready, Hm. reflexivity.
Qed.

Lemma resolved_bootstrap_is_cached_witness :
  isReady (ready 7%nat) = true
  /\ x2tModule (ready 7%nat) = Some 7%nat
  /\ initPromise (ready 7%nat) = Some 0%nat
  /\ Forall (fun d => d ∈ dirs (fs (ready 7%nat))) WORKING_DIRS
  /\ initialize (ready 7%nat) = (RHandle 7%nat, ready 7%nat).
Proof.
  apply (resolved_bootstrap_is_cached (ready 7%nat) 0 7%nat).
  - exists [CallInitialize; ScriptLoaded 0 (Some 7%nat); RuntimeInitialized].
    vm_compute. reflexivity.
  - vm_compute. reflexivity.
Defined.

Lemma count_emit e e' w : e' <> e -> count e (emit e' w) = count e w.
Proof.
  intros Hne. unfold count. simpl. rewrite List.filter_app, length_app. simpl.
  rewrite bool_decide_eq_false_2 by exact Hne. simpl. lia.
Qed.

Lemma count_settle e p v w : count e (settle p v w) = count e w.
Proof.
  unfold count. destruct (settle_fields p v w) as (_ & _ & _ & _ & _ & _ & -> & _).
  reflexivity.
Qed.

Lemma settle_hasScriptLoaded p v w :
  hasScriptLoaded (settle p v w) = hasScriptLoaded w.
Proof. apply settle_fields. Qed.

Lemma count_mkdirs ds w :
  count EScriptOnLoad (foldl mkdirStep w ds) = count EScriptOnLoad w.
Proof.
  unfold count. rewrite mkdirs_effects, List.filter_app, length_app.
  assert (H : List.filter (fun e' => bool_decide (e' = EScriptOnLoad))
                (List.map EMkdir ds) = []).
  { induction ds as [|d ds IH]; [reflexivity | exact IH]. }
  rewrite H. simpl. lia.
Qed.

Lemma awaitRuntime_no_reload p w :
  hasScriptLoaded (awaitRuntime p w) = hasScriptLoaded w
  /\ count EScriptOnLoad (awaitRuntime p w) = count EScriptOnLoad w.
Proof.
  unfold awaitRuntime. destruct (windowModule w).
  - split; [reflexivity|]. rewrite count_emit by discriminate. reflexivity.
  - split; [apply settle_hasScriptLoaded | apply count_settle].
Qed.

Lemma createWorkingDirectories_count w :
  count EScriptOnLoad (createWorkingDirectories w) = count EScriptOnLoad w.
Proof. exact (count_mkdirs WORKING_DIRS w). Qed.

Lemma runtimeInitialized_fields p x w :
  x2tModule (runtimeInitialized p x w) = Some x
  /\ isReady (runtimeInitialized p x w) = true
  /\ initPromise (runtimeInitialized p x w) = initPromise w
  /\ hasScriptLoaded (runtimeInitialized p x w) = hasScriptLoaded w
  /\ count EScriptOnLoad (runtimeInitialized p x w) = count EScriptOnLoad w.
Proof.
  unfold runtimeInitialized. cbn zeta.
  destruct (createWorkingDirectories_spec
              (set_timers (List.filter (fun q => negb (Nat.eqb q p)) (timers w)) w))
    as (_ & _ & C3 & C4 & _).
  pose proof (createWorkingDirectories_count
                (set_timers (List.filter (fun q => negb (Nat.eqb q p)) (timers w)) w))
    as Cc.
  revert C3 C4 Cc.
  generalize (createWorkingDirectories
                (set_timers (List.filter (fun q => negb (Nat.eqb q p)) (timers w)) w)).
  intros w0 C3 C4 Cc.
  destruct (settle_fields p (Resolved x) (set_ready x w0)) as (F1 & F2 & F3 & F4 & _).
  rewrite F1, F2, F3, F4, count_settle.
  repeat split; assumption.
Qed.

Lemma step_no_reload ev w :
  hasScriptLoaded w = true ->
  hasScriptLoaded (snd (step ev w)) = true
  /\ count EScriptOnLoad (snd (step ev w)) = count EScriptOnLoad w.
Proof.
  intros Hl.
  destruct ev as [|p m|p|p| |p]; [simpl | simpl | simpl | simpl | cbn [step] | simpl].
  - unfold initialize, doInitialize, loadScript. rewrite Hl.
    destruct (isReady w), (x2tModule w), (initPromise w); simpl; auto.
  - destruct (promises w !! p) as [[[]| | |]|]; simpl; auto.
    destruct (awaitRuntime_no_reload p (set_scriptLoaded m w)) as [_ ->].
    split; [|reflexivity].
    destruct (awaitRuntime_no_reload p (set_scriptLoaded m w)) as [-> _].
    reflexivity.
  - destruct (promises w !! p) as [[[]| | |]|]; simpl; auto.
    unfold loadScriptFailed. rewrite settle_hasScriptLoaded, count_settle. auto.
  - destruct (promises w !! p) as [[[]| | |]|]; simpl; auto.
    destruct (awaitRuntime_no_reload p w) as [-> ->]. auto.
  - destruct (onRuntimeInitialized w) as [[p x]|]; cbn [snd]; auto.
    destruct (runtimeInitialized_fields p x w) as (_ & _ & _ & R4 & R5).
    rewrite R4, R5. auto.
  - destruct (bool_decide _); simpl; auto.
    unfold initTimeout. simpl. destruct (isReady w); simpl; auto.
    rewrite settle_hasScriptLoaded, count_settle. auto.
Qed.

(** X4: once the loader script has been loaded, nothing that happens to the
    converter (calls of [initialize], events of a bootstrap, calls of
    [destroy]) loads it again: [hasScriptLoaded] stays set and [scriptOnLoad]
    is not called any more. *)
Theorem script_loaded_once (l : list Act) (w : World) :
  hasScriptLoaded w = true ->
  hasScriptLoaded (acts l w) = true
  /\ count EScriptOnLoad (acts l w) = count EScriptOnLoad w.
Proof.
  revert w. induction l as [|a l IH]; intros w Hl; [auto|].
  change (acts (a :: l) w) with (acts l (act a w)).
  assert (Ha : hasScriptLoaded (act a w) = true
               /\ count EScriptOnLoad (act a w) = count EScriptOnLoad w).
  { destruct a as [ev|]; [apply step_no_reload; exact Hl | auto]. }
  destruct Ha as [H1 H2]. destruct (IH _ H1) as [H3 H4].
  split; [exact H3 | congruence].
Qed.

Lemma script_loaded_once_witness :
  hasScriptLoaded
    (acts [Destroys; Happens CallInitialize; Happens (LoadScriptSkipped 1);
           Happens RuntimeInitialized] (ready 7%nat)) = true
  /\ count EScriptOnLoad
       (acts [Destroys; Happens CallInitialize; Happens (LoadScriptSkipped 1);
              Happens RuntimeInitialized] (ready 7%nat))
     = count EScriptOnLoad (ready 7%nat).
Proof.
  apply (script_loaded_once
           [Destroys; Happens CallInitialize; Happens (LoadScriptSkipped 1);
            Happens RuntimeInitialized] (ready 7%nat)).
  vm_compute. reflexivity.
Defined.

(** X5: when the load of the script fails, the promise of the bootstrap is
    rejected with that failure and [initPromise] is reset, so that the next
    call of [initialize] starts a new bootstrap: a new promise, and one more
    call of [scriptOnLoad]. *)
Theorem script_failure_allows_retry (w : World) (p : nat) :
  promises w !! p = Some (AwaitingScript true) ->
  isReady w = false ->
  hasScriptLoaded w = false ->
  let w1 := snd (step (ScriptFailed p) w) in
  let w2 := snd (initialize w1) in
  promises w1 !! p = Some (Rejected ScriptLoadFailed)
  /\ initPromise w1 = None
  /\ fst (initialize w1) = RPromise (length (promises w))
  /\ promises w2 = promises w1 ++ [AwaitingScript true]
  /\ initPromise w2 = Some (length (promises w))
  /\ count EScriptOnLoad w2 = S (count EScriptOnLoad w).
Proof.
  intros Hp Hr Hl. pose proof (lookup_lt_Some _ _ _ Hp) as Hlt.
  cbn zeta. simpl. rewrite Hp. simpl.
  unfold loadScriptFailed, settle. simpl. rewrite Hp.
  unfold initialize. simpl. rewrite Hr. simpl.
  unfold doInitialize, loadScript. simpl. rewrite Hl. simpl.
  rewrite length_insert.
  repeat split; try (destruct (x2tModule w); reflexivity).
  - apply list_lookup_insert_eq. exact Hlt.
  - destruct (x2tModule w); simpl; unfold count; simpl;
      rewrite List.filter_app, length_app; simpl; lia.
Qed.

Lemma script_failure_allows_retry_witness :
  promises (snd (step (ScriptFailed 0) fetching)) !! 0%nat
  = Some (Rejected ScriptLoadFailed)
  /\ initPromise (snd (step (ScriptFailed 0) fetching)) = None
  /\ fst (initialize (snd (step (ScriptFailed 0) fetching)))
     = RPromise (length (promises fetching))
  /\ promises (snd (initialize (snd (step (ScriptFailed 0) fetching))))
     = promises (snd (step (ScriptFailed 0) fetching)) ++ [AwaitingScript true]
  /\ initPromise (snd (initialize (snd (step (ScriptFailed 0) fetching))))
     = Some (length (promises fetching))
  /\ count EScriptOnLoad (snd (initialize (snd (step (ScriptFailed 0) fetching))))
     = S (count EScriptOnLoad fetching).
Proof.
  apply (script_failure_allows_retry fetching 0); vm_compute; reflexivity.
Defined.

(** X6: [destroy] resets the module, the flag and the promise, but not the
    handler installed on the engine: when the engine signals afterwards that
    its runtime is initialised, the destroyed converter is ready again with
    that engine as its module, and [initialize] returns it. *)
Theorem destroy_keeps_runtime_handler (w : World) (p : nat) (x : Handle) :
  onRuntimeInitialized w = Some (p, x) ->
  let w' := snd (step RuntimeInitialized (destroy w)) in
  isReady (destroy w) = false
  /\ x2tModule (destroy w) = None
  /\ initPromise (destroy w) = None
  /\ isReady w' = true
  /\ x2tModule w' = Some x
  /\ initPromise w' = None
  /\ fst (initialize w') = RHandle x.
Proof.
  intros Hh. cbn zeta.
  assert (Hs : snd (step RuntimeInitialized (destroy w))
               = runtimeInitialized p x (destroy w)).
  { cbn [step].
    change (onRuntimeInitialized (destroy w)) with (onRuntimeInitialized w).
    rewrite Hh. reflexivity. }
  rewrite Hs.
  destruct (runtimeInitialized_fields p x (destroy w)) as (R1 & R2 & R3 & _).
  unfold initialize. rewrite R1, R2, R3. repeat split.
Qed.

Lemma destroy_keeps_runtime_handler_witness :
  isReady (destroy (awaiting 7%nat)) = false
  /\ x2tModule (destroy (awaiting 7%nat)) = None
  /\ initPromise (destroy (awaiting 7%nat)) = None
  /\ isReady (snd (step RuntimeInitialized (destroy (awaiting 7%nat)))) = true
  /\ x2tModule (snd (step RuntimeInitialized (destroy (awaiting 7%nat))))
     = Some 7%nat
  /\ initPromise (snd (step RuntimeInitialized (destroy (awaiting 7%nat)))) = None
  /\ fst (initialize (snd (step RuntimeInitialized (destroy (awaiting 7%nat)))))
     = RHandle 7%nat.
Proof.
  apply (destroy_keeps_runtime_handler (awaiting 7%nat) 0 7%nat).
  vm_compute. reflexivity.
Defined.

Lemma ready_step ev w h :
  coherent w -> isReady w = true -> x2tModule w = Some h ->
  isReady (snd (step ev w)) = true /\ x2tModule (snd (step ev w)) = Some h.
Proof.
  intros Hc Hr Hm.
  assert (Hno : forall p f, promises w !! p <> Some (AwaitingScript f)).
  { intros p f Hp.
    destruct (awaiting_script_facts w p f Hc Hp) as (_ & _ & H & _). congruence. }
  destruct ev as [|p m|p|p| |p]; [simpl | simpl | simpl | simpl | cbn [step] | simpl].
  - unfold initialize. rewrite Hr, Hm. auto.
  - destruct (promises w !! p) as [[[]| | |]|] eqn:Hp; simpl; auto.
    destruct (Hno p true Hp).
  - destruct (promises w !! p) as [[[]| | |]|] eqn:Hp; simpl; auto.
    destruct (Hno p true Hp).
  - destruct (promises w !! p) as [[[]| | |]|] eqn:Hp; simpl; auto.
    destruct (Hno p false Hp).
  - destruct (coh_ready w Hc Hr) as (q & h' & Hh & Hm').
    rewrite Hh. cbn [snd].
    destruct (runtimeInitialized_fields q h' w) as (R1 & R2 & _).
    rewrite R1, R2. split; [reflexivity | congruence].
  - destruct (bool_decide _); simpl; auto.
    unfold initTimeout. simpl. rewrite Hr. auto.
Qed.

Lemma ready_run evs w h :
  coherent w -> isReady w = true -> x2tModule w = Some h ->
  isReady (fst (run evs w)) = true /\ x2tModule (fst (run evs w)) = Some h.
Proof.
  revert w. induction evs as [|ev evs IH]; intros w Hc Hr Hm; [auto|].
  destruct (ready_step ev w h Hc Hr Hm) as [Hr' Hm'].
  rewrite run_cons. cbn [fst]. apply IH; [apply coherent_step, Hc | |]; assumption.
Qed.

Lemma calls_when_ready w h n :
  isReady w = true -> x2tModule w = Some h ->
  run (repeat CallInitialize n) w = (w, repeat (RHandle h) n).
Proof.
  intros Hr Hm. induction n as [|n IHn]; [reflexivity|].
  cbn [repeat]. rewrite run_cons.
  assert (Hstep : step CallInitialize w = (Some (RHandle h), w)).
  { simpl. unfold initialize. rewrite Hr, Hm. reflexivity. }
  rewrite Hstep. cbn [fst snd]. rewrite IHn. reflexivity.
Qed.

(** X7: once a converter that is never destroyed is ready, it stays ready
    with the same module whatever events follow, and any number of calls of
    [initialize] return that module and leave the state as it is. *)
Theorem cached_module_is_stable (evs : list Event) (w : World) (h : Handle) (n : nat) :
  reachable w -> isReady w = true -> x2tModule w = Some h ->
  isReady (fst (run evs w)) = true
  /\ x2tModule (fst (run evs w)) = Some h
  /\ run (repeat CallInitialize n) (fst (run evs w))
     = (fst (run evs w), repeat (RHandle h) n).
Proof.
  intros Hreach Hr Hm. apply reachable_coherent in Hreach.
  destruct (ready_run evs w h Hreach Hr Hm) as [H1 H2].
  split; [exact H1|]. split; [exact H2|]. apply calls_when_ready; assumption.
Qed.

Lemma cached_module_is_stable_witness :
  isReady (fst (run [CallInitialize; InitTimerFired 0] (ready 7%nat))) = true
  /\ x2tModule (fst (run [CallInitialize; InitTimerFired 0] (ready 7%nat)))
     = Some 7%nat
  /\ run (repeat CallInitialize 2)
       (fst (run [CallInitialize; InitTimerFired 0] (ready 7%nat)))
     = (fst (run [CallInitialize; InitTimerFired 0] (ready 7%nat)),
        repeat (RHandle 7%nat) 2).
Proof.
  apply (cached_module_is_stable [CallInitialize; InitTimerFired 0]
           (ready 7%nat) 7%nat 2).
  - exists [CallInitialize; ScriptLoaded 0 (Some 7%nat); RuntimeInitialized].
    vm_compute. reflexivity.
  - vm_compute. reflexivity.
  - vm_compute. reflexivity.
Defined.

Lemma await_returns_module evs w h :
  coherent w ->
  fst (Pipeline.await_initialize evs w) = Pipeline.Returned h ->
  x2tModule (snd (Pipeline.await_initialize evs w)) = Some h.
Proof.
  intros Hc. unfold Pipeline.await_initialize.
  pose proof (coherent_initialize w Hc) as Hc1.
  destruct (initialize w) as [r w1] eqn:Hi. cbn [snd] in Hc1.
  pose proof (coherent_run evs w1 Hc1) as Hc2.
  destruct r as [h0|p].
  - simpl. intros [= ->].
    assert (Hw : isReady w = true /\ x2tModule w = Some h /\ w1 = w).
    { unfold initialize, doInitialize, loadScript in Hi.
      destruct (isReady w), (x2tModule w) as [h1|], (initPromise w),
        (hasScriptLoaded w); simpl in Hi; inversion Hi; subst; auto. }
    destruct Hw as (Hr & Hm & ->).
    apply (ready_run evs w h Hc Hr Hm).
  - destruct (promises (fst (run evs w1)) !! p) as [[]|] eqn:Hp; simpl;
      try discriminate.
    intros [= ->].
    destruct (coh_resolved _ Hc2 p h Hp) as [Hh Hready].
    destruct (coh_ready _ Hc2 Hready) as (q & h' & Hh' & Hm).
    congruence.
Qed.

Lemma await_coherent evs w :
  coherent w -> coherent (snd (Pipeline.await_initialize evs w)).
Proof.
  intros Hc. unfold Pipeline.await_initialize.
  pose proof (coherent_initialize w Hc) as Hc1.
  destruct (initialize w) as [r w1]. cbn [snd] in Hc1.
  pose proof (coherent_run evs w1 Hc1) as Hc2.
  destruct r as [h0|p]; [exact Hc2|].
  destruct (promises (fst (run evs w1)) !! p) as [[]|]; exact Hc2.
Qed.

Lemma coherent_change c w : coherent w -> coherent (change c w).
Proof.
  intros Hc. destruct c as [ev|e|f|b]; cbn [change].
  - apply coherent_step, Hc.
  - apply (coherent_same w); auto.
  - apply (coherent_same w); auto.
  - apply (coherent_same w); auto.
Qed.

Lemma coherent_changes l w : coherent w -> coherent (changes l w).
Proof.
  revert w. induction l as [|c l IH]; intros w Hc; [exact Hc|].
  apply (IH (change c w)), coherent_change, Hc.
Qed.

Lemma inService_coherent w : inService w -> coherent w.
Proof. intros [l ->]. apply coherent_changes, coherent_fresh. Qed.

Lemma inService_change c w : inService w -> inService (change c w).
Proof.
  intros [l ->]. exists (l ++ [c]). unfold changes. rewrite foldl_app. reflexivity.
Qed.

Lemma inService_run evs w : inService w -> inService (fst (run evs w)).
Proof.
  revert w. induction evs as [|ev evs IH]; intros w Hw; [exact Hw|].
  rewrite run_cons. cbn [fst]. apply IH. exact (inService_change (Occurs ev) w Hw).
Qed.

(** A converter that has only been through events of a bootstrap is in
    service. *)
Lemma reachable_inService w : reachable w -> inService w.
Proof.
  intros [evs ->]. apply inService_run. exists []. reflexivity.
Qed.

Lemma await_inService evs w :
  inService w -> inService (snd (Pipeline.await_initialize evs w)).
Proof.
  intros Hw. unfold Pipeline.await_initialize.
  pose proof (inService_change (Occurs CallInitialize) w Hw) as H1.
  cbn [change step] in H1.
  destruct (initialize w) as [r w1]. cbn [snd] in H1.
  pose proof (inService_run evs w1 H1) as H2.
  destruct r as [h0|p]; [exact H2|].
  destruct (promises (fst (run evs w1)) !! p) as [[]|]; exact H2.
Qed.

End EngineInvariants.

(** ** The conversion pipeline: outcomes *)

Module PipelineOutcomes.

Import JS Sanitize Engine EngineFacts EngineInvariants Pipeline PipelineFacts.

(** X8: [executeConversion] throws the not-initialised error, touching
    nothing, when there is no module; otherwise it calls the entry point of
    the engine, returns when the code is 0, and throws the conversion
    error with the code of the engine otherwise, whether or not the parameter
    file can be read back for the log. *)
Theorem executeConversion_outcome (env : Env) (paramsPath : jsstring) (w : World) :
  fst (executeConversion env paramsPath w)
  = match x2tModule w with
    | None => Thrown NotInitialized
    | Some _ =>
        if Z.eqb (fst (main1 env (fs w) paramsPath)) 0 then Returned tt
        else Thrown (ConversionFailed (fst (main1 env (fs w) paramsPath)))
    end
  /\ (x2tModule w = None -> snd (executeConversion env paramsPath w) = w)
  /\ (forall h, x2tModule w = Some h ->
      ECcall paramsPath ∈ effects (snd (executeConversion env paramsPath w))).
Proof.
  unfold executeConversion. destruct (x2tModule w) as [h|] eqn:Hm.
  - simpl. destruct (main1 env (fs w) paramsPath) as [result f]. simpl.
    destruct (Z.eqb result 0) eqn:Hz.
    + repeat split; try discriminate. intros _ _. simpl.
      apply elem_of_app. right. left.
    + unfold bind, catch, fsReadFile. simpl. rewrite Hm.
      destruct (files f !! paramsPath); simpl;
        (repeat split; try discriminate; intros _ _; simpl;
         rewrite <- app_assoc; apply elem_of_app; right; left).
  - repeat split; discriminate.
Qed.

Lemma settles_ret {A} (a : A) : settles (ret a).
Proof. intros w. discriminate. Qed.

Lemma settles_bind {A B} (m : M A) (k : A -> M B) :
  settles m -> (forall a, settles (k a)) -> settles (bind m k).
Proof.
  intros Hm Hk w. unfold bind. specialize (Hm w).
  destruct (m w) as [[a|e|] w1]; simpl in *; [apply Hk | discriminate | congruence].
Qed.

Lemma returns_catch {A} (m : M A) (h : Error -> M A) :
  settles m -> (forall e, returns (h e)) -> returns (catch m h).
Proof.
  intros Hm Hh w. unfold catch. specialize (Hm w).
  destruct (m w) as [[a|e|] w1]; simpl in *; [eauto | apply Hh | congruence].
Qed.

Lemma returns_ret {A} (a : A) : returns (ret a).
Proof. intros w. eexists. reflexivity. Qed.

Lemma returns_bind {A B} (m : M A) (k : A -> M B) :
  returns m -> (forall a, returns (k a)) -> returns (bind m k).
Proof.
  intros Hm Hk w. unfold bind. destruct (Hm w) as [a Ha].
  destruct (m w) as [[a'|e|] w1]; simpl in Ha; try discriminate Ha. apply Hk.
Qed.

Lemma returns_settles {A} (m : M A) : returns m -> settles m.
Proof. intros Hm w. destruct (Hm w) as [a ->]. discriminate. Qed.

Lemma returns_mapM {A B} (f : A -> M B) l :
  (forall a, returns (f a)) -> returns (mapM f l).
Proof.
  intros Hf. induction l as [|a l IH]; simpl; [apply returns_ret|].
  apply returns_bind; [apply Hf|]. intros b.
  apply returns_bind; [exact IH|]. intros bs. apply returns_ret.
Qed.

Lemma settles_fsReadFile p : settles (fsReadFile p).
Proof.
  intros w. unfold fsReadFile. destruct (x2tModule w); [|discriminate].
  destruct (files _ !! p); discriminate.
Qed.

Lemma settles_fsReaddir p : settles (fsReaddir p).
Proof. intros w. unfold fsReaddir. destruct (bool_decide _); discriminate. Qed.

Lemma settles_callCreateObjectURL env d : settles (callCreateObjectURL env d).
Proof.
  intros w. unfold callCreateObjectURL. destruct (createObjectURL env d); discriminate.
Qed.

Lemma returns_readMediaFiles env : returns (readMediaFiles env).
Proof.
  intros w. unfold readMediaFiles. destruct (x2tModule w); [|eexists; reflexivity].
  revert w. apply returns_catch; [|intros; apply returns_ret].
  apply settles_bind; [apply settles_fsReaddir|]. intros entries.
  apply returns_settles, returns_bind; [|intros; apply returns_ret].
  apply returns_mapM. intros file.
  apply returns_catch; [|intros; apply returns_ret].
  apply settles_bind; [apply settles_fsReadFile|]. intros fileData.
  apply settles_bind; [apply settles_callCreateObjectURL|].
  intros; apply settles_ret.
Qed.

Lemma fsIs_fsReadFile f p : preserves (fsIs f) (fsReadFile p).
Proof.
  intros w H. unfold fsReadFile. destruct (x2tModule w); [|exact H].
  destruct (files _ !! p); exact H.
Qed.

Lemma fsIs_fsReaddir f p : preserves (fsIs f) (fsReaddir p).
Proof. intros w H. unfold fsReaddir. destruct (bool_decide _); exact H. Qed.

Lemma fsIs_callCreateObjectURL env f d :
  preserves (fsIs f) (callCreateObjectURL env d).
Proof.
  intros w H. unfold callCreateObjectURL. destruct (createObjectURL env d); exact H.
Qed.

Lemma fsIs_readMediaFiles env f : preserves (fsIs f) (readMediaFiles env).
Proof.
  intros w H. unfold readMediaFiles. destruct (x2tModule w); [|exact H].
  revert w H. apply preserves_catch; [|intros; apply preserves_ret].
  apply preserves_bind; [apply fsIs_fsReaddir|]. intros entries.
  apply preserves_bind; [|intros; apply preserves_ret].
  apply preserves_mapM. intros file.
  apply preserves_catch; [|intros; apply preserves_ret].
  apply preserves_bind; [apply fsIs_fsReadFile|]. intros fileData.
  apply preserves_bind; [apply fsIs_callCreateObjectURL|].
  intros; apply preserves_ret.
Qed.

(** X9: [readMediaFiles] always returns a map and never throws or changes
    the files of the engine; the map is empty when there is no module or the
    media directory cannot be read. *)
Theorem readMediaFiles_never_fails (env : Env) (w : World) :
  exists m,
    fst (readMediaFiles env w) = Returned m
    /\ fs (snd (readMediaFiles env w)) = fs w
    /\ (x2tModule w = None \/ js "/working/media" ∉ dirs (fs w) -> m = ∅).
Proof.
  destruct (returns_readMediaFiles env w) as [m Hm]. exists m.
  split; [exact Hm|]. split; [exact (fsIs_readMediaFiles env (fs w) w eq_refl)|].
  intros H. unfold readMediaFiles in Hm.
  destruct (x2tModule w) as [h|] eqn:Hx; [|inversion Hm; reflexivity].
  destruct H as [H|H]; [discriminate H|].
  unfold catch, bind, fsReaddir in Hm. simpl in Hm.
  rewrite bool_decide_eq_false_2 in Hm by exact H. simpl in Hm.
  inversion Hm. reflexivity.
Qed.

Lemma hoare_mapM {A B} (J : World -> Prop) (f : A -> M B)
    (Q : A -> B -> Prop) l :
  (forall a, hoare J (f a) (fun b w => Q a b /\ J w)) ->
  hoare J (mapM f l)
    (fun bs w => Forall (fun b => exists a, a ∈ l /\ Q a b) bs /\ J w).
Proof.
  intros Hf. induction l as [|a l IH]; simpl.
  - apply hoare_ret. intros w HJ. split; [constructor | exact HJ].
  - apply hoare_bind with (R := fun b w => Q a b /\ J w); [apply Hf|].
    intros b w [Hb HJ] bs' w' E. unfold bind in E.
    destruct (mapM f l w) as [[bs|e|] w1] eqn:Em; try discriminate E.
    destruct (IH w HJ bs w1 Em) as [Hall HJ1].
    inversion E; subst. split; [|exact HJ1]. constructor.
    + exists a. split; [left | exact Hb].
    + eapply Forall_impl; [exact Hall|].
      intros b' (a' & Ha' & Hq). exists a'. split; [right; exact Ha' | exact Hq].
Qed.

Lemma hoare_catch_ret {A} (J : World -> Prop) (m : M A) (d : A)
    (Q : A -> World -> Prop) :
  hoare J m Q -> preserves J m -> (forall w, J w -> Q d w) ->
  hoare J (catch m (fun _ => ret d)) Q.
Proof.
  intros Hm Hp Hd w HJ b w' E. unfold catch in E. specialize (Hp w HJ).
  destruct (m w) as [[a|e|] w1] eqn:Em; try discriminate E.
  - inversion E; subst. exact (Hm w HJ b w' Em).
  - inversion E; subst. apply Hd. exact Hp.
Qed.

Lemma hoare_pure {A} (phi : Prop) (P : World -> Prop) (m : M A)
    (Q : A -> World -> Prop) :
  (phi -> hoare P m Q) -> hoare (fun w => phi /\ P w) m Q.
Proof. intros H w [Hphi HP]. exact (H Hphi w HP). Qed.

Lemma hoare_fsReadFile f p :
  hoare (fsIs f) (fsReadFile p) (fun d w => files f !! p = Some d /\ fsIs f w).
Proof.
  intros w HJ d w' E. unfold fsReadFile in E.
  destruct (x2tModule w); [|discriminate E].
  change (files (fs (emit (EReadFile p) w))) with (files (fs w)) in E.
  rewrite HJ in E. destruct (files f !! p) as [d0|]; inversion E; subst.
  split; [reflexivity | exact HJ].
Qed.

Lemma hoare_callCreateObjectURL env f d :
  hoare (fsIs f) (callCreateObjectURL env d)
    (fun url w => createObjectURL env d = Some url /\ fsIs f w).
Proof.
  intros w HJ url w' E. unfold callCreateObjectURL in E.
  destruct (createObjectURL env d) as [u|]; inversion E; subst.
  split; [reflexivity | exact HJ].
Qed.

(** The entries that [readdir] lists are the two dot entries and names
    without a slash. *)
Lemma hoare_fsReaddir f p :
  hoare (fsIs f) (fsReaddir p)
    (fun entries w =>
       Forall (fun n => n = js "." \/ n = js ".." \/ 47 ∉ n) entries
       /\ fsIs f w).
Proof.
  intros w HJ entries w' E. unfold fsReaddir in E.
  destruct (bool_decide _); inversion E; subst. split; [|exact HJ].
  constructor; [left; reflexivity|]. constructor; [right; left; reflexivity|].
  apply Forall_forall. intros n Hn.
  apply list_elem_of_In, filter_In in Hn as [_ Hn].
  apply negb_true_iff, bool_decide_eq_false in Hn. auto.
Qed.

Lemma foldl_insert_lookup (rs : list (option (jsstring * jsstring)))
    (m0 : gmap jsstring jsstring) k url :
  foldl (fun (m : gmap jsstring jsstring) r =>
           match r with
           | Some (k, url) => <[k := url]> m
           | None => m
           end) m0 rs !! k = Some url ->
  m0 !! k = Some url \/ Some (k, url) ∈ rs.
Proof.
  revert m0. induction rs as [|r rs IH]; intros m0 H; simpl in H; [left; exact H|].
  destruct (IH _ H) as [H1|H1].
  - destruct r as [[k' url']|]; [|left; exact H1].
    destruct (decide (k' = k)) as [->|Hne].
    + rewrite lookup_insert_eq in H1. inversion H1; subst. right. left.
    + left. rewrite lookup_insert_ne in H1 by exact Hne. exact H1.
  - right. right. exact H1.
Qed.

(** X10: every entry of the map that [readMediaFiles] returns stands for a
    file of the media directory of the engine: its key is [media/] followed
    by the name of a file that lies directly in [/working/media/], other
    than the two dot entries, and its value is the URL that
    [createObjectURL] gave for the content of that file. *)
Theorem media_keys_name_media_files (env : Env) (w : World)
    (m : gmap jsstring jsstring) (k url : jsstring) :
  fst (readMediaFiles env w) = Returned m ->
  m !! k = Some url ->
  exists file data,
    k = js "media/" ++ file
    /\ files (fs w) !! (js "/working/media/" ++ file) = Some data
    /\ createObjectURL env data = Some url
    /\ file <> js "." /\ file <> js ".." /\ 47 ∉ file.
Proof.
  intros Hm Hk. unfold readMediaFiles in Hm.
  destruct (x2tModule w) as [h|];
    [|inversion Hm; subst; rewrite lookup_empty in Hk; discriminate Hk].
  destruct (catch _ _ w) as [o w'] eqn:E. simpl in Hm. subst o.
  revert k url Hk.
  refine (hoare_catch_ret (fsIs (fs w)) _ ∅
            (fun m _ => forall k url, m !! k = Some url ->
               exists file data,
                 k = js "media/" ++ file
                 /\ files (fs w) !! (js "/working/media/" ++ file) = Some data
                 /\ createObjectURL env data = Some url
                 /\ file <> js "." /\ file <> js ".." /\ 47 ∉ file)
            _ _ _ w eq_refl m w' E).
  - eapply hoare_bind; [apply hoare_fsReaddir|].
    intros entries.
    apply hoare_pure. intros Hentries.
    eapply hoare_bind.
    + apply (hoare_mapM (fsIs (fs w)) _
               (fun file r =>
                  r = None
                  \/ exists data url,
                       r = Some (js "media/" ++ file, url)
                       /\ files (fs w) !! (js "/working/media/" ++ file) = Some data
                       /\ createObjectURL env data = Some url)).
      intros file. apply hoare_catch_ret.
      * eapply hoare_bind; [apply hoare_fsReadFile|]. intros fileData.
        apply hoare_pure. intros Hdata.
        eapply hoare_bind; [apply hoare_callCreateObjectURL|].
        intros mediaUrl. apply hoare_ret. intros w2 [Hurl HJ2].
        split; [|exact HJ2]. right. exists fileData, mediaUrl. auto.
      * apply preserves_bind; [apply fsIs_fsReadFile|]. intros fileData.
        apply preserves_bind; [apply fsIs_callCreateObjectURL|].
        intros; apply preserves_ret.
      * intros w1 HJ1. split; [left; reflexivity | exact HJ1].
    + intros results. apply hoare_ret. intros w1 [Hall _] k url Hk.
      apply foldl_insert_lookup in Hk as [Hk|Hin];
        [rewrite lookup_empty in Hk; discriminate Hk|].
      rewrite Forall_forall in Hall.
      destruct (Hall _ Hin) as (file & Hfile & [H|(data & url' & H & Hdata & Hurl)]);
        [discriminate H|].
      inversion H; subst. exists file, data.
      apply list_elem_of_In, filter_In in Hfile as [Hfile Hf].
      apply andb_prop in Hf as [H1 H2].
      apply negb_true_iff, bool_decide_eq_false in H1.
      apply negb_true_iff, bool_decide_eq_false in H2.
      rewrite Forall_forall in Hentries.
      destruct (Hentries file (proj2 (list_elem_of_In _ _) Hfile)) as [H3|[H3|H3]];
        [destruct (H1 H3) | destruct (H2 H3) |].
      repeat split; assumption.
  - apply preserves_bind; [apply fsIs_fsReaddir|]. intros entries.
    apply preserves_bind; [|intros; apply preserves_ret].
    apply preserves_mapM. intros file.
    apply preserves_catch; [|intros; apply preserves_ret].
    apply preserves_bind; [apply fsIs_fsReadFile|]. intros fileData.
    apply preserves_bind; [apply fsIs_callCreateObjectURL|].
    intros; apply preserves_ret.
  - intros w1 _ k url Hk. rewrite lookup_empty in Hk. discriminate Hk.
Qed.

Lemma media_keys_name_media_files_witness :
  exists file data,
    js "media/image1.png" = js "media/" ++ file
    /\ files (fs mediaWorld) !! (js "/working/media/" ++ file) = Some data
    /\ createObjectURL exampleEnv data = Some (js "blob:1")
    /\ file <> js "." /\ file <> js ".." /\ 47 ∉ file.
Proof.
  apply (media_keys_name_media_files exampleEnv mediaWorld
           (<[js "media/image1.png" := js "blob:1"]> ∅)).
  - vm_compute. reflexivity.
  - vm_compute. reflexivity.
Defined.

Lemma catch_throw_inv {A} (m : M A) (f : Error -> Error) w e w' :
  catch m (fun e => throw (f e)) w = (Thrown e, w') -> exists c, e = f c.
Proof.
  unfold catch. destruct (m w) as [[a|c|] w1]; intros E; inversion E.
  exists c. reflexivity.
Qed.

(** X11: an error thrown by [convertDocument] is the rejection of the
    initialisation, the unsupported-format error for the detected extension,
    or the wrapper [Document conversion failed] around its cause; for a CSV
    request the cause is the rejection of the read of the file, the
    empty-file error, or the wrapper [Failed to convert CSV file]. *)
Theorem convertDocument_error_kinds
    (env : Env) (evs : list Event) (file : File) (w : World) (e : Error) :
  fst (convertDocument env evs file w) = Thrown e ->
  ((exists i, e = InitFailed i)
   \/ e = UnsupportedFormat (detectExtension env file)
   \/ exists c, e = DocumentConversionFailed c)
  /\ (toLowerCase env (detectExtension env file) = js "csv" ->
      forall c, e = DocumentConversionFailed c ->
      c = ReadFailed \/ c = CsvEmpty \/ exists c', c = CsvConvertFailed c').
Proof.
  unfold convertDocument, bind at 1 2, getDocumentType, await_initialize.
  destruct (initialize w) as [r w1].
  set (w2 := fst (run evs w1)).
  intros He. split.
  - revert He.
    destruct r as [h|p]; [|destruct (promises w2 !! p) as [[]|]]; cbn [fst snd];
      try discriminate; try (intros [= <-]; left; eexists; reflexivity);
      (destruct (tableLookup env _); cbn [ret throw fst snd];
       [|intros [= <-]; right; left; reflexivity]);
      (destruct (catch _ _ w2) as [o w3] eqn:E; cbn [fst]; intros ->;
       right; right; exact (catch_throw_inv _ _ _ _ _ E)).
  - intros Hcsv c ->. revert He. rewrite Hcsv.
    rewrite bool_decide_eq_true_2 by reflexivity.
    assert (Hin : forall (k : list N -> M ConversionResult) w0 w3,
               catch
                 (let* data := readBytes file in
                  if Nat.eqb (length data) 0 then throw CsvEmpty
                  else catch (k data)
                         (fun conversionError =>
                            throw (CsvConvertFailed conversionError)))
                 (fun error => throw (DocumentConversionFailed error)) w0
               = (Thrown (DocumentConversionFailed c), w3) ->
               c = ReadFailed \/ c = CsvEmpty \/ exists c', c = CsvConvertFailed c').
    { intros k w0 w3 E. unfold catch at 1, bind at 1, readBytes in E.
      destruct (arrayBuffer file) as [data| |]; [| |discriminate E].
      - destruct (Nat.eqb (length data) 0).
        + inversion E. right. left. reflexivity.
        + destruct (catch _ _ w0) as [[a|c0|] w4] eqn:E2; inversion E; subst.
          right. right. exact (catch_throw_inv _ _ _ _ _ E2).
      - inversion E. left. reflexivity. }
    destruct r as [h|p]; [|destruct (promises w2 !! p) as [[]|]]; cbn [fst snd];
      try discriminate;
      (destruct (tableLookup env (js "csv")) as [t|]; cbn [ret throw fst snd];
       [|discriminate]);
      (destruct (catch _ _ w2) as [o w3] eqn:E; cbn [fst]; intros ->;
       exact (Hin _ _ _ E)).
Qed.

Lemma convertDocument_error_kinds_witness :
  ((exists i, DocumentConversionFailed CsvEmpty = InitFailed i)
   \/ DocumentConversionFailed CsvEmpty
      = UnsupportedFormat
          (detectExtension exampleEnv (mkFile (js "empty.csv") [] (ReadResolves [])))
   \/ exists c, DocumentConversionFailed CsvEmpty = DocumentConversionFailed c)
  /\ (toLowerCase exampleEnv
        (detectExtension exampleEnv (mkFile (js "empty.csv") [] (ReadResolves [])))
      = js "csv" ->
      forall c, DocumentConversionFailed CsvEmpty = DocumentConversionFailed c ->
      c = ReadFailed \/ c = CsvEmpty \/ exists c', c = CsvConvertFailed c').
Proof.
  apply (convertDocument_error_kinds exampleEnv bootstrapOk
           (mkFile (js "empty.csv") [] (ReadResolves [])) fresh).
  vm_compute. reflexivity.
Defined.

Lemma executeConversion_logs env p w a w' :
  executeConversion env p w = (Returned a, w') -> logged (ECcall p) w'.
Proof.
  unfold executeConversion. destruct (x2tModule w) as [h|] eqn:Hm; [|discriminate].
  destruct (main1 env (fs (emit (ECcall p) w)) p) as [result f].
  destruct (Z.eqb result 0).
  - intros [= _ <-]. unfold logged. simpl. apply elem_of_app. right. left.
  - unfold bind, catch, fsReadFile. simpl. rewrite Hm.
    destruct (files f !! p); discriminate.
Qed.

Lemma convertWith_returns env sanitizedName data resultName documentType w r w' :
  convertWith env sanitizedName data resultName documentType w = (Returned r, w') ->
  fileName r = resultName
  /\ type r = documentType
  /\ logged (EWriteFile (js "/working/" ++ sanitizedName)) w'
  /\ logged (ECcall (js "/working/params.xml")) w'
  /\ files (fs w') !! (js "/working/" ++ sanitizedName ++ js ".bin") = Some (bin r).
Proof.
  intros E.
  destruct (hoare_convertWith env sanitizedName data resultName documentType
              w I r w' E) as (H1 & H2 & H3).
  split; [exact H1|]. split; [exact H2|]. split; [exact H3|].
  unfold convertWith, bind in E.
  destruct (fsWriteFile _ _ w) as [[[]|e|] w1]; try discriminate E.
  destruct (fsWriteFile _ _ w1) as [[[]|e|] w2]; try discriminate E.
  destruct (executeConversion env _ w2) as [[[]|e|] w3] eqn:E3; try discriminate E.
  destruct (fsReadFile _ w3) as [[result|e|] w4] eqn:E4; try discriminate E.
  destruct (readMediaFiles env w4) as [[media|e|] w5] eqn:E5; try discriminate E.
  injection E as Hr Hw. subst w5. rewrite <- Hr. simpl.
  pose proof (executeConversion_logs _ _ _ _ _ E3) as L3.
  pose proof (preserves_fsReadFile (ECcall (js "/working/params.xml"))
                ((js "/working/" ++ sanitizedName) ++ js ".bin") w3 L3) as L4.
  rewrite E4 in L4. simpl in L4.
  pose proof (preserves_readMediaFiles env (ECcall (js "/working/params.xml")) w4 L4) as L5.
  rewrite E5 in L5. simpl in L5. split; [exact L5|].
  pose proof (fsIs_readMediaFiles env (fs w4) w4 eq_refl) as F5.
  rewrite E5 in F5. simpl in F5. unfold fsIs in F5. rewrite F5.
  unfold fsReadFile in E4. destruct (x2tModule w3); [|discriminate E4].
  simpl in E4.
  destruct (files (fs w3) !! _) eqn:Hf; inversion E4; subst. exact Hf.
Qed.

(** X12: when a request that is not CSV returns a result, the result is
    named by the sanitised name of the file; its type is the entry of the
    table for the detected extension in lower case or, when the table has
    none, the property of that name that the table inherits from
    [Object.prototype]; the read of the file resolved; the input was written
    under [/working/] and the sanitised name, the engine was called on
    [/working/params.xml], and the bytes of the result are the file the
    engine left at the input path followed by [.bin]. *)
Theorem plain_conversion_result
    (env : Env) (evs : list Event) (file : File) (w : World)
    (r : ConversionResult) :
  toLowerCase env (detectExtension env file) <> js "csv" ->
  fst (convertDocument env evs file w) = Returned r ->
  let key := toLowerCase env (detectExtension env file) in
  let path := js "/working/" ++ sanitizeFileName (name file) in
  let w' := snd (convertDocument env evs file w) in
  fileName r = sanitizeFileName (name file)
  /\ match DOCUMENT_TYPE_MAP env !! key with
     | Some t => type r = Entry t
     | None => key ∈ objectPrototype /\ type r = Inherited key
     end
  /\ (exists data, arrayBuffer file = ReadResolves data)
  /\ EWriteFile path ∈ effects w'
  /\ ECcall (js "/working/params.xml") ∈ effects w'
  /\ files (fs w') !! (path ++ js ".bin") = Some (bin r).
Proof.
  intros Hcsv Hret. cbn zeta.
  destruct (convertDocument env evs file w) as [o w'] eqn:E.
  simpl in Hret. subst o. cbn [snd].
  unfold convertDocument, bind at 1 2, getDocumentType in E.
  destruct (await_initialize evs w) as [[h|e|] w1]; try discriminate E.
  destruct (tableLookup env _) as [t|] eqn:Hmap; try discriminate E.
  cbn [ret] in E. rewrite bool_decide_eq_false_2 in E by exact Hcsv.
  unfold catch, bind at 1, readBytes in E.
  destruct (arrayBuffer file) as [data| |]; try discriminate E.
  destruct (convertWith env _ _ _ t w1) as [[r'|e|] w2] eqn:E2; try discriminate E.
  inversion E; subst.
  destruct (convertWith_returns _ _ _ _ _ _ _ _ E2) as (H1 & H2 & H3 & H4 & H5).
  split; [exact H1|]. split.
  { unfold tableLookup in Hmap.
    destruct (DOCUMENT_TYPE_MAP env !! _) as [t0|].
    - congruence.
    - destruct (bool_decide _) eqn:Hp; [|discriminate Hmap].
      apply bool_decide_eq_true in Hp. split; [exact Hp | congruence]. }
  split; [exists data; reflexivity|].
  split; [exact H3|]. split; [exact H4 | exact H5].
Qed.

Lemma plain_conversion_result_witness :
  fileName (mkResult (js "Report.docx") (Entry word) (Bytes [1; 2; 3]) ∅)
  = sanitizeFileName (name reportDocx)
  /\ match DOCUMENT_TYPE_MAP exampleEnv
             !! toLowerCase exampleEnv (detectExtension exampleEnv reportDocx)
     with
     | Some t =>
         type (mkResult (js "Report.docx") (Entry word) (Bytes [1; 2; 3]) ∅)
         = Entry t
     | None =>
         toLowerCase exampleEnv (detectExtension exampleEnv reportDocx)
         ∈ objectPrototype
         /\ type (mkResult (js "Report.docx") (Entry word) (Bytes [1; 2; 3]) ∅)
            = Inherited
                (toLowerCase exampleEnv (detectExtension exampleEnv reportDocx))
     end
  /\ (exists data, arrayBuffer reportDocx = ReadResolves data)
  /\ EWriteFile (js "/working/" ++ sanitizeFileName (name reportDocx))
     ∈ effects (snd (convertDocument exampleEnv bootstrapOk reportDocx fresh))
  /\ ECcall (js "/working/params.xml")
     ∈ effects (snd (convertDocument exampleEnv bootstrapOk reportDocx fresh))
  /\ files (fs (snd (convertDocument exampleEnv bootstrapOk reportDocx fresh)))
       !! ((js "/working/" ++ sanitizeFileName (name reportDocx)) ++ js ".bin")
     = Some (bin (mkResult (js "Report.docx") (Entry word) (Bytes [1; 2; 3]) ∅)).
Proof.
  apply (plain_conversion_result exampleEnv bootstrapOk reportDocx fresh).
  - vm_compute. discriminate.
  - vm_compute. reflexivity.
Defined.

Lemma mkdirs_windowXLSX ds w : windowXLSX (foldl mkdirStep w ds) = windowXLSX w.
Proof.
  revert w. induction ds as [|d ds IH]; intros w; simpl; [reflexivity|].
  rewrite IH. unfold mkdirStep, mkdir. simpl. destruct (bool_decide _); reflexivity.
Qed.

Lemma createWorkingDirectories_windowXLSX w :
  windowXLSX (createWorkingDirectories w) = windowXLSX w.
Proof. exact (mkdirs_windowXLSX WORKING_DIRS w). Qed.

Lemma settle_windowXLSX p v w : windowXLSX (settle p v w) = windowXLSX w.
Proof. unfold settle. destruct (promises w !! p) as [[]|]; reflexivity. Qed.

Lemma step_windowXLSX ev w : windowXLSX (snd (step ev w)) = windowXLSX w.
Proof.
  destruct ev as [|p m|p|p| |p]; [simpl | simpl | simpl | simpl | cbn [step] | simpl].
  - unfold initialize, doInitialize, loadScript.
    destruct (isReady w), (x2tModule w), (initPromise w), (hasScriptLoaded w);
      reflexivity.
  - destruct (promises w !! p) as [[[]| | |]|]; simpl; try reflexivity.
    unfold awaitRuntime. simpl.
    destruct (match m with Some h => Some h | None => windowModule w end);
      [reflexivity | rewrite settle_windowXLSX; reflexivity].
  - destruct (promises w !! p) as [[[]| | |]|]; simpl; try reflexivity.
    unfold loadScriptFailed. rewrite settle_windowXLSX. reflexivity.
  - destruct (promises w !! p) as [[[]| | |]|]; simpl; try reflexivity.
    unfold awaitRuntime. destruct (windowModule w);
      [reflexivity | rewrite settle_windowXLSX; reflexivity].
  - destruct (onRuntimeInitialized w) as [[p x]|]; cbn [snd]; [|reflexivity].
    unfold runtimeInitialized. cbn zeta. rewrite settle_windowXLSX.
    pose proof (createWorkingDirectories_windowXLSX
                  (set_timers (List.filter (fun q => negb (Nat.eqb q p)) (timers w)) w))
      as H.
    revert H.
    generalize (createWorkingDirectories
                  (set_timers (List.filter (fun q => negb (Nat.eqb q p)) (timers w)) w)).
    intros w0 H. exact H.
  - destruct (bool_decide _); simpl; [|reflexivity].
    unfold initTimeout. simpl. destruct (isReady w); [reflexivity|].
    rewrite settle_windowXLSX. reflexivity.
Qed.

Lemma await_windowXLSX evs w :
  windowXLSX (snd (await_initialize evs w)) = windowXLSX w.
Proof.
  unfold await_initialize.
  pose proof (step_windowXLSX CallInitialize w) as H1. simpl in H1.
  destruct (initialize w) as [r w1]. simpl in H1.
  assert (H2 : windowXLSX (fst (run evs w1)) = windowXLSX w1).
  { clear. revert w1. induction evs as [|ev evs IH]; intros w1; [reflexivity|].
    rewrite run_cons. cbn [fst]. rewrite IH. apply step_windowXLSX. }
  destruct r as [h|p]; [simpl; congruence|].
  destruct (promises _ !! p) as [[]|]; simpl; congruence.
Qed.

Lemma transcodes_beyond_bootstrap : beyond_bootstrap transcodes_or_converts.
Proof. intros [] H; try reflexivity; discriminate H. Qed.

(** X13: when the spreadsheet library is not there and its script fails to
    load, or loads without defining [XLSX], a CSV request with content fails
    with the library error inside both wrappers; nothing is transcoded, no
    file is written and the engine is not called. *)
Theorem csv_library_failure_is_terminal
    (env : Env) (evs : list Event) (file : File) (w : World)
    (h : Handle) (t : DocumentType) (data : list N) :
  toLowerCase env (detectExtension env file) = js "csv" ->
  DOCUMENT_TYPE_MAP env !! js "csv" = Some t ->
  arrayBuffer file = ReadResolves data ->
  data <> [] ->
  fst (await_initialize evs w) = Returned h ->
  windowXLSX w = false ->
  xlsxScript env = ScriptError \/ xlsxScript env = ScriptWithoutXLSX ->
  let r := convertDocument env evs file w in
  fst r = Thrown (DocumentConversionFailed
                    (CsvConvertFailed (CsvToXlsxFailed XlsxLoadFailed)))
  /\ files (fs (snd r)) = files (fs w)
  /\ List.filter transcodes_or_converts (effects (snd r))
     = List.filter transcodes_or_converts (effects w).
Proof.
  intros Hcsv Hmap Hread Hne Hinit Hx Hscript. cbn zeta.
  pose proof (untouched_await transcodes_or_converts evs w
                transcodes_beyond_bootstrap) as [Hfiles Heffects].
  pose proof (await_windowXLSX evs w) as Hx1.
  unfold convertDocument, bind, getDocumentType, tableLookup, readBytes.
  rewrite Hcsv, Hmap, Hread.
  destruct (await_initialize evs w) as [[h'|e|] w1]; try discriminate Hinit.
  simpl in *. rewrite ?bool_decide_eq_true_2 by reflexivity.
  destruct data as [|b bs]; [congruence|]. simpl.
  unfold catch, convertCsvToXlsx, bind, catch, loadXlsxLibrary.
  rewrite Hx1, Hx.
  destruct Hscript as [-> | ->]; simpl;
    (split; [reflexivity|]; split; [exact Hfiles|];
     rewrite List.filter_app; simpl; rewrite app_nil_r; exact Heffects).
Qed.

Lemma csv_library_failure_is_terminal_witness :
  fst (convertDocument noXlsxEnv bootstrapOk dataCsv fresh)
  = Thrown (DocumentConversionFailed
              (CsvConvertFailed (CsvToXlsxFailed XlsxLoadFailed)))
  /\ files (fs (snd (convertDocument noXlsxEnv bootstrapOk dataCsv fresh)))
     = files (fs fresh)
  /\ List.filter transcodes_or_converts
       (effects (snd (convertDocument noXlsxEnv bootstrapOk dataCsv fresh)))
     = List.filter transcodes_or_converts (effects fresh).
Proof.
  apply (csv_library_failure_is_terminal noXlsxEnv bootstrapOk dataCsv fresh
           7%nat cell dataCsvBytes).
  - vm_compute. reflexivity.
  - vm_compute. reflexivity.
  - reflexivity.
  - discriminate.
  - vm_compute. reflexivity.
  - reflexivity.
  - left. reflexivity.
Defined.

End PipelineOutcomes.

(** ** The conversion pipeline: what a request keeps *)

Module PipelineInvariants.

Import JS Sanitize Engine EngineFacts EngineInvariants Pipeline PipelineFacts.

Lemma loadXlsxLibrary_cases env w :
  (windowXLSX w = true /\ loadXlsxLibrary env w = (Returned tt, w))
  \/ (windowXLSX w = false /\ xlsxScript env = ScriptDefinesXLSX
      /\ loadXlsxLibrary env w = (Returned tt, set_windowXLSX true (emit ELoadXlsx w)))
  \/ (windowXLSX w = false /\ xlsxScript env = ScriptPending
      /\ loadXlsxLibrary env w = (Suspended, emit ELoadXlsx w))
  \/ (windowXLSX w = false
      /\ loadXlsxLibrary env w = (Thrown XlsxLoadFailed, emit ELoadXlsx w)).
Proof.
  unfold loadXlsxLibrary. destruct (windowXLSX w); [left; auto|].
  destruct (xlsxScript env); auto 10.
Qed.

(** What follows the load of the library in [convertCsvToXlsx]. *)
Lemma transcode_cases env data fileName w :
  let m :=
    (let* csvText :=
       if hasUtf8Bom data then decode env (drop 3 data)
       else catch (decode env data) (fun _ => ret (decodeLatin1 env data)) in
     let* workbook := callXlsxRead env csvText in
     let* xlsxBuffer := callXlsxWrite env workbook in
     ret (mkFile (replaceCsvSuffix fileName) xlsxMime (ReadResolves xlsxBuffer))) in
  windowXLSX (snd (m w)) = windowXLSX w
  /\ fs (snd (m w)) = fs w
  /\ count ELoadXlsx (snd (m w)) = count ELoadXlsx w
  /\ ((exists c, fst (m w) = Thrown c /\ (c = DecodeThrew \/ c = XlsxThrew))
      \/ (exists buffer,
            fst (m w)
            = Returned (mkFile (replaceCsvSuffix fileName) xlsxMime
                          (ReadResolves buffer))
            /\ effects (snd (m w)) = effects w ++ [EXlsxRead; EXlsxWrite])).
Proof.
  cbn zeta. unfold bind, catch, decode, callXlsxRead, callXlsxWrite, ret, throw, count.
  destruct (hasUtf8Bom data).
  - destruct (decodeUtf8 env (drop 3 data)) as [text|]; cbn [fst snd].
    + destruct (XLSX_read env text) as [wb|]; cbn [fst snd].
      * destruct (XLSX_write env wb) as [buf|]; cbn [fst snd emit effects windowXLSX fs];
          rewrite <- ?app_assoc, ?List.filter_app, ?length_app; cbn [List.filter length app];
          (repeat split; [try reflexivity; simpl; lia ..|]); eauto 10.
      * cbn [emit effects windowXLSX fs]. rewrite ?List.filter_app, ?length_app.
        repeat split; [simpl; lia|]. eauto 10.
    + repeat split. eauto 10.
  - destruct (decodeUtf8 env data) as [text|]; cbn [fst snd].
    + destruct (XLSX_read env text) as [wb|]; cbn [fst snd].
      * destruct (XLSX_write env wb) as [buf|]; cbn [fst snd emit effects windowXLSX fs];
          rewrite <- ?app_assoc, ?List.filter_app, ?length_app; cbn [List.filter length app];
          (repeat split; [try reflexivity; simpl; lia ..|]); eauto 10.
      * cbn [emit effects windowXLSX fs]. rewrite ?List.filter_app, ?length_app.
        repeat split; [simpl; lia|]. eauto 10.
    + destruct (XLSX_read env (decodeLatin1 env data)) as [wb|]; cbn [fst snd].
      * destruct (XLSX_write env wb) as [buf|]; cbn [fst snd emit effects windowXLSX fs];
          rewrite <- ?app_assoc, ?List.filter_app, ?length_app; cbn [List.filter length app];
          (repeat split; [try reflexivity; simpl; lia ..|]); eauto 10.
      * cbn [emit effects windowXLSX fs]. rewrite ?List.filter_app, ?length_app.
        repeat split; [simpl; lia|]. eauto 10.
Qed.

Lemma convertCsvToXlsx_unfold env data fileName w :
  convertCsvToXlsx env data fileName w
  = match loadXlsxLibrary env w with
    | (Returned _, w1) =>
        match
          (let* csvText :=
             if hasUtf8Bom data then decode env (drop 3 data)
             else catch (decode env data) (fun _ => ret (decodeLatin1 env data)) in
           let* workbook := callXlsxRead env csvText in
           let* xlsxBuffer := callXlsxWrite env workbook in
           ret (mkFile (replaceCsvSuffix fileName) xlsxMime
                  (ReadResolves xlsxBuffer))) w1
        with
        | (Thrown e, w2) => (Thrown (CsvToXlsxFailed e), w2)
        | r => r
        end
    | (Thrown e, w1) => (Thrown (CsvToXlsxFailed e), w1)
    | (Suspended, w1) => (Suspended, w1)
    end.
Proof.
  unfold convertCsvToXlsx, catch at 1, bind at 1.
  destruct (loadXlsxLibrary env w) as [[u|e|] w1]; reflexivity.
Qed.

Lemma convertCsvToXlsx_spec env data fileName w :
  let r := convertCsvToXlsx env data fileName w in
  fs (snd r) = fs w
  /\ (windowXLSX w = true ->
      count ELoadXlsx (snd r) = count ELoadXlsx w
      /\ windowXLSX (snd r) = true /\ fst r <> Suspended)
  /\ (count ELoadXlsx (snd r) <= S (count ELoadXlsx w))%nat
  /\ (forall e, fst r = Thrown e ->
      e = CsvToXlsxFailed XlsxLoadFailed
      \/ e = CsvToXlsxFailed DecodeThrew \/ e = CsvToXlsxFailed XlsxThrew)
  /\ (forall f, fst r = Returned f ->
      name f = replaceCsvSuffix fileName /\ mime f = xlsxMime
      /\ windowXLSX (snd r) = true
      /\ exists pre, effects (snd r) = pre ++ [EXlsxRead; EXlsxWrite])
  /\ (fst r = Suspended -> windowXLSX w = false /\ xlsxScript env = ScriptPending).
Proof.
  cbn zeta. rewrite convertCsvToXlsx_unfold.
  assert (Hemit : count ELoadXlsx (emit ELoadXlsx w) = S (count ELoadXlsx w)).
  { unfold count. cbn [emit effects]. rewrite List.filter_app, length_app.
    simpl. lia. }
  destruct (loadXlsxLibrary_cases env w)
    as [[Hx ->]|[(Hx & Hs & ->)|[(Hx & Hs & ->)|(Hx & ->)]]].
  - destruct (transcode_cases env data fileName w) as (T1 & T2 & T3 & T4).
    cbn zeta in T1, T2, T3, T4. revert T1 T2 T3 T4.
    match goal with |- context [match ?m w with _ => _ end] =>
      destruct (m w) as [o w2] end.
    cbn [fst snd]. intros T1 T2 T3 [(c & -> & Hc)|(buf & -> & He)]; cbn [fst snd].
    + split; [exact T2|].
      split; [intros _; repeat split; [exact T3 | congruence | discriminate]|].
      split; [lia|].
      split; [intros e [= <-]; destruct Hc as [-> | ->]; auto|].
      split; [intros f Hf; discriminate Hf | intros Hf; discriminate Hf].
    + split; [exact T2|].
      split; [intros _; repeat split; [exact T3 | congruence | discriminate]|].
      split; [lia|].
      split; [intros e Hthrown; discriminate Hthrown|].
      split; [|intros Hf; discriminate Hf].
      intros f [= <-]. repeat split; [congruence|]. eauto.
  - destruct (transcode_cases env data fileName
                (set_windowXLSX true (emit ELoadXlsx w))) as (T1 & T2 & T3 & T4).
    cbn zeta in T1, T2, T3, T4. revert T1 T2 T3 T4.
    match goal with |- context [match ?m ?w1 with _ => _ end] =>
      destruct (m w1) as [o w2] end.
    cbn [fst snd]. change (count ELoadXlsx (set_windowXLSX true (emit ELoadXlsx w)))
      with (count ELoadXlsx (emit ELoadXlsx w)). rewrite Hemit.
    intros T1 T2 T3 [(c & -> & Hc)|(buf & -> & He)]; cbn [fst snd].
    + split; [exact T2|].
      split; [intros Hw; congruence|].
      split; [lia|].
      split; [intros e [= <-]; destruct Hc as [-> | ->]; auto|].
      split; [intros f Hf; discriminate Hf | intros Hf; discriminate Hf].
    + split; [exact T2|].
      split; [intros Hw; congruence|].
      split; [lia|].
      split; [intros e Hthrown; discriminate Hthrown|].
      split; [|intros Hf; discriminate Hf].
      intros f [= <-]. repeat split; [exact T1|]. eauto.
  - cbn [fst snd]. rewrite Hemit.
    split; [reflexivity|].
    split; [intros Hw; congruence|].
    split; [lia|].
    split; [intros e Hthrown; discriminate Hthrown|].
    split; [intros f Hf; discriminate Hf | auto].
  - cbn [fst snd]. rewrite Hemit.
    split; [reflexivity|].
    split; [intros Hw; congruence|].
    split; [lia|].
    split; [intros e [= <-]; auto|].
    split; [intros f Hf; discriminate Hf | intros Hf; discriminate Hf].
Qed.

(** X27: [convertCsvToXlsx] never changes the files of the engine; what it
    throws is the wrapper [Failed to convert CSV to XLSX] around the failure
    of the library load, of the decoding or of the library; a file it returns
    carries the name with the CSV suffix replaced and the media type of a
    spreadsheet, and was read and written by the library last; and it stays
    suspended only when the library was not there and its script never
    settles. *)
Theorem csv_transcoding_outcomes
    (env : Env) (data : list N) (fileName : jsstring) (w : World) :
  let r := convertCsvToXlsx env data fileName w in
  fs (snd r) = fs w
  /\ (forall e, fst r = Thrown e ->
      e = CsvToXlsxFailed XlsxLoadFailed
      \/ e = CsvToXlsxFailed DecodeThrew \/ e = CsvToXlsxFailed XlsxThrew)
  /\ (forall f, fst r = Returned f ->
      name f = replaceCsvSuffix fileName /\ mime f = xlsxMime
      /\ exists pre, effects (snd r) = pre ++ [EXlsxRead; EXlsxWrite])
  /\ (fst r = Suspended -> windowXLSX w = false /\ xlsxScript env = ScriptPending).
Proof.
  destruct (convertCsvToXlsx_spec env data fileName w)
    as (H1 & _ & _ & H4 & H5 & H6).
  cbn zeta. split; [exact H1|]. split; [exact H4|]. split; [|exact H6].
  intros f Hf. destruct (H5 f Hf) as (A & B & _ & C). auto.
Qed.

(** X28: once [convertCsvToXlsx] has returned a file, the spreadsheet
    library is there: a later call does not load its script again and cannot
    stay suspended; and one call loads the script at most once. *)
Theorem xlsx_library_loaded_once
    (env : Env) (data1 data2 : list N) (name1 name2 : jsstring) (w : World)
    (f : File) :
  fst (convertCsvToXlsx env data1 name1 w) = Returned f ->
  let w1 := snd (convertCsvToXlsx env data1 name1 w) in
  let r := convertCsvToXlsx env data2 name2 w1 in
  (count ELoadXlsx w1 <= S (count ELoadXlsx w))%nat
  /\ count ELoadXlsx (snd r) = count ELoadXlsx w1
  /\ windowXLSX (snd r) = true
  /\ fst r <> Suspended.
Proof.
  intros Hf. cbn zeta.
  destruct (convertCsvToXlsx_spec env data1 name1 w)
    as (_ & _ & H3 & _ & H5 & _).
  destruct (H5 f Hf) as (_ & _ & Hx & _).
  destruct (convertCsvToXlsx_spec env data2 name2
              (snd (convertCsvToXlsx env data1 name1 w)))
    as (_ & H2 & _).
  split; [exact H3|]. exact (H2 Hx).
Qed.

Lemma xlsx_library_loaded_once_witness :
  (count ELoadXlsx
     (snd (convertCsvToXlsx exampleEnv dataCsvBytes (name dataCsv) fresh))
   <= S (count ELoadXlsx fresh))%nat
  /\ count ELoadXlsx
       (snd (convertCsvToXlsx exampleEnv [65] (js "b.csv")
               (snd (convertCsvToXlsx exampleEnv dataCsvBytes (name dataCsv)
                       fresh))))
     = count ELoadXlsx
         (snd (convertCsvToXlsx exampleEnv dataCsvBytes (name dataCsv) fresh))
  /\ windowXLSX
       (snd (convertCsvToXlsx exampleEnv [65] (js "b.csv")
               (snd (convertCsvToXlsx exampleEnv dataCsvBytes (name dataCsv)
                       fresh)))) = true
  /\ fst (convertCsvToXlsx exampleEnv [65] (js "b.csv")
            (snd (convertCsvToXlsx exampleEnv dataCsvBytes (name dataCsv)
                    fresh))) <> Suspended.
Proof.
  apply (xlsx_library_loaded_once exampleEnv dataCsvBytes [65]
           (name dataCsv) (js "b.csv") fresh
           (mkFile (js "data.xlsx") xlsxMime (ReadResolves dataCsvBytes))).
  vm_compute. reflexivity.
Defined.

Section Stable.

Variable env : Env.
Variable I : World -> Prop.
Hypothesis HI : stable I.

Lemma stable_emit e w : I w -> I (emit e w).
Proof. apply HI. Qed.

Lemma stable_set_fs f w : I w -> I (set_fs f w).
Proof. apply HI. Qed.

Lemma stable_set_windowXLSX b w : I w -> I (set_windowXLSX b w).
Proof. apply HI. Qed.

Lemma stable_fsWriteFile p d : preserves I (fsWriteFile p d).
Proof.
  intros w H. unfold fsWriteFile. destruct (x2tModule w); [|exact H].
  apply stable_set_fs, stable_emit, H.
Qed.

Lemma stable_fsReadFile p : preserves I (fsReadFile p).
Proof.
  intros w H. unfold fsReadFile. destruct (x2tModule w); [|exact H].
  destruct (files (fs (emit (EReadFile p) w)) !! p); apply stable_emit, H.
Qed.

Lemma stable_fsReaddir p : preserves I (fsReaddir p).
Proof.
  intros w H. unfold fsReaddir. destruct (bool_decide _); apply stable_emit, H.
Qed.

Lemma stable_callCreateObjectURL d : preserves I (callCreateObjectURL env d).
Proof.
  intros w H. unfold callCreateObjectURL.
  destruct (createObjectURL env d); apply stable_emit, H.
Qed.

Lemma stable_executeConversion p : preserves I (executeConversion env p).
Proof.
  intros w H. unfold executeConversion. destruct (x2tModule w); [|exact H].
  destruct (main1 env (fs (emit (ECcall p) w)) p) as [result f].
  assert (H1 : I (set_fs f (emit (ECcall p) w))) by apply stable_set_fs, stable_emit, H.
  destruct (Z.eqb result 0); [exact H1|].
  apply preserves_bind; [| intros; apply preserves_throw | exact H1].
  apply preserves_catch; [|intros; apply preserves_ret].
  apply preserves_bind; [apply stable_fsReadFile | intros; apply preserves_ret].
Qed.

Lemma stable_readMediaFiles : preserves I (readMediaFiles env).
Proof.
  intros w H. unfold readMediaFiles. destruct (x2tModule w); [|exact H].
  revert w H. apply preserves_catch; [|intros; apply preserves_ret].
  apply preserves_bind; [apply stable_fsReaddir|]. intros entries.
  apply preserves_bind; [|intros; apply preserves_ret].
  apply preserves_mapM. intros file.
  apply preserves_catch; [|intros; apply preserves_ret].
  apply preserves_bind; [apply stable_fsReadFile|]. intros fileData.
  apply preserves_bind; [apply stable_callCreateObjectURL|].
  intros; apply preserves_ret.
Qed.

Lemma stable_loadXlsxLibrary : preserves I (loadXlsxLibrary env).
Proof.
  intros w H. unfold loadXlsxLibrary. destruct (windowXLSX w); [exact H|].
  destruct (xlsxScript env); cbn [snd];
    try apply stable_set_windowXLSX; apply stable_emit, H.
Qed.

Lemma stable_decode d : preserves I (decode env d).
Proof.
  unfold decode. destruct (decodeUtf8 env d);
    [apply preserves_ret | apply preserves_throw].
Qed.

Lemma stable_callXlsxRead t : preserves I (callXlsxRead env t).
Proof.
  intros w H. unfold callXlsxRead. destruct (XLSX_read env t); apply stable_emit, H.
Qed.

Lemma stable_callXlsxWrite b : preserves I (callXlsxWrite env b).
Proof.
  intros w H. unfold callXlsxWrite. destruct (XLSX_write env b); apply stable_emit, H.
Qed.

Lemma stable_convertCsvToXlsx data fileName :
  preserves I (convertCsvToXlsx env data fileName).
Proof.
  unfold convertCsvToXlsx.
  apply preserves_catch; [|intros; apply preserves_throw].
  apply preserves_bind; [apply stable_loadXlsxLibrary|]. intros _.
  apply preserves_bind.
  { destruct (hasUtf8Bom data); [apply stable_decode|].
    apply preserves_catch; [apply stable_decode | intros; apply preserves_ret]. }
  intros csvText. apply preserves_bind; [apply stable_callXlsxRead|].
  intros workbook. apply preserves_bind; [apply stable_callXlsxWrite|].
  intros; apply preserves_ret.
Qed.

Lemma stable_convertWith sanitizedName data resultName documentType :
  preserves I (convertWith env sanitizedName data resultName documentType).
Proof.
  unfold convertWith.
  apply preserves_bind; [apply stable_fsWriteFile|]. intros _.
  apply preserves_bind; [apply stable_fsWriteFile|]. intros _.
  apply preserves_bind; [apply stable_executeConversion|]. intros _.
  apply preserves_bind; [apply stable_fsReadFile|]. intros result.
  apply preserves_bind; [apply stable_readMediaFiles|].
  intros; apply preserves_ret.
Qed.

Lemma stable_readBytes file : preserves I (readBytes file).
Proof.
  intros w H. unfold readBytes. destruct (arrayBuffer file); exact H.
Qed.

(** A request keeps what the awaited initialisation keeps. *)
Lemma stable_convertDocument evs file :
  preserves I (await_initialize evs) ->
  preserves I (convertDocument env evs file).
Proof.
  intros Hawait. unfold convertDocument.
  apply preserves_bind; [exact Hawait|]. intros _.
  apply preserves_bind.
  { unfold getDocumentType. destruct (tableLookup env _);
      [apply preserves_ret | apply preserves_throw]. }
  intros documentType. apply preserves_catch; [|intros; apply preserves_throw].
  apply preserves_bind; [apply stable_readBytes|]. intros data.
  destruct (bool_decide _); [|apply stable_convertWith].
  destruct (Nat.eqb _ _); [apply preserves_throw|].
  apply preserves_catch; [|intros; apply preserves_throw].
  apply preserves_bind; [apply stable_convertCsvToXlsx|].
  intros xlsxFile. apply preserves_bind; [apply stable_readBytes|].
  intros xlsxData. apply stable_convertWith.
Qed.

End Stable.

Lemma stable_inService : stable inService.
Proof.
  split; [|split]; intros x w Hw.
  - exact (inService_change (Records x) w Hw).
  - exact (inService_change (Stores x) w Hw).
  - exact (inService_change (Defines x) w Hw).
Qed.

(** A converter in service is still in service after a request, whatever
    the outcome of the request. *)
Lemma convertDocument_inService env evs file w :
  inService w -> inService (snd (convertDocument env evs file w)).
Proof.
  apply (stable_convertDocument env inService stable_inService).
  intros w0. apply await_inService.
Qed.

(** What a request keeps of the world that the awaited initialisation left:
    the flag and the module of the converter. *)
Lemma convertDocument_keeps_module env evs file w :
  isReady (snd (convertDocument env evs file w))
  = isReady (snd (await_initialize evs w))
  /\ x2tModule (snd (convertDocument env evs file w))
     = x2tModule (snd (await_initialize evs w)).
Proof.
  set (w1 := snd (await_initialize evs w)).
  set (J := fun w0 : World => isReady w0 = isReady w1 /\ x2tModule w0 = x2tModule w1).
  assert (HJ : stable J)
    by (split; [|split]; intros x w0 [H1 H2]; split; assumption).
  change (J (snd (convertDocument env evs file w))).
  unfold convertDocument, bind at 1.
  fold w1. destruct (await_initialize evs w) as [[h|e|] w0]; cbn [snd] in w1;
    [|split; reflexivity..].
  match goal with |- J (snd (?m w0)) =>
    assert (Hm : preserves J m); [|apply Hm; split; reflexivity]
  end.
  apply preserves_bind.
  { unfold getDocumentType. destruct (tableLookup env _);
      [apply preserves_ret | apply preserves_throw]. }
  intros documentType. apply preserves_catch; [|intros; apply preserves_throw].
  apply preserves_bind; [apply stable_readBytes|]. intros data.
  destruct (bool_decide _); [|apply (stable_convertWith env J HJ)].
  destruct (Nat.eqb _ _); [apply preserves_throw|].
  apply preserves_catch; [|intros; apply preserves_throw].
  apply preserves_bind; [apply (stable_convertCsvToXlsx env J HJ)|].
  intros xlsxFile. apply preserves_bind; [apply stable_readBytes|].
  intros xlsxData. apply (stable_convertWith env J HJ).
Qed.

(** X29: a converter in service (one that is never destroyed, whatever
    requests it has served) whose initialisation a request has awaited with
    success is left, whatever the outcome of the request, in service and
    ready with the same engine: the next [initialize] returns the engine at
    once, and so does the initialisation that any later request awaits. *)
Theorem conversion_keeps_converter_ready
    (env : Env) (evs : list Event) (file : File) (w : World) (h : Handle) :
  inService w ->
  fst (await_initialize evs w) = Returned h ->
  let w' := snd (convertDocument env evs file w) in
  inService w'
  /\ isReady w' = true
  /\ x2tModule w' = Some h
  /\ initialize w' = (RHandle h, w')
  /\ forall evs', fst (await_initialize evs' w') = Returned h.
Proof.
  intros Hw Hinit. cbn zeta.
  pose proof (inService_coherent w Hw) as Hc.
  pose proof (await_returns_module evs w h Hc Hinit) as Hm.
  pose proof (coh_module _ (await_coherent evs w Hc) h Hm) as Hr.
  destruct (convertDocument_keeps_module env evs file w) as [H1 H2].
  rewrite Hr in H1. rewrite Hm in H2.
  assert (Hi : initialize (snd (convertDocument env evs file w))
               = (RHandle h, snd (convertDocument env evs file w)))
    by (unfold initialize; rewrite H1, H2; reflexivity).
  split; [apply convertDocument_inService, Hw|].
  split; [exact H1|]. split; [exact H2|]. split; [exact Hi|].
  intros evs'. unfold await_initialize. rewrite Hi. reflexivity.
Qed.

Lemma conversion_keeps_converter_ready_witness :
  inService (snd (convertDocument failingEnv bootstrapOk reportDocx fresh))
  /\ isReady (snd (convertDocument failingEnv bootstrapOk reportDocx fresh)) = true
  /\ x2tModule (snd (convertDocument failingEnv bootstrapOk reportDocx fresh))
     = Some 7%nat
  /\ initialize (snd (convertDocument failingEnv bootstrapOk reportDocx fresh))
     = (RHandle 7%nat, snd (convertDocument failingEnv bootstrapOk reportDocx fresh))
  /\ forall evs',
       fst (await_initialize evs'
              (snd (convertDocument failingEnv bootstrapOk reportDocx fresh)))
       = Returned 7%nat.
Proof.
  apply (conversion_keeps_converter_ready failingEnv bootstrapOk reportDocx fresh
           7%nat).
  - exists []. reflexivity.
  - vm_compute. reflexivity.
Defined.

Lemma fsWriteFile_some p d w h :
  x2tModule w = Some h ->
  exists w', fsWriteFile p d w = (Returned tt, w')
             /\ x2tModule w' = Some h
             /\ effects w' = effects w ++ [EWriteFile p].
Proof.
  intros Hm. unfold fsWriteFile. rewrite Hm. eexists. split; [reflexivity|].
  split; [exact Hm | reflexivity].
Qed.

Lemma executeConversion_fails env p w h code :
  x2tModule w = Some h ->
  (forall f q, fst (main1 env f q) = code) -> code <> 0%Z ->
  exists w', executeConversion env p w = (Thrown (ConversionFailed code), w')
             /\ effects w' = effects w ++ [ECcall p; EReadFile p].
Proof.
  intros Hm Hengine Hcode. unfold executeConversion. rewrite Hm.
  pose proof (Hengine (fs (emit (ECcall p) w)) p) as Hres.
  destruct (main1 env (fs (emit (ECcall p) w)) p) as [result f'].
  cbn [fst] in Hres. subst result.
  destruct (Z.eqb_spec code 0) as [->|_]; [congruence|].
  unfold bind, catch, fsReadFile. cbn [x2tModule set_fs emit]. rewrite Hm.
  destruct (files _ !! p); eexists; (split; [reflexivity|]);
    cbn [effects set_fs emit]; rewrite <- ?app_assoc; reflexivity.
Qed.

(** X14: when a converter in service (one that is never destroyed, whatever
    requests it has served) has its initialisation awaited with success, the
    extension is supported and is not CSV, the read of the file resolves,
    and the engine answers with a code other than 0, [convertDocument]
    throws the conversion error with that code inside the wrapper [Document
    conversion failed]; after the initialisation it has written the input
    file and the parameters, called the engine, and read the parameters back
    for the log, and nothing else. *)
Theorem engine_failure_is_reported
    (env : Env) (evs : list Event) (file : File) (w : World)
    (h : Handle) (t : TypeValue) (data : list N) (code : Z) :
  inService w ->
  fst (await_initialize evs w) = Returned h ->
  tableLookup env (toLowerCase env (detectExtension env file)) = Some t ->
  toLowerCase env (detectExtension env file) <> js "csv" ->
  arrayBuffer file = ReadResolves data ->
  (forall f p, fst (main1 env f p) = code) ->
  code <> 0%Z ->
  let r := convertDocument env evs file w in
  fst r = Thrown (DocumentConversionFailed (ConversionFailed code))
  /\ effects (snd r)
     = effects (snd (await_initialize evs w))
       ++ [EWriteFile (js "/working/" ++ sanitizeFileName (name file));
           EWriteFile (js "/working/params.xml");
           ECcall (js "/working/params.xml");
           EReadFile (js "/working/params.xml")].
Proof.
  intros Hw Hinit Hmap Hcsv Hread Hengine Hcode. cbn zeta.
  pose proof (await_returns_module evs w h (inService_coherent w Hw) Hinit) as Hm.
  assert (E : exists w',
             convertDocument env evs file w
             = (Thrown (DocumentConversionFailed (ConversionFailed code)), w')
             /\ effects w'
                = effects (snd (await_initialize evs w))
                  ++ [EWriteFile (js "/working/" ++ sanitizeFileName (name file));
                      EWriteFile (js "/working/params.xml");
                      ECcall (js "/working/params.xml");
                      EReadFile (js "/working/params.xml")]).
  { unfold convertDocument, bind at 1 2, getDocumentType. rewrite Hmap.
    destruct (await_initialize evs w) as [[h'|e|] w1]; try discriminate Hinit.
    cbn [snd] in Hm. cbn [ret snd]. rewrite bool_decide_eq_false_2 by exact Hcsv.
    unfold catch, bind at 1, readBytes. rewrite Hread.
    unfold convertWith, bind.
    destruct (fsWriteFile_some (js "/working/" ++ sanitizeFileName (name file))
                (Bytes data) w1 h Hm) as (w2 & -> & Hm2 & He2).
    match goal with |- context [fsWriteFile ?p ?d w2] =>
      destruct (fsWriteFile_some p d w2 h Hm2) as (w3 & -> & Hm3 & He3)
    end.
    destruct (executeConversion_fails env (js "/working/params.xml") w3 h code
                Hm3 Hengine Hcode) as (w4 & -> & He4).
    exists w4. split; [reflexivity|].
    rewrite He4, He3, He2, <- !app_assoc. reflexivity. }
  destruct E as (w' & -> & He). split; [reflexivity | exact He].
Qed.

Lemma engine_failure_is_reported_witness :
  fst (convertDocument failingEnv [] reportDocx
         (snd (convertDocument failingEnv bootstrapOk reportDocx fresh)))
  = Thrown (DocumentConversionFailed (ConversionFailed 1))
  /\ effects
       (snd (convertDocument failingEnv [] reportDocx
               (snd (convertDocument failingEnv bootstrapOk reportDocx fresh))))
     = effects
         (snd (await_initialize []
                 (snd (convertDocument failingEnv bootstrapOk reportDocx fresh))))
       ++ [EWriteFile (js "/working/" ++ sanitizeFileName (name reportDocx));
           EWriteFile (js "/working/params.xml");
           ECcall (js "/working/params.xml");
           EReadFile (js "/working/params.xml")].
Proof.
  apply (engine_failure_is_reported failingEnv [] reportDocx
           (snd (convertDocument failingEnv bootstrapOk reportDocx fresh))
           7%nat (Entry word) [80; 75; 3; 4] 1%Z).
  - apply convertDocument_inService. exists []. reflexivity.
  - vm_compute. reflexivity.
  - vm_compute. reflexivity.
  - vm_compute. discriminate.
  - reflexivity.
  - intros f p. reflexivity.
  - discriminate.
Defined.

End PipelineInvariants.

(** ** File names: what sanitisation and the rename keep *)

Module SanitizeShape.

Import JS Sanitize JSFacts SanitizeFacts Engine Pipeline.

(** X15: [sanitizeFileName] leaves a name unchanged when its base name is
    not empty, not dots only, has no character of the three classes and no
    white space at its ends, is at most 200 code units long, and its
    extension is not empty and has no dot. *)
Theorem sanitize_keeps_clean_names (name ext : jsstring) :
  Forall clean name -> name <> [] -> reservedPattern name = false ->
  trim name = name -> (length name <= 200)%nat ->
  dot ∉ ext -> ext <> [] ->
  sanitizeFileName (name ++ dot :: ext) = name ++ dot :: ext.
Proof.
  intros Hclean Hne Hres Htrim Hlen Hdot Hext.
  rewrite (sanitize_at_last_dot _ _ Hdot). f_equal.
  - unfold sanitizedBase. rewrite (strip_id _ Hclean Hres), Htrim.
    destruct name as [|c s]; [congruence|].
    unfold or_default, slice0. apply take_ge. exact Hlen.
  - destruct ext; [congruence | reflexivity].
Qed.

Lemma sanitize_keeps_clean_names_witness :
  sanitizeFileName (js "Report" ++ dot :: js "docx") = js "Report" ++ dot :: js "docx".
Proof.
  apply (sanitize_keeps_clean_names (js "Report") (js "docx")).
  - repeat constructor.
  - discriminate.
  - reflexivity.
  - reflexivity.
  - simpl. lia.
  - intros H. repeat (apply elem_of_cons in H as [H|H]; [discriminate H|]).
    apply elem_of_nil in H. exact H.
  - discriminate.
Defined.

Lemma sanitize_parts x :
  exists base ext,
    sanitizeFileName x = base ++ dot :: ext
    /\ (1 <= length base <= 200)%nat
    /\ Forall clean base
    /\ ext <> [] /\ (dot ∉ ext)
    /\ (forall c, c ∈ ext -> clean c \/ c ∈ lastSegment x).
Proof.
  destruct (trim x) as [|c t] eqn:Hx.
  - exists (js "file"), (js "bin"). unfold sanitizeFileName. rewrite Hx.
    split; [reflexivity|]. split; [simpl; lia|]. split; [apply file_clean|].
    split; [discriminate|]. split.
    + intros H. repeat (apply elem_of_cons in H as [H|H]; [discriminate H|]).
      apply elem_of_nil in H. exact H.
    + intros c' Hc. left.
      repeat (apply elem_of_cons in Hc as [->|Hc]; [repeat split|]).
      apply elem_of_nil in Hc. destruct Hc.
  - assert (Hblank : trim x <> []) by (rewrite Hx; discriminate).
    destruct (split_last dot x) as (parts & e & Hsplit & He).
    exists (sanitizedBase (join [dot] parts)), (or_default (Some e) (js "bin")).
    split.
    { unfold sanitizeFileName. rewrite Hx, Hsplit, pop_snoc. reflexivity. }
    pose proof (sanitizedBase_nonempty (join [dot] parts)) as Hne.
    pose proof (sanitizedBase_short (join [dot] parts)) as Hlen.
    split.
    { destruct (sanitizedBase (join [dot] parts)); [congruence | simpl in *; lia]. }
    split; [apply sanitizedBase_clean|].
    destruct (extension_of_output e He) as [H1 H2].
    split; [exact H2|]. split; [exact H1|].
    intros c' Hc. unfold lastSegment. rewrite Hsplit, pop_snoc. simpl.
    destruct e as [|a e]; [left | right; exact Hc].
    simpl in Hc.
    repeat (apply elem_of_cons in Hc as [->|Hc]; [repeat split|]).
    apply elem_of_nil in Hc. destruct Hc.
Qed.

(** X16: every output of [sanitizeFileName] is a base name of 1 to 200 code
    units without any character of the three classes, a dot, and an
    extension that is not empty and has no dot; in particular it is never
    blank. *)
Theorem sanitize_output_shape (x : jsstring) :
  exists base ext,
    sanitizeFileName x = base ++ dot :: ext
    /\ (1 <= length base <= 200)%nat
    /\ Forall clean base
    /\ ext <> [] /\ (dot ∉ ext)
    /\ trim (sanitizeFileName x) <> [].
Proof.
  destruct (sanitize_parts x) as (base & ext & H1 & H2 & H3 & H4 & H5 & _).
  exists base, ext. repeat split; try assumption; try lia.
  rewrite H1. apply not_blank_with_dot.
Qed.

(** X17: a character of the three classes in the output of
    [sanitizeFileName] comes from the last dot-separated segment of the
    input. *)
Theorem unclean_only_from_last_segment (x : jsstring) (c : N) :
  c ∈ sanitizeFileName x -> ~ clean c -> c ∈ lastSegment x.
Proof.
  intros Hc Hnot.
  destruct (sanitize_parts x) as (base & ext & H1 & _ & H3 & _ & _ & H6).
  rewrite H1 in Hc. apply elem_of_app in Hc as [Hc|Hc].
  - rewrite Forall_forall in H3. destruct (Hnot (H3 c Hc)).
  - apply elem_of_cons in Hc as [->|Hc].
    + exfalso. apply Hnot. repeat split.
    + destruct (H6 c Hc) as [H|H]; [destruct (Hnot H) | exact H].
Qed.

Lemma unclean_only_from_last_segment_witness : 38 ∈ lastSegment (js "a.b&c").
Proof.
  apply (unclean_only_from_last_segment (js "a.b&c") 38).
  - replace (sanitizeFileName (js "a.b&c")) with (js "a.b&c") by reflexivity.
    repeat constructor.
  - intros (_ & _ & H). discriminate H.
Defined.

(** X18: the rename of [convertCsvToXlsx] replaces a final [.csv], in any
    letter case, by [.xlsx] and keeps what precedes it. *)
Theorem csv_suffix_replaced (base : jsstring) (c s v : N) :
  (c = 99 \/ c = 67) -> (s = 115 \/ s = 83) -> (v = 118 \/ v = 86) ->
  replaceCsvSuffix (base ++ [46; c; s; v]) = base ++ js ".xlsx".
Proof.
  intros Hc Hs Hv. unfold replaceCsvSuffix.
  rewrite length_app. simpl length.
  replace (length base + 4 - 4)%nat with (length base) by lia.
  rewrite drop_app_length, take_app_length.
  destruct Hc as [-> | ->], Hs as [-> | ->], Hv as [-> | ->]; reflexivity.
Qed.

Lemma csv_suffix_replaced_witness :
  replaceCsvSuffix (js "data" ++ [46; 67; 115; 86]) = js "data" ++ js ".xlsx".
Proof.
  apply (csv_suffix_replaced (js "data") 67 115 86);
    [right | left | right]; reflexivity.
Defined.

(** X19: the rename of [convertCsvToXlsx] changes nothing else: a name is
    either returned as it is, or it ends in [.csv] in some letter case and
    that suffix alone is replaced. *)
Theorem csv_suffix_only (name : jsstring) :
  replaceCsvSuffix name = name
  \/ exists base c s v,
       name = base ++ [46; c; s; v]
       /\ (c = 99 \/ c = 67) /\ (s = 115 \/ s = 83) /\ (v = 118 \/ v = 86)
       /\ replaceCsvSuffix name = base ++ js ".xlsx".
Proof.
  unfold replaceCsvSuffix.
  set (n := (length name - 4)%nat).
  pose proof (take_drop n name) as Hsplit.
  destruct (drop n name) as [|d [|c [|s [|v [|z l]]]]]; try (left; reflexivity).
  destruct ((d =? 46) && ((c =? 99) || (c =? 67)) && ((s =? 115) || (s =? 83))
            && ((v =? 118) || (v =? 86))) eqn:Hcond; [|left; reflexivity].
  apply andb_prop in Hcond as [Hcond Hv]. apply andb_prop in Hcond as [Hcond Hs].
  apply andb_prop in Hcond as [Hd Hc].
  apply N.eqb_eq in Hd. subst d.
  apply orb_prop in Hc. apply orb_prop in Hs. apply orb_prop in Hv.
  rewrite !N.eqb_eq in Hc, Hs, Hv.
  right. exists (take n name), c, s, v.
  split; [symmetry; exact Hsplit|]. auto.
Qed.

(** X20: the extension [convertDocument] works with is the first one
    [getExtensions] gives for the media type of the file when that is not
    empty; otherwise it is what follows the last dot of the file name, and
    the whole name when the name has no dot. *)
Theorem detectExtension_sources (env : Env) (file : File) :
  (forall e, head (getExtensions env (mime file)) = Some e -> e <> [] ->
             detectExtension env file = e)
  /\ (or_default (head (getExtensions env (mime file))) [] = [] ->
      (forall base ext, name file = base ++ dot :: ext -> dot ∉ ext ->
                        detectExtension env file = ext)
      /\ (dot ∉ name file -> detectExtension env file = name file)).
Proof.
  unfold detectExtension. split.
  - intros e -> He. destruct e; [congruence | reflexivity].
  - intros Hnone.
    assert (Hfall : forall d, or_default (head (getExtensions env (mime file))) d = d).
    { intros d. destruct (head (getExtensions env (mime file))) as [[|c e]|];
        try reflexivity. discriminate Hnone. }
    rewrite Hfall. split.
    + intros base ext -> Hdot. rewrite (split_app _ _ _ Hdot), pop_snoc. simpl.
      destruct ext; reflexivity.
    + intros Hdot. rewrite (split_no_sep _ _ Hdot). simpl.
      destruct (name file); reflexivity.
Qed.

End SanitizeShape.

(** ** The editor lifecycle queue: order of operations *)

Module EditorQueueOrder.

Import JS EditorQueue EditorQueueFacts.

Lemma qrun_app l1 l2 q : qrun (l1 ++ l2) q = qrun l2 (qrun l1 q).
Proof. unfold qrun. apply foldl_app. Qed.

Lemma awaited_round (q : Queue) :
  signals q !! editorOperationQueue q = Some QFulfilled ->
  let i := length (calls q) in
  let q' := qrun [Enqueue; QueueSettled i; OperationReturns i] q in
  history q' = history q ++ [Started i; Finished i]
  /\ calls q' = calls q ++ [Completed]
  /\ signals q' = signals q ++ [QFulfilled]
  /\ editorOperationQueue q' = length (signals q).
Proof.
  intros Hsig. simpl.
  rewrite lookup_app_r, Nat.sub_diag by reflexivity. simpl. rewrite Hsig.
  unfold start. simpl.
  rewrite list_lookup_insert_eq by (rewrite length_app; simpl; lia). simpl.
  rewrite !insert_app_r_alt, !Nat.sub_diag by lia. simpl.
  rewrite <- app_assoc. repeat split.
Qed.

Lemma awaited_run n : forall q,
  signals q !! editorOperationQueue q = Some QFulfilled ->
  let q' := qrun (awaitedCalls (length (calls q)) n) q in
  history q' = history q ++ awaitedHistory (length (calls q)) n
  /\ calls q' = calls q ++ repeat Completed n
  /\ signals q' !! editorOperationQueue q' = Some QFulfilled.
Proof.
  induction n as [|n IH]; intros q Hsig; cbn zeta.
  - simpl. rewrite !app_nil_r. auto.
  - cbn [awaitedCalls awaitedHistory]. rewrite qrun_app.
    destruct (awaited_round q Hsig) as (H1 & H2 & H3 & H4).
    set (q1 := qrun [Enqueue; QueueSettled (length (calls q));
                     OperationReturns (length (calls q))] q) in *.
    assert (Hlen : length (calls q1) = S (length (calls q)))
      by (rewrite H2, length_app; simpl; lia).
    assert (Hsig1 : signals q1 !! editorOperationQueue q1 = Some QFulfilled).
    { rewrite H3, H4. rewrite lookup_app_r, Nat.sub_diag by reflexivity.
      reflexivity. }
    destruct (IH q1 Hsig1) as (I1 & I2 & I3). rewrite Hlen in I1, I2, I3.
    rewrite I1, I2, H1, H2, <- !app_assoc. auto.
Qed.

Lemma serial_awaited first n : serial None (awaitedHistory first n) = true.
Proof.
  revert first. induction n as [|n IH]; intros first; [reflexivity|].
  simpl. rewrite Nat.eqb_refl. apply IH.
Qed.

(** X21: when the queue is idle and each call of [queueEditorOperation] is
    made only after the operation of the previous one has returned, every
    operation starts after the previous one has finished and every call
    completes. *)
Theorem awaited_calls_run_in_order (q : Queue) (n : nat) :
  signals q !! editorOperationQueue q = Some QFulfilled ->
  let q' := qrun (awaitedCalls (length (calls q)) n) q in
  history q' = history q ++ awaitedHistory (length (calls q)) n
  /\ calls q' = calls q ++ repeat Completed n
  /\ serial None (awaitedHistory (length (calls q)) n) = true.
Proof.
  intros Hsig. destruct (awaited_run n q Hsig) as (H1 & H2 & _).
  cbn zeta. split; [exact H1|]. split; [exact H2 | apply serial_awaited].
Qed.

Lemma awaited_calls_run_in_order_witness :
  history (qrun (awaitedCalls (length (calls initial)) 3) initial)
  = history initial ++ awaitedHistory (length (calls initial)) 3
  /\ calls (qrun (awaitedCalls (length (calls initial)) 3) initial)
     = calls initial ++ repeat Completed 3
  /\ serial None (awaitedHistory (length (calls initial)) 3) = true.
Proof.
  apply (awaited_calls_run_in_order initial 3). reflexivity.
Defined.

(** X22: when the timer of a waiting call fires while the operation ahead
    of it is still running, the call starts its operation beside the running
    one and becomes the queue; the earlier operation still completes with its
    own outcome, and so does the later one. *)
Theorem queue_timeout_lets_next_call_start (q : Queue) (j own : nat) :
  calls q !! j = Some (Running own) ->
  editorOperationQueue q = own ->
  signals q !! own = Some QPending ->
  let i := length (calls q) in
  let q1 := qrun [Enqueue; QueueTimeout i] q in
  let q2 := qrun [OperationReturns j; OperationReturns i] q1 in
  history q1 = history q ++ [Started i]
  /\ calls q1 !! j = Some (Running own)
  /\ calls q1 !! i = Some (Running (length (signals q)))
  /\ editorOperationQueue q1 = length (signals q)
  /\ history q2 = history q ++ [Started i; Finished j; Finished i]
  /\ calls q2 !! j = Some Completed
  /\ calls q2 !! i = Some Completed.
Proof.
  intros Hj Htail Hsig.
  pose proof (lookup_lt_Some _ _ _ Hj) as Hjlt.
  pose proof (lookup_lt_Some _ _ _ Hsig) as Hownlt.
  cbn zeta. simpl. rewrite Htail.
  rewrite lookup_app_r, Nat.sub_diag by reflexivity. simpl. rewrite Hsig.
  unfold start. simpl.
  rewrite insert_app_r_alt, Nat.sub_diag by lia. simpl.
  rewrite (lookup_app_l (calls q)) by exact Hjlt. rewrite Hj. simpl.
  rewrite list_lookup_insert_ne by lia.
  rewrite lookup_app_r, Nat.sub_diag by reflexivity. simpl.
  rewrite <- !app_assoc. simpl.
  repeat split.
  - rewrite list_lookup_insert_ne by lia.
    apply list_lookup_insert_eq. rewrite length_app. simpl. lia.
  - apply list_lookup_insert_eq. rewrite length_insert, length_app. simpl. lia.
Qed.

Lemma queue_timeout_lets_next_call_start_witness :
  history (qrun [Enqueue; QueueTimeout (length (calls oneRunning))] oneRunning)
  = history oneRunning ++ [Started (length (calls oneRunning))]
  /\ calls (qrun [Enqueue; QueueTimeout (length (calls oneRunning))] oneRunning)
       !! 0%nat = Some (Running 1)
  /\ calls (qrun [Enqueue; QueueTimeout (length (calls oneRunning))] oneRunning)
       !! length (calls oneRunning)
     = Some (Running (length (signals oneRunning)))
  /\ editorOperationQueue
       (qrun [Enqueue; QueueTimeout (length (calls oneRunning))] oneRunning)
     = length (signals oneRunning)
  /\ history
       (qrun [OperationReturns 0; OperationReturns (length (calls oneRunning))]
          (qrun [Enqueue; QueueTimeout (length (calls oneRunning))] oneRunning))
     = history oneRunning
       ++ [Started (length (calls oneRunning)); Finished 0;
           Finished (length (calls oneRunning))]
  /\ calls
       (qrun [OperationReturns 0; OperationReturns (length (calls oneRunning))]
          (qrun [Enqueue; QueueTimeout (length (calls oneRunning))] oneRunning))
       !! 0%nat = Some Completed
  /\ calls
       (qrun [OperationReturns 0; OperationReturns (length (calls oneRunning))]
          (qrun [Enqueue; QueueTimeout (length (calls oneRunning))] oneRunning))
       !! length (calls oneRunning) = Some Completed.
Proof.
  apply (queue_timeout_lets_next_call_start oneRunning 0 1); reflexivity.
Defined.

(** X23: a queue left rejected by an error whose message is the message
    of the queue timeout does not fail the next call: the catch takes the
    error for a timeout, and the call starts its operation. *)
Theorem timeout_message_does_not_poison (q : Queue) (e : Exn) :
  signals q !! editorOperationQueue q = Some (QRejected e) ->
  isQueueTimeout e = true ->
  let i := length (calls q) in
  let q' := qrun [Enqueue; QueueSettled i] q in
  history q' = history q ++ [Started i]
  /\ calls q' = calls q ++ [Running (length (signals q))]
  /\ editorOperationQueue q' = length (signals q).
Proof.
  intros Hsig Hto. cbn zeta. simpl.
  rewrite lookup_app_r, Nat.sub_diag by reflexivity. simpl.
  rewrite Hsig, Hto. unfold start. simpl.
  rewrite insert_app_r_alt, Nat.sub_diag by lia. repeat split.
Qed.

Lemma timeout_message_does_not_poison_witness :
  history (qrun [Enqueue; QueueSettled (length (calls afterTimeoutMessage))]
             afterTimeoutMessage)
  = history afterTimeoutMessage ++ [Started (length (calls afterTimeoutMessage))]
  /\ calls (qrun [Enqueue; QueueSettled (length (calls afterTimeoutMessage))]
              afterTimeoutMessage)
     = calls afterTimeoutMessage ++ [Running (length (signals afterTimeoutMessage))]
  /\ editorOperationQueue
       (qrun [Enqueue; QueueSettled (length (calls afterTimeoutMessage))]
          afterTimeoutMessage)
     = length (signals afterTimeoutMessage).
Proof.
  apply (timeout_message_does_not_poison afterTimeoutMessage timeoutError);
    reflexivity.
Defined.

Lemma quiet_step ev q :
  signals q !! editorOperationQueue q = Some QPending -> waitsOnPending q ->
  quiet ev = true ->
  history (qstep ev q) = history q
  /\ signals (qstep ev q) = signals q
  /\ editorOperationQueue (qstep ev q) = editorOperationQueue q
  /\ waitsOnPending (qstep ev q)
  /\ (forall i c, calls q !! i = Some c -> calls (qstep ev q) !! i = Some c).
Proof.
  intros Hsig Hw Hev. destruct ev as [|i|i|i|i e]; try discriminate Hev; simpl.
  - repeat split; auto.
    + intros i p Hi. apply lookup_app_Some in Hi as [Hi|[_ Hi]]; [eauto|].
      destruct (i - length (calls q))%nat; simpl in Hi;
        [inversion Hi; subst; exact Hsig | rewrite lookup_nil in Hi; discriminate Hi].
    + intros i c Hi. apply lookup_app_l_Some. exact Hi.
  - destruct (calls q !! i) as [[p| | |]|] eqn:Hi;
      [rewrite (Hw i p Hi)| | | |]; repeat split; auto.
Qed.

(** X24: while the operation that is the queue is running and every
    suspended call awaits a pending promise, making further calls and
    serving their continuations starts no operation and leaves the queue and
    the calls there are as they were. *)
Theorem later_calls_wait_for_running_operation (tr : list QEvent) (q : Queue) :
  signals q !! editorOperationQueue q = Some QPending -> waitsOnPending q ->
  forallb quiet tr = true ->
  history (qrun tr q) = history q
  /\ signals (qrun tr q) = signals q
  /\ editorOperationQueue (qrun tr q) = editorOperationQueue q
  /\ (forall i c, calls q !! i = Some c -> calls (qrun tr q) !! i = Some c).
Proof.
  revert q. induction tr as [|ev tr IH]; intros q Hsig Hw Htr; [simpl; auto|].
  apply andb_prop in Htr as [Hev Htr].
  destruct (quiet_step ev q Hsig Hw Hev) as (H1 & H2 & H3 & H4 & H5).
  change (qrun (ev :: tr) q) with (qrun tr (qstep ev q)).
  destruct (IH (qstep ev q)) as (I1 & I2 & I3 & I4); [congruence | exact H4 | exact Htr |].
  repeat split; try congruence. intros i c Hi. apply I4, H5, Hi.
Qed.

Lemma later_calls_wait_for_running_operation_witness :
  history (qrun [Enqueue; Enqueue; QueueSettled 1; QueueSettled 2; Enqueue]
             oneRunning) = history oneRunning
  /\ signals (qrun [Enqueue; Enqueue; QueueSettled 1; QueueSettled 2; Enqueue]
                oneRunning) = signals oneRunning
  /\ editorOperationQueue
       (qrun [Enqueue; Enqueue; QueueSettled 1; QueueSettled 2; Enqueue]
          oneRunning) = editorOperationQueue oneRunning
  /\ (forall i c, calls oneRunning !! i = Some c ->
        calls (qrun [Enqueue; Enqueue; QueueSettled 1; QueueSettled 2; Enqueue]
                 oneRunning) !! i = Some c).
Proof.
  apply (later_calls_wait_for_running_operation
           [Enqueue; Enqueue; QueueSettled 1; QueueSettled 2; Enqueue] oneRunning).
  - reflexivity.
  - intros [|i] p H; discriminate H.
  - reflexivity.
Defined.

End EditorQueueOrder.

(** ** The session manager: what an operation does *)

Module EditorSessionOrder.

Import JS EditorSession.

(** X25: the operation of [createEditorInstance] throws exactly when the
    constructor of the editor throws; [window.editor] is then undefined, also
    when a session was live before, and is the new editor otherwise; the
    container is emptied when it exists; and a [destroyEditor] that throws
    changes nothing of this. *)
Theorem session_after_operation (widget : Widget) (cfg : Config) (w : Window) :
  let w' := snd (fst (operation widget cfg w)) in
  snd (operation widget cfg w) = constructorThrows widget
  /\ editor w' =
       match constructorThrows widget with
       | Some _ => None
       | None => Some (mkEditor cfg)
       end
  /\ iframe w' = (fun _ => []) <$> iframe w
  /\ snd (fst (operation (mkWidget (negb (destroyThrows widget))
                            (constructorThrows widget)) cfg w)) = w'.
Proof.
  destruct widget as [d [e|]], w as [[ed|] [fr|]], d; unfold operation;
    cbn [editor iframe destroyThrows constructorThrows fst snd negb fmap option_fmap option_map];
    repeat split.
Qed.

(** X26: the operation of [createEditorInstance] calls the constructor
    once, as its last action, right after a delay; [destroyEditor] is called
    exactly when a session was live, once and before anything else; and the
    container is cleared exactly when it exists. *)
Theorem operation_action_order (widget : Widget) (cfg : Config) (w : Window) :
  exists pre d,
    fst (fst (operation widget cfg w)) = pre ++ [Wait d; NewDocEditor cfg]
    /\ (forall c, NewDocEditor c ∉ pre)
    /\ (is_Some (editor w) ->
        exists rest, pre = DestroyEditor :: rest /\ DestroyEditor ∉ rest)
    /\ (editor w = None -> DestroyEditor ∉ pre)
    /\ (ClearContainer ∈ pre <-> is_Some (iframe w)).
Proof.
  exists
    (match editor w with
     | Some _ =>
         if destroyThrows widget then [DestroyEditor]
         else [DestroyEditor;
               Wait (destroyDelay (bool_decide (is_Some (editor w)))
                       (isPresentation (fileType cfg)))]
     | None => []
     end ++ match iframe w with Some _ => [ClearContainer] | None => [] end),
    (cleanupDelay (bool_decide (is_Some (editor w)))
       (isPresentation (fileType cfg))).
  unfold operation.
  destruct widget as [d oe], w as [[ed|] [fr|]], d, oe;
    cbn [editor iframe destroyThrows constructorThrows fst snd app].
  all: split; [reflexivity|].
  all: split;
    [intros c Hc;
     repeat (apply elem_of_cons in Hc as [Hc|Hc]; [discriminate Hc|]);
     apply elem_of_nil in Hc; exact Hc|].
  all: split;
    [intros [x Hx];
     first [discriminate Hx
           |eexists; split; [reflexivity|]; intros Hc;
            repeat (apply elem_of_cons in Hc as [Hc|Hc]; [discriminate Hc|]);
            apply elem_of_nil in Hc; exact Hc]|].
  all: split;
    [intros Hx;
     first [discriminate Hx
           |intros Hc;
            repeat (apply elem_of_cons in Hc as [Hc|Hc]; [discriminate Hc|]);
            apply elem_of_nil in Hc; exact Hc]|].
  all: split;
    [intros Hc;
     first [eexists; reflexivity
           |repeat (apply elem_of_cons in Hc as [Hc|Hc]; [discriminate Hc|]);
            apply elem_of_nil in Hc; destruct Hc]
    |intros [x Hx];
     first [discriminate Hx
           |repeat constructor]].
Qed.

End EditorSessionOrder.
